(** * realtyvest-avm: the scraper scaffolding, embedded and verified

    A shallow embedding of the Python sources

      - [src/data/scrapers/utils.py]        (RateLimiter, retry_on_failure)
      - [src/utils/logger.py]               (setup_logger)
      - [src/utils/helpers.py]              (generate_cache_key)
      - [src/data/scrapers/base_scraper.py] (BaseScraper)

    Effects are explicit: a function that touches the clock, the file
    system, the logger registry or a wrapped callable takes the state it
    reads and returns the state it leaves, together with the trace of the
    events it performed.  Library calls ([hashlib.md5], [pandas.read_csv],
    [str], [repr], ...) are binders of the sections that use them. *)

From Stdlib Require Import ZArith QArith Lqa List String Ascii Bool Lia.
From Stdlib Require Import DecimalString.
From Stdlib Require Import Sorting.Permutation Sorting.Sorted.
From stdpp Require Import base tactics option list gmap strings sorting.

Set Default Proof Using "Type".
Open Scope Z_scope.

(** ** Retry decorator ([src/data/scrapers/utils.py], [retry_on_failure]) *)

Module Retry.

Section retry.
(** [A]: what the wrapped callable returns; [NetExn]: the instances of
    [requests.exceptions.RequestException]; [OtherExn]: every other
    exception; [St]: the state the callable reads and updates. *)
Context {A NetExn OtherExn St : Type}.

Inductive exn :=
| RequestException (e : NetExn)
| OtherException (x : OtherExn)
| TypeError_raise_None.   (* [raise None]: exceptions must derive from BaseException *)

Inductive outcome :=
| Return (a : A)
| Raise (x : exn).

Definition is_request_exception (x : exn) : bool :=
  match x with RequestException _ => true | _ => false end.

Inductive event :=
| Call (r : outcome)                       (* one invocation of func and how it ended *)
| LogWarning (attempt : Z) (e : NetExn) (delay : Q)
| Sleep (delay : Q)                        (* time.sleep(delay) *)
| LogError.                                (* "All n attempts failed" *)

(** The callable, already applied to its positional and keyword arguments. *)
Definition callable := St -> outcome * St.

(** [for attempt in range(max_retries + 1): ...], then
    [raise last_exception]. *)
Fixpoint attempt_loop (func : callable) (max_retries : Z) (backoff_factor : Q)
    (attempts : list Z) (last_exception : option NetExn) (s : St)
    : outcome * list event * St :=
  match attempts with
  | [] =>
      (* All retries exhausted *)
      match last_exception with
      | Some e => (Raise (RequestException e), [], s)
      | None => (Raise TypeError_raise_None, [], s)
      end
  | attempt :: rest =>
      match func s with
      | (Return a, s1) => (Return a, [Call (Return a)], s1)
      | (Raise (RequestException e), s1) =>
          if attempt <? max_retries then
            let delay := Qpower backoff_factor attempt in
            let '(res, tr, s2) :=
              attempt_loop func max_retries backoff_factor rest (Some e) s1 in
            (res, Call (Raise (RequestException e))
                    :: LogWarning attempt e delay :: Sleep delay :: tr, s2)
          else
            let '(res, tr, s2) :=
              attempt_loop func max_retries backoff_factor rest (Some e) s1 in
            (res, Call (Raise (RequestException e)) :: LogError :: tr, s2)
      | (Raise x, s1) => (Raise x, [Call (Raise x)], s1)
      end
  end.

(** The [wrapper] that [retry_on_failure(max_retries, backoff_factor)]
    builds around [func]. *)
Definition retry_on_failure (max_retries : Z) (backoff_factor : Q)
    (func : callable) (s : St) : outcome * list event * St :=
  attempt_loop func max_retries backoff_factor
    (seqZ 0 (max_retries + 1)) None s.

(** Observations on a trace. *)
Definition calls (tr : list event) : list outcome :=
  omap (fun ev => match ev with Call r => Some r | _ => None end) tr.

Definition sleeps (tr : list event) : list Q :=
  omap (fun ev => match ev with Sleep d => Some d | _ => None end) tr.

End retry.

Arguments exn : clear implicits.
Arguments outcome : clear implicits.
Arguments event : clear implicits.
Arguments callable : clear implicits.

End Retry.

(** ** Rate limiter ([src/data/scrapers/utils.py], [RateLimiter]) *)

Module RateLimiter.

(** Times and delays are Python floats in seconds; they are modelled as
    exact rationals. *)
Record t := {
  min_delay : Q;
  max_delay : Q;
  last_request_time : Q;
}.

(** [RateLimiter.__init__] *)
Definition init (min_delay max_delay : Q) : t :=
  {| min_delay := min_delay; max_delay := max_delay; last_request_time := 0 |}.

(** What one call of [wait] receives from its environment: the clock is
    monotone, so every advance is non-negative, and [time.sleep(d)]
    returns after at least [d]. *)
Record env := {
  elapsed_before : Q;  (* clock advance up to the first [time.time()] *)
  sample : Q;          (* [random.random()], in the unit interval *)
  oversleep : Q;       (* [time.sleep(d)] advances the clock by [d + oversleep] *)
  elapsed_after : Q;   (* clock advance up to the second [time.time()] *)
}.

Definition env_ok (e : env) : Prop :=
  (0 <= elapsed_before e /\ 0 <= sample e /\ sample e <= 1 /\
   0 <= oversleep e /\ 0 <= elapsed_after e)%Q.

(** [random.uniform(a, b)] is [a + (b - a) * random()]. *)
Definition uniform (a b u : Q) : Q := (a + (b - a) * u)%Q.

(** [RateLimiter.wait]: from the limiter and the clock at entry to the
    limiter and the clock at exit, with the time slept if any. *)
Definition wait (rl : t) (clock : Q) (e : env) : t * Q * option Q :=
  let current_time := (clock + elapsed_before e)%Q in
  let time_since_last := (current_time - last_request_time rl)%Q in
  let delay := uniform (min_delay rl) (max_delay rl) (sample e) in
  let '(clock1, slept) :=
    if Qlt_le_dec time_since_last delay then
      let sleep_time := (delay - time_since_last)%Q in
      ((current_time + (sleep_time + oversleep e))%Q, Some sleep_time)
    else (current_time, None) in
  let clock2 := (clock1 + elapsed_after e)%Q in
  ({| min_delay := min_delay rl; max_delay := max_delay rl;
      last_request_time := clock2 |}, clock2, slept).

(** Consecutive [wait()] calls by one thread, with what the clock shows
    when each call completes, which is the clock that [wait] hands back,
    and the time the call asked [time.sleep] for, if it slept.  The
    clock at which a call completes is the clock at which the next one
    starts: whatever the caller does in between is the next call's
    [elapsed_before]. *)
Fixpoint wait_run (rl : t) (clock : Q) (es : list env) : list (Q * option Q) :=
  match es with
  | [] => []
  | e :: es' =>
      let '(rl', clock', slept) := wait rl clock e in
      (clock', slept) :: wait_run rl' clock' es'
  end.

(** The time that passes on the clock during one call: the two advances
    of the monotone clock and, when the call sleeps, the sleep, which
    lasts the time asked for and the oversleep. *)
Definition time_taken (e : env) (slept : option Q) : Q :=
  (elapsed_before e
   + match slept with
     | Some sleep_time => sleep_time + oversleep e
     | None => 0
     end
   + elapsed_after e)%Q.

End RateLimiter.

(** ** Logger factory ([src/utils/logger.py], [setup_logger]) *)

Module Logger.

(** Both handlers carry the one formatter that [setup_logger] builds. *)
Inductive handler :=
| StreamHandler_stdout
| RotatingFileHandler (filename : string) (maxBytes backupCount : Z).

(** The state of a [logging.Logger] that a caller can observe. *)
Record logger := {
  level : Z;
  handlers : list handler;
  propagate : bool;
  disabled : bool;
}.

(** The process-wide registry of [logging], and the directories that
    [setup_logger] created. *)
Record world := {
  loggers : gmap string logger;
  made_dirs : list string;
}.

Definition NOTSET : Z := 0.
Definition DEBUG : Z := 10.
Definition INFO : Z := 20.
Definition WARNING : Z := 30.
Definition ERROR : Z := 40.
Definition CRITICAL : Z := 50.

(** [logging.getLogger(name)]: an empty name and the name [root] denote
    the root logger; a logger is created on first use, the root at
    WARNING and every other one at NOTSET. *)
Definition logger_key (name : string) : string :=
  if String.eqb name "" then "root"%string else name.

Definition fresh_logger (key : string) : logger :=
  {| level := if String.eqb key "root" then WARNING else NOTSET;
     handlers := []; propagate := true; disabled := false |}.

Definition getLogger (name : string) (w : world) : logger * world :=
  let key := logger_key name in
  match loggers w !! key with
  | Some l => (l, w)
  | None =>
      (fresh_logger key,
       {| loggers := <[key := fresh_logger key]> (loggers w);
          made_dirs := made_dirs w |})
  end.

(** [str.upper], on ASCII letters. *)
Definition upper_ascii (c : ascii) : ascii :=
  let n := nat_of_ascii c in
  if ((97 <=? n)%nat && (n <=? 122)%nat)%bool then ascii_of_nat (n - 32) else c.

Fixpoint upper (s : string) : string :=
  match s with
  | EmptyString => EmptyString
  | String c s' => String (upper_ascii c) (upper s')
  end.

(** [getattr(logging, NAME)] followed by [Logger.setLevel]: the level
    constants of the [logging] module; any other name has no attribute
    or an attribute that [setLevel] rejects, and the call raises. *)
Definition logging_level (NAME : string) : option Z :=
  if String.eqb NAME "CRITICAL" then Some CRITICAL
  else if String.eqb NAME "FATAL" then Some CRITICAL
  else if String.eqb NAME "ERROR" then Some ERROR
  else if String.eqb NAME "WARNING" then Some WARNING
  else if String.eqb NAME "WARN" then Some WARNING
  else if String.eqb NAME "INFO" then Some INFO
  else if String.eqb NAME "DEBUG" then Some DEBUG
  else if String.eqb NAME "NOTSET" then Some NOTSET
  else None.

Definition setLevel (lv : Z) (l : logger) : logger :=
  {| level := lv; handlers := handlers l;
     propagate := propagate l; disabled := disabled l |}.

Definition addHandler (h : handler) (l : logger) : logger :=
  {| level := level l; handlers := handlers l ++ [h];
     propagate := propagate l; disabled := disabled l |}.

(** [Path(log_file).parent], as a string: everything before the last
    slash, [.] when there is none. *)
Fixpoint parent_aux (s : string) : option string :=
  match s with
  | EmptyString => None
  | String c s' =>
      match parent_aux s' with
      | Some p => Some (String c p)
      | None => if Ascii.eqb c "/" then Some EmptyString else None
      end
  end.

Definition parent (path : string) : string :=
  match parent_aux path with
  | Some EmptyString => "/"%string
  | Some p => p
  | None => "."%string
  end.

Inductive result :=
| Returned (key : string)     (* the logger registered under [key] *)
| Raised.                     (* AttributeError / ValueError / TypeError from the level *)

(** [setup_logger(name, log_file, level, max_bytes, backup_count)] *)
Definition setup_logger (name : string) (log_file : option string)
    (level : string) (max_bytes backup_count : Z) (w : world)
    : result * world :=
  let key := logger_key name in
  let '(logger0, w1) := getLogger name w in
  match logging_level (upper level) with
  | None => (Raised, w1)
  | Some lv =>
      let logger1 := setLevel lv logger0 in
      (* Avoid duplicate handlers *)
      match handlers logger1 with
      | _ :: _ =>
          (Returned key,
           {| loggers := <[key := logger1]> (loggers w1);
              made_dirs := made_dirs w1 |})
      | [] =>
          let logger2 := addHandler StreamHandler_stdout logger1 in
          match log_file with
          | Some path =>
              if String.eqb path "" then
                (Returned key,
                 {| loggers := <[key := logger2]> (loggers w1);
                    made_dirs := made_dirs w1 |})
              else
                let logger3 :=
                  addHandler (RotatingFileHandler path max_bytes backup_count)
                    logger2 in
                (Returned key,
                 {| loggers := <[key := logger3]> (loggers w1);
                    made_dirs := made_dirs w1 ++ [parent path] |})
          | None =>
              (Returned key,
               {| loggers := <[key := logger2]> (loggers w1);
                  made_dirs := made_dirs w1 |})
          end
      end
  end.

(** [get_logger(name)]: [environ] is the process environment after
    [load_dotenv()] has merged the [.env] file into it. *)
Definition get_logger (name : string) (environ : gmap string string)
    (w : world) : result * world :=
  let log_level := default "INFO"%string (environ !! "LOG_LEVEL"%string) in
  let log_file := default "logs/avm.log"%string (environ !! "LOG_FILE"%string) in
  setup_logger name (Some log_file) log_level 10485760 5 w.

End Logger.

(** ** Python built-ins used by the cache keys *)

Module Py.

(** [str.lower], on ASCII letters. *)
Definition lower_ascii (c : ascii) : ascii :=
  let n := nat_of_ascii c in
  if ((65 <=? n)%nat && (n <=? 90)%nat)%bool then ascii_of_nat (n + 32) else c.

Fixpoint lower (s : string) : string :=
  match s with
  | EmptyString => EmptyString
  | String c s' => String (lower_ascii c) (lower s')
  end.

(** [", ".join(...)] between brackets, as [repr] prints tuples and lists. *)
Definition repr_tuple (reprs : list string) : string :=
  match reprs with
  | [r] => "(" ++ r ++ ",)"
  | _ => "(" ++ String.concat ", " reprs ++ ")"
  end.

Definition repr_list (reprs : list string) : string :=
  "[" ++ String.concat ", " reprs ++ "]".

Section items.
Context {V : Type}.

(** [kwargs.items()]: the pairs of the dict in insertion order; the
    keys of a dict are pairwise distinct. *)
Definition items := list (string * V).

(** The order in which [sorted] compares two items of a dict: tuples
    compare on their first differing component, and the keys of two
    items differ, so the strings decide; strings compare by code
    point, which on UTF-8 text is the order of the bytes. *)
Definition item_le (x y : string * V) : Prop := String.le x.1 y.1.

#[export] Instance item_le_dec : RelDecision item_le.
Proof. intros x y. unfold item_le. apply _. Defined.

(** [sorted(kwargs.items())] *)
Definition sorted_items (kwargs : items) : items := merge_sort item_le kwargs.
End items.

Arguments items : clear implicits.

End Py.

(** ** Wall-clock time: [datetime.now()], [timedelta.days], [strftime] *)

Module Clock.

(** A naive local [datetime] is the number of microseconds since the
    epoch of the local calendar. *)
Definition usec_per_day : Z := 86400000000.

(** [(a - b).days]: a [timedelta] is normalised so that [days] is the
    floor of the difference in days. *)
Definition timedelta_days (a b : Z) : Z := (a - b) / usec_per_day.

(** Year and month of the proleptic Gregorian calendar from the day
    number (day 0 is 1970-01-01). *)
Definition year_month_of_day (day : Z) : Z * Z :=
  let z := day + 719468 in
  let era := z / 146097 in
  let doe := z - era * 146097 in
  let yoe := (doe - doe / 1460 + doe / 36524 - doe / 146096) / 365 in
  let doy := doe - (365 * yoe + yoe / 4 - yoe / 100) in
  let mp := (5 * doy + 2) / 153 in
  let m := if mp <? 10 then mp + 3 else mp - 9 in
  let y := yoe + era * 400 in
  (if m <=? 2 then y + 1 else y, m).

Definition decimal (n : Z) : string := NilZero.string_of_int (Z.to_int n).

(** [strftime("%Y%m")], for the years from 1000 on. *)
Definition strftime_Ym (now : Z) : string :=
  let '(y, m) := year_month_of_day (now / usec_per_day) in
  decimal y ++ (if m <? 10 then "0" ++ decimal m else decimal m).

End Clock.

(** ** [src/utils/helpers.py]: [generate_cache_key] *)

Module Helpers.

Section cache_key.
Context {V : Type}.
(** [repr] of an argument value, [repr] of a [str] key, and
    [hashlib.md5(s.encode()).hexdigest()]. *)
Context (py_repr : V -> string) (repr_str : string -> string)
        (md5_hexdigest : string -> string).

Definition repr_item (kv : string * V) : string :=
  Py.repr_tuple [repr_str kv.1; py_repr kv.2].

(** [generate_cache_key], applied to its positional arguments [args]
    and its keyword arguments [kwargs]. *)
Definition generate_cache_key (args : list V) (kwargs : Py.items V) : string :=
  let key_string :=
    (Py.repr_tuple (map py_repr args) ++ "_" ++
     Py.repr_list (map repr_item (Py.sorted_items kwargs)))%string in
  md5_hexdigest key_string.
End cache_key.

(** *** [load_yaml] and [get_dfw_zip_codes]

    A configuration document, as [yaml.safe_load] returns it for a file
    of the shape [{key: {county: [zip, ...]}}]: a dict from keys to the
    items of a dict from county names to lists of ZIP code strings. *)
Definition yaml_doc : Type := gmap string (list (string * list string)).

Inductive config_error :=
| FileNotFoundError (filepath : string)   (* raised by [open] *)
| KeyError_zip_codes.                     (* raised by the subscript ['zip_codes'] *)

(** [load_yaml(filepath)], over the parsed contents of the files. *)
Definition load_yaml (filepath : string) (fs : gmap string yaml_doc)
    : config_error + yaml_doc :=
  match fs !! filepath with
  | Some doc => inr doc
  | None => inl (FileNotFoundError filepath)
  end.

(** [get_dfw_zip_codes(config_path)]: the loop extends [all_zips] by the
    list of every county; [set] forgets repetitions and [sorted] orders
    the strings. *)
Definition get_dfw_zip_codes (config_path : string) (fs : gmap string yaml_doc)
    : config_error + list string :=
  match load_yaml config_path fs with
  | inl e => inl e
  | inr zip_data =>
      match zip_data !! "zip_codes"%string with
      | None => inl KeyError_zip_codes
      | Some counties =>
          let all_zips :=
            fold_left (fun all_zips county_zips => all_zips ++ county_zips.2)
              counties [] in
          (* Deduplicate and sort *)
          inr (merge_sort String.le (remove_dups all_zips))
      end
  end.

End Helpers.

(** ** Tables: the part of [pandas.DataFrame] that the scraper uses *)

Module Frame.

Section frame.
(** [V]: the non-null values a cell can hold. *)
Context {V : Type} `{EqDecision V}.

(** A cell is a value or null ([NaN], [None], [NaT]); [pandas] treats
    all nulls alike, when it drops them and when it compares keys. *)
Definition cell := option V.
Definition row := list cell.

(** The cells of a row are in the order of the columns. *)
Record DataFrame := {
  columns : list string;
  rows : list row;
}.

(** [len(df)] and [df.empty] *)
Definition len (df : DataFrame) : Z := Z.of_nat (length (rows df)).

Definition empty (df : DataFrame) : bool :=
  match rows df, columns df with
  | [], _ | _, [] => true
  | _, _ => false
  end.

(** Position of the first column of that name. *)
Fixpoint column_index (c : string) (cols : list string) : option nat :=
  match cols with
  | [] => None
  | c' :: cols' =>
      if String.eqb c c' then Some O else S <$> column_index c cols'
  end.

(** [r[c]]: the cell of row [r] in column [c]. *)
Definition at_column (df : DataFrame) (c : string) (r : row) : cell :=
  match column_index c (columns df) with
  | Some i => default None (r !! i)
  | None => None
  end.

(** [duplicated(keep='first')] on one key: a row is dropped when an
    earlier row carries the same key. *)
Fixpoint keep_first (key : row -> cell) (seen : list cell) (rs : list row)
    : list row :=
  match rs with
  | [] => []
  | r :: rs' =>
      if decide (key r ∈ seen) then keep_first key seen rs'
      else r :: keep_first key (key r :: seen) rs'
  end.

Inductive error :=
| ValueError_missing (missing : list string)  (* "Missing required columns: {...}" *)
| KeyError (labels : list string).            (* raised by pandas *)

(** [df.drop_duplicates(subset=['address'], keep='first')]: an empty
    frame is returned as it is; otherwise the subset must name
    columns of the frame. *)
Definition drop_duplicates_address (df : DataFrame) : error + DataFrame :=
  if empty df then inr df
  else if decide ("address"%string ∈ columns df) then
    inr {| columns := columns df;
           rows := keep_first (at_column df "address") [] (rows df) |}
  else inl (KeyError ["address"%string]).

Definition has_null (df : DataFrame) (subset : list string) (r : row) : bool :=
  existsb (fun c => match at_column df c r with None => true | Some _ => false end)
    subset.

(** [df.dropna(subset=...)], every label of the subset being a column. *)
Definition dropna (df : DataFrame) (subset : list string) : error + DataFrame :=
  match filter (fun c => c ∉ columns df) subset with
  | [] => inr {| columns := columns df;
                 rows := List.filter (fun r => negb (has_null df subset r)) (rows df) |}
  | absent => inl (KeyError absent)
  end.

Inductive log :=
| Warning_removed_duplicates (n : Z)
| Info_validated (n_rows n_columns : Z).

(** [BaseScraper.validate_data(df, required_columns)] *)
Definition validate_data (df : DataFrame) (required_columns : list string)
    : (error + DataFrame) * list log :=
  (* Check required columns *)
  let missing := filter (fun c => c ∉ columns df) (remove_dups required_columns) in
  match missing with
  | _ :: _ => (inl (ValueError_missing missing), [])
  | [] =>
      (* Remove duplicates *)
      let initial_count := len df in
      match drop_duplicates_address df with
      | inl e => (inl e, [])
      | inr df1 =>
          let logs1 :=
            if len df1 <? initial_count
            then [Warning_removed_duplicates (initial_count - len df1)]
            else [] in
          (* Remove rows with null required fields *)
          match dropna df1 required_columns with
          | inl e => (inl e, logs1)
          | inr df2 =>
              (inr df2,
               logs1 ++ [Info_validated (len df2)
                           (Z.of_nat (length (columns df2)))])
          end
      end
  end.
(** *** [BaseScraper.filter_geography]

    [as_float] reads a value as a number; coordinates and bounds are
    floats, compared exactly.  A comparison of a column with a bound
    yields false at a null cell and raises [TypeError] when a cell holds
    a value that is no number. *)
Inductive compare_error :=
| TypeError_compare (column : string).

Inductive geo_log :=
| Warning_no_lat_lon
| Info_filtered (filtered_count : Z).

(** The column can be compared with a float. *)
Definition numeric_column (as_float : V -> option Q) (df : DataFrame)
    (c : string) : bool :=
  forallb (fun r => match at_column df c r with
                    | None => true
                    | Some v => match as_float v with
                                | Some _ => true
                                | None => false
                                end
                    end)
    (rows df).

(** [(df[c] >= lo) & (df[c] <= hi)] at one row. *)
Definition between (as_float : V -> option Q) (df : DataFrame) (c : string)
    (lo hi : Q) (r : row) : bool :=
  match at_column df c r with
  | None => false
  | Some v => match as_float v with
              | Some q => Qle_bool lo q && Qle_bool q hi
              | None => false
              end
  end.

Definition filter_geography (as_float : V -> option Q) (df : DataFrame)
    (lat_min lat_max lon_min lon_max : Q)
    : (compare_error + DataFrame) * list geo_log :=
  if decide ("lat"%string ∉ columns df \/ "lon"%string ∉ columns df) then
    (inr df, [Warning_no_lat_lon])
  else if negb (numeric_column as_float df "lat") then
    (inl (TypeError_compare "lat"), [])
  else if negb (numeric_column as_float df "lon") then
    (inl (TypeError_compare "lon"), [])
  else
    let initial_count := len df in
    let df' :=
      {| columns := columns df;
         rows := List.filter
                   (fun r => between as_float df "lat" lat_min lat_max r
                             && between as_float df "lon" lon_min lon_max r)
                   (rows df) |} in
    let filtered_count := initial_count - len df' in
    (inr df',
     if filtered_count >? 0 then [Info_filtered filtered_count] else []).

End frame.

Arguments DataFrame : clear implicits.
Arguments row : clear implicits.
Arguments cell : clear implicits.

End Frame.

(** ** [src/data/scrapers/base_scraper.py]: [BaseScraper] *)

Module Scraper.

Section scraper.
(** [V]: values of keyword arguments; [T]: tables ([pandas.DataFrame]);
    [Raw]: raw responses; [Csv]: contents of a cache file; [Exn]:
    exceptions; [Ext]: the state outside the cache directory that a
    concrete scraper reads and updates (the remote source). *)
Context {V T Raw Csv Exn Ext : Type}.
(** [str] of a value, [hashlib.md5(s.encode()).hexdigest()],
    [DataFrame.to_csv(index=False)] and [pandas.read_csv]. *)
Context (py_str : V -> string) (md5_hexdigest : string -> string)
        (to_csv : T -> Csv) (read_csv : Csv -> Exn + T).

(** A concrete scraper: the attributes set by [BaseScraper.__init__]
    and the two abstract methods that the subclass implements. *)
Record BaseScraper := {
  class_name : string;
  cache_dir : string;
  cache_enabled : bool;
  cache_ttl_days : Z;
  fetch_data : Py.items V -> Ext -> (Exn + Raw) * Ext;
  parse_response : Raw -> Ext -> (Exn + T) * Ext;
}.

Record file := {
  st_mtime : Z;
  content : Csv;
}.

Record world := {
  files : gmap string file;
  ext : Ext;
}.

Inductive event :=
| Exists (path : string)       (* cache_file.exists() *)
| Stat (path : string)         (* cache_file.stat() *)
| Read (path : string)         (* pd.read_csv(cache_file) *)
| Write (path : string)        (* data.to_csv(cache_file) *)
| Fetch (kwargs : Py.items V)  (* self.fetch_data(kwargs) *)
| Parse                        (* self.parse_response(raw_response) *)
| Log_cache_miss (cache_key : string)
| Log_cache_stale (file_age_days : Z) (cache_key : string)
| Log_cache_hit (file_age_days : Z) (cache_key : string)
| Log_saved (cache_key : string)
| Log_fetching (kwargs : Py.items V).

(** The three readings of the clock that one [scrape] call can make:
    in [generate_cache_key], in [get_cached_data], and the
    modification time that the file system gives a file written by
    [save_to_cache]. *)
Record clock := {
  at_key : Z;
  at_check : Z;
  at_write : Z;
}.

(** [self.cache_dir / f"{cache_key}.csv"] *)
Definition cache_file (sc : BaseScraper) (cache_key : string) : string :=
  (cache_dir sc ++ "/" ++ cache_key ++ ".csv")%string.

(** [BaseScraper.generate_cache_key] *)
Definition generate_cache_key (sc : BaseScraper) (now : Z)
    (kwargs : Py.items V) : string :=
  (* Sort kwargs for consistent hashing *)
  let key_string :=
    String.concat "_"
      (map (fun kv => (kv.1 ++ "=" ++ py_str kv.2)%string)
           (Py.sorted_items kwargs)) in
  let key_hash := String.substring 0 12 (md5_hexdigest key_string) in
  (* Include timestamp for readability *)
  let timestamp := Clock.strftime_Ym now in
  (Py.lower (class_name sc) ++ "_" ++ timestamp ++ "_" ++ key_hash)%string.

(** [BaseScraper.get_cached_data] *)
Definition get_cached_data (sc : BaseScraper) (cache_key : string)
    (now : Z) (fs : gmap string file) : (Exn + option T) * list event :=
  if negb (cache_enabled sc) then (inr None, [])
  else
    let path := cache_file sc cache_key in
    match fs !! path with
    | None => (inr None, [Exists path; Log_cache_miss cache_key])
    | Some f =>
        (* Check if cache is stale *)
        let file_age_days := Clock.timedelta_days now (st_mtime f) in
        if file_age_days >? cache_ttl_days sc then
          (inr None,
           [Exists path; Stat path; Log_cache_stale file_age_days cache_key])
        else
          (match read_csv (content f) with
           | inl e => inl e            (* the parse error propagates *)
           | inr t => inr (Some t)
           end,
           [Exists path; Stat path; Log_cache_hit file_age_days cache_key;
            Read path])
    end.

(** [BaseScraper.save_to_cache] *)
Definition save_to_cache (sc : BaseScraper) (data : T) (cache_key : string)
    (now : Z) (fs : gmap string file) : gmap string file * list event :=
  if negb (cache_enabled sc) then (fs, [])
  else
    let path := cache_file sc cache_key in
    (<[path := {| st_mtime := now; content := to_csv data |}]> fs,
     [Write path; Log_saved cache_key]).

(** [BaseScraper.scrape] *)
Definition scrape (sc : BaseScraper) (use_cache : bool)
    (kwargs : Py.items V) (clk : clock) (w : world)
    : (Exn + T) * world * list event :=
  (* Generate cache key *)
  let cache_key := generate_cache_key sc (at_key clk) kwargs in
  (* Check cache *)
  let '(cached, tr0) :=
    if use_cache then get_cached_data sc cache_key (at_check clk) (files w)
    else (inr None, []) in
  match cached with
  | inl e => (inl e, w, tr0)
  | inr (Some t) => (inr t, w, tr0)
  | inr None =>
      (* Fetch fresh data *)
      let tr1 := tr0 ++ [Log_fetching kwargs; Fetch kwargs] in
      match fetch_data sc kwargs (ext w) with
      | (inl e, ext1) => (inl e, {| files := files w; ext := ext1 |}, tr1)
      | (inr raw_response, ext1) =>
          (* Parse response *)
          match parse_response sc raw_response ext1 with
          | (inl e, ext2) =>
              (inl e, {| files := files w; ext := ext2 |}, tr1 ++ [Parse])
          | (inr df, ext2) =>
              (* Save to cache *)
              let '(fs', tr2) :=
                save_to_cache sc df cache_key (at_write clk) (files w) in
              (inr df, {| files := fs'; ext := ext2 |}, tr1 ++ [Parse] ++ tr2)
          end
      end
  end.

(** Observations on a trace. *)
Definition is_fetch (ev : event) : bool :=
  match ev with Fetch _ => true | _ => false end.


Definition fetch_count (tr : list event) : nat :=
  length (List.filter is_fetch tr).

(** The cache holds a fresh entry under [cache_key]: the file exists
    and its age in whole days is at most the time-to-live. *)
Definition fresh (sc : BaseScraper) (cache_key : string) (now : Z)
    (fs : gmap string file) : Prop :=
  exists f, fs !! cache_file sc cache_key = Some f /\
            Clock.timedelta_days now (st_mtime f) <= cache_ttl_days sc.

(** What [get_cached_data] makes of the outcome of [pd.read_csv]. *)
Definition cached (r : Exn + T) : Exn + option T :=
  match r with
  | inl e => inl e
  | inr t => inr (Some t)
  end.
End scraper.

Arguments BaseScraper : clear implicits.
Arguments file : clear implicits.
Arguments world : clear implicits.
Arguments event : clear implicits.

End Scraper.

(** ** Runs of a callable under the retry decorator *)

Module RetryRuns.
Import Retry.

Section runs.
Context {A NetExn OtherExn St : Type}.

(** [net_failures func s es s']: from the state [s], the next
    invocations of [func] raise the network errors [es], one after the
    other, and leave the state [s']. *)
Inductive net_failures (func : callable A NetExn OtherExn St)
    : St -> list NetExn -> St -> Prop :=
| net_failures_nil s : net_failures func s [] s
| net_failures_cons s e s1 es s' :
    func s = (Raise (RequestException e), s1) ->
    net_failures func s1 es s' ->
    net_failures func s (e :: es) s'.

(** An outcome that ends the loop: a value, or an exception that is not
    a network error. *)
Definition is_final (r : outcome A NetExn OtherExn) : bool :=
  match r with
  | Return _ => true
  | Raise x => negb (is_request_exception x)
  end.

(** The delays [backoff_factor ** attempt] of the attempts [0 .. n-1]. *)
Definition backoff_delays (backoff_factor : Q) (n : Z) : list Q :=
  map (Qpower backoff_factor) (seqZ 0 n).
End runs.

End RetryRuns.

(** ** The retry decorator and the errors of [time.sleep] *)

(** [time.sleep(delay)] is called inside the [except] clause, so an
    exception it raises (a [ValueError] for a negative delay, which a
    negative [backoff_factor] gives at every odd attempt) is not caught
    by the clause: it ends the wrapper.  [Retry.attempt_loop] is the loop
    for delays that [time.sleep] accepts; here the sleep can refuse. *)

Module RetrySleep.
Import Retry.

Section retry.
Context {A NetExn OtherExn St : Type}.

(** [time.sleep]: [None] when it sleeps for the delay, [Some x] when it
    raises [x] instead.  Which delays it refuses is left to the library:
    negative ones, and those too large for its timer. *)
Context (time_sleep : Q -> option OtherExn).

Definition refused (delay : Q) : bool :=
  match time_sleep delay with Some _ => true | None => false end.

Fixpoint attempt_loop (func : callable A NetExn OtherExn St) (max_retries : Z)
    (backoff_factor : Q) (attempts : list Z) (last_exception : option NetExn)
    (s : St) : outcome A NetExn OtherExn * list (event A NetExn OtherExn) * St :=
  match attempts with
  | [] =>
      (* All retries exhausted *)
      match last_exception with
      | Some e => (Raise (RequestException e), [], s)
      | None => (Raise TypeError_raise_None, [], s)
      end
  | attempt :: rest =>
      match func s with
      | (Return a, s1) => (Return a, [Call (Return a)], s1)
      | (Raise (RequestException e), s1) =>
          if attempt <? max_retries then
            let delay := Qpower backoff_factor attempt in
            match time_sleep delay with
            | Some x =>
                (* raised in the handler: nothing catches it *)
                (Raise (OtherException x),
                 [Call (Raise (RequestException e));
                  LogWarning attempt e delay; Sleep delay], s1)
            | None =>
                let '(res, tr, s2) :=
                  attempt_loop func max_retries backoff_factor rest (Some e) s1 in
                (res, Call (Raise (RequestException e))
                        :: LogWarning attempt e delay :: Sleep delay :: tr, s2)
            end
          else
            let '(res, tr, s2) :=
              attempt_loop func max_retries backoff_factor rest (Some e) s1 in
            (res, Call (Raise (RequestException e)) :: LogError :: tr, s2)
      | (Raise x, s1) => (Raise x, [Call (Raise x)], s1)
      end
  end.

Definition retry_on_failure (max_retries : Z) (backoff_factor : Q)
    (func : callable A NetExn OtherExn St) (s : St)
    : outcome A NetExn OtherExn * list (event A NetExn OtherExn) * St :=
  attempt_loop func max_retries backoff_factor
    (seqZ 0 (max_retries + 1)) None s.

End retry.

End RetrySleep.

(** ** HTTP session manager ([src/data/scrapers/utils.py], [SessionManager]) *)

Module Session.
Import Retry.

Section session.
(** [V]: values of request options; [Body]: what a response carries;
    [TransportExn]: the network errors that [requests] raises while
    sending (connection, timeout, ...); [OtherExn]: any other exception;
    [Net]: the state of the connection pool and of the remote hosts. *)
Context {V Body TransportExn OtherExn Net : Type}.

Record response := {
  status_code : Z;
  body : Body;
}.

(** The instances of [requests.exceptions.RequestException] that [get]
    can meet: an error while sending, or the [HTTPError] of
    [raise_for_status], which carries the response. *)
Inductive request_exception :=
| Transport (e : TransportExn)
| HTTPError (resp : response).

(** How [self.session.get(url, ...)] ends. *)
Inductive sent :=
| Response (resp : response)
| Failed (e : TransportExn)
| Crashed (x : OtherExn).

(** [self.session.get]: the network, given the URL and the options. *)
Context (session_get : string -> Py.items V -> Net -> sent * Net).

Record SessionManager := {
  timeout : V;
  user_agent : string;
}.

Definition default_user_agent : string :=
  "Mozilla/5.0 (Windows NT 10.0; Win64; x64) AppleWebKit/537.36 (KHTML, like Gecko) Chrome/120.0.0.0 Safari/537.36".

(** [SessionManager.__init__], as far as [get] depends on it. *)
Definition init (user_agent : option string) (timeout : V) : SessionManager :=
  {| timeout := timeout;
     user_agent := match user_agent with
                   | Some ua => ua
                   | None => default_user_agent
                   end |}.

(** [kwargs.setdefault(key, v)] on the items of a dict. *)
Definition setdefault (key : string) (v : V) (kwargs : Py.items V) : Py.items V :=
  if decide (key ∈ kwargs.*1) then kwargs else kwargs ++ [(key, v)].

(** [Response.raise_for_status]: client errors are the statuses from 400
    to 499, server errors those from 500 to 599. *)
Definition raise_for_status (resp : response) : option request_exception :=
  if ((400 <=? status_code resp) && (status_code resp <? 500))%bool
  then Some (HTTPError resp)
  else if ((500 <=? status_code resp) && (status_code resp <? 600))%bool
  then Some (HTTPError resp)
  else None.

(** The body of [SessionManager.get], the method that the decorator
    wraps. *)
Definition get_once (self : SessionManager) (url : string)
    (kwargs : Py.items V) : callable response request_exception OtherExn Net :=
  fun net =>
    let kwargs := setdefault "timeout" (timeout self) kwargs in
    match session_get url kwargs net with
    | (Response resp, net1) =>
        match raise_for_status resp with
        | Some e => (Raise (RequestException e), net1)
        | None => (Return resp, net1)
        end
    | (Failed e, net1) => (Raise (RequestException (Transport e)), net1)
    | (Crashed x, net1) => (Raise (OtherException x), net1)
    end.

(** [SessionManager.get], decorated with [retry_on_failure(max_retries=3)]
    and the default [backoff_factor] of 2.0. *)
Definition get (self : SessionManager) (url : string) (kwargs : Py.items V)
    (net : Net)
    : outcome response request_exception OtherExn
      * list (event response request_exception OtherExn) * Net :=
  retry_on_failure 3 2 (get_once self url kwargs) net.
End session.

Arguments response : clear implicits.
Arguments request_exception : clear implicits.
Arguments sent : clear implicits.
Arguments SessionManager : clear implicits.

End Session.

(** ** Text helpers ([src/data/scrapers/utils.py]: [validate_url],
    [sanitize_text]) *)

Module Text.

(** [url.startswith(prefix)] *)
Fixpoint startswith (prefix s : string) : bool :=
  match prefix, s with
  | EmptyString, _ => true
  | String _ _, EmptyString => false
  | String a prefix', String b s' => Ascii.eqb a b && startswith prefix' s'
  end.

(** [validate_url] *)
Definition validate_url (url : string) : bool :=
  if String.eqb url "" then false
  else if negb (startswith "http://" url || startswith "https://" url) then false
  else true.

(** [str.isspace] on ASCII: tab, line feed, vertical tab, form feed,
    carriage return, the four separators 28 to 31, and the space. *)
Definition isspace (c : ascii) : bool :=
  let n := nat_of_ascii c in
  ((9 <=? n)%nat && (n <=? 13)%nat) || ((28 <=? n)%nat && (n <=? 32)%nat).

Definition starts_word (s : string) : bool :=
  match s with
  | String c _ => negb (isspace c)
  | EmptyString => false
  end.

(** [text.split()]: the maximal runs of characters that are not
    whitespace. *)
Fixpoint split (s : string) : list string :=
  match s with
  | EmptyString => []
  | String c s' =>
      if isspace c then split s'
      else if starts_word s' then
        match split s' with
        | w :: ws => String c w :: ws
        | [] => [String c EmptyString]
        end
      else String c EmptyString :: split s'
  end.

(** [text.strip()] *)
Fixpoint lstrip (s : string) : string :=
  match s with
  | String c s' => if isspace c then lstrip s' else s
  | EmptyString => EmptyString
  end.

Fixpoint rstrip (s : string) : string :=
  match s with
  | EmptyString => EmptyString
  | String c s' =>
      match rstrip s' with
      | EmptyString => if isspace c then EmptyString else String c EmptyString
      | r => String c r
      end
  end.

Definition strip (s : string) : string := rstrip (lstrip s).

(** [sanitize_text] *)
Definition sanitize_text (text : string) : string :=
  if String.eqb text "" then EmptyString
  else
    (* Remove extra whitespace *)
    let text := String.concat " " (split text) in
    (* Remove special characters (keep basic punctuation) *)
    strip text.

(** A word: not empty, and free of whitespace. *)
Fixpoint no_space (s : string) : bool :=
  match s with
  | EmptyString => true
  | String c s' => negb (isspace c) && no_space s'
  end.

Definition is_word (w : string) : bool :=
  match w with
  | EmptyString => false
  | String _ _ => no_space w
  end.

(** The last character is not whitespace. *)
Fixpoint ends_word (s : string) : bool :=
  match s with
  | EmptyString => false
  | String c s' =>
      match s' with
      | EmptyString => negb (isspace c)
      | String _ _ => ends_word s'
      end
  end.

(** Tidy text: the only whitespace is the single space, and every space
    stands between two characters that are not whitespace. *)
Fixpoint tidy_after (after_char : bool) (s : string) : bool :=
  match s with
  | EmptyString => after_char
  | String c s' =>
      if isspace c
      then Ascii.eqb c " " && after_char && tidy_after false s'
      else tidy_after true s'
  end.

Definition tidy (s : string) : bool :=
  match s with
  | EmptyString => true
  | String _ _ => tidy_after false s
  end.

End Text.

(** ** Logger factory and the file system ([src/utils/logger.py]) *)

(** [log_path.parent.mkdir(parents=True, exist_ok=True)] and
    [RotatingFileHandler(...)], which opens the log file at once, raise
    [OSError] when the file system refuses; both run after the console
    handler has been attached to the logger.  [Logger.setup_logger] is
    the function on a file system that grants both requests; here the
    file system can refuse either. *)

Module LoggerIO.
Import Logger.

Record file_system := {
  mkdir_ok : string -> bool;   (* the directory exists or can be created *)
  open_ok : string -> bool;    (* the file can be opened for appending *)
}.

Inductive exn :=
| LevelError    (* AttributeError / ValueError / TypeError from the level *)
| OSError.      (* from [mkdir] or from opening the log file *)

Inductive result :=
| Returned (key : string)     (* the logger registered under [key] *)
| Raised (e : exn).

(** [setup_logger(name, log_file, level, max_bytes, backup_count)] *)
Definition setup_logger (name : string) (log_file : option string)
    (level : string) (max_bytes backup_count : Z) (fs : file_system)
    (w : world) : result * world :=
  let key := logger_key name in
  let '(logger0, w1) := getLogger name w in
  match logging_level (upper level) with
  | None => (Raised LevelError, w1)
  | Some lv =>
      let logger1 := setLevel lv logger0 in
      (* Avoid duplicate handlers *)
      match handlers logger1 with
      | _ :: _ =>
          (Returned key,
           {| loggers := <[key := logger1]> (loggers w1);
              made_dirs := made_dirs w1 |})
      | [] =>
          (* Console handler (stdout) *)
          let logger2 := addHandler StreamHandler_stdout logger1 in
          let w2 := {| loggers := <[key := logger2]> (loggers w1);
                       made_dirs := made_dirs w1 |} in
          (* File handler (if specified) *)
          match log_file with
          | Some path =>
              if String.eqb path "" then (Returned key, w2)
              else if mkdir_ok fs (parent path) then
                let w3 := {| loggers := loggers w2;
                             made_dirs := made_dirs w2 ++ [parent path] |} in
                if open_ok fs path then
                  let logger3 :=
                    addHandler (RotatingFileHandler path max_bytes backup_count)
                      logger2 in
                  (Returned key,
                   {| loggers := <[key := logger3]> (loggers w3);
                      made_dirs := made_dirs w3 |})
                else (Raised OSError, w3)
              else (Raised OSError, w2)
          | None => (Returned key, w2)
          end
      end
  end.

(** [get_logger(name)]: [environ] is the process environment after
    [load_dotenv()] has merged the [.env] file into it. *)
Definition get_logger (name : string) (environ : gmap string string)
    (fs : file_system) (w : world) : result * world :=
  let log_level := default "INFO"%string (environ !! "LOG_LEVEL"%string) in
  let log_file := default "logs/avm.log"%string (environ !! "LOG_FILE"%string) in
  setup_logger name (Some log_file) log_level 10485760 5 fs w.

End LoggerIO.

(** ** Concrete inputs

    The callables, limiters, loggers, tables and scrapers at which the
    properties below are evaluated. *)

Module Scenario.

(** *** Callables for the retry decorator: results are integers, a
    network error carries the number of the call that raised it, any
    other exception its class name, and the state counts the calls. *)

Definition always_timeout : Retry.callable Z nat string nat :=
  fun n => (Retry.Raise (Retry.RequestException n), S n).

Definition raises_value_error : Retry.callable Z nat string nat :=
  fun n => (Retry.Raise (Retry.OtherException "ValueError"%string), S n).

(** Two timeouts, then the answer. *)
Definition flaky : Retry.callable Z nat string nat :=
  fun n => if (n <? 2)%nat
           then (Retry.Raise (Retry.RequestException n), S n)
           else (Retry.Return 42, S n).

(** *** A rate limiter with the default delays and two calls in a row:
    the samples are a half and a quarter, nothing else takes time. *)

Definition default_limiter : RateLimiter.t := RateLimiter.init 2 4.

Definition two_waits : list RateLimiter.env :=
  [ {| RateLimiter.elapsed_before := 0; RateLimiter.sample := 1 # 2;
       RateLimiter.oversleep := 0; RateLimiter.elapsed_after := 0 |};
    {| RateLimiter.elapsed_before := 1; RateLimiter.sample := 1 # 4;
       RateLimiter.oversleep := 0; RateLimiter.elapsed_after := 0 |} ].

(** *** A registry in which the logger [app] is configured at INFO. *)

Definition app_logger : Logger.logger :=
  {| Logger.level := Logger.INFO;
     Logger.handlers := [Logger.StreamHandler_stdout];
     Logger.propagate := true; Logger.disabled := false |}.

Definition configured : Logger.world :=
  {| Logger.loggers := {[ "app"%string := app_logger ]};
     Logger.made_dirs := [] |}.

(** *** Keyword arguments [a=1, b=2], in both orders; integers print in
    decimal, a key prints between quotes, and the digest of the examples
    is the identity (the properties hold for every digest). *)

Definition a1_b2 : Py.items Z := [("a"%string, 1); ("b"%string, 2)].
Definition b2_a1 : Py.items Z := [("b"%string, 2); ("a"%string, 1)].

Definition repr_key (k : string) : string := ("'" ++ k ++ "'")%string.
Definition digest (s : string) : string := s.

(** *** Tables of strings. *)

Definition listings : Frame.DataFrame string :=
  {| Frame.columns := ["address"; "price"]%string;
     Frame.rows := [[Some "123 Main St"; Some "450000"];
                    [Some "123 Main St"; Some "455000"];
                    [Some "9 Elm Ave"; Some "310000"]]%string |}.

(** The first of the two rows of an address lacks its price. *)
Definition first_lacks_price : Frame.DataFrame string :=
  {| Frame.columns := ["address"; "price"]%string;
     Frame.rows := [[Some "123 Main St"; None];
                    [Some "123 Main St"; Some "455000"]]%string |}.

Definition prices_only : Frame.DataFrame string :=
  {| Frame.columns := ["price"]%string;
     Frame.rows := [[Some "450000"]]%string |}.

(** *** A concrete scraper: every fetch succeeds and is counted by the
    remote source, every response parses to [listings], and a table is
    stored in a cache file as it is. *)

Definition RedfinScraper (cache_enabled : bool) (cache_ttl_days : Z)
    : Scraper.BaseScraper Z (Frame.DataFrame string) string string nat :=
  {| Scraper.class_name := "RedfinScraper";
     Scraper.cache_dir := "data/raw";
     Scraper.cache_enabled := cache_enabled;
     Scraper.cache_ttl_days := cache_ttl_days;
     Scraper.fetch_data := fun _ served => (inr "<html>"%string, S served);
     Scraper.parse_response := fun _ served => (inr listings, served) |}.

Definition to_csv (df : Frame.DataFrame string) : Frame.DataFrame string := df.
Definition read_csv (csv : Frame.DataFrame string)
    : string + Frame.DataFrame string := inr csv.

Definition zip_75201 : Py.items Z := [("zip_code"%string, 75201)].

(** Midnight of day [d], and a call that reads the clock then. *)
Definition midnight (d : Z) : Z := d * Clock.usec_per_day.

Definition call_on (d : Z) : Scraper.clock :=
  {| Scraper.at_key := midnight d; Scraper.at_check := midnight d;
     Scraper.at_write := midnight d |}.

(** 2026-11-01 is day 20758. *)
Definition nov_1 : Z := 20758.

Definition empty_cache : Scraper.world (Frame.DataFrame string) nat :=
  {| Scraper.files := ∅; Scraper.ext := O |}.

(** A cache that holds one file, written on 2026-11-01. *)
Definition one_file (sc : Scraper.BaseScraper Z (Frame.DataFrame string) string string nat)
    : gmap string (Scraper.file (Frame.DataFrame string)) :=
  {[ Scraper.cache_file sc "k" :=
       {| Scraper.st_mtime := midnight nov_1; Scraper.content := listings |} ]}.

End Scenario.

(** ** More concrete inputs *)

Module Scenario2.

(** *** Hosts for the session manager: options are integers, bodies and
    exceptions are strings, and the state of the network counts the
    requests it has served. *)

Definition always_503 (url : string) (kwargs : Py.items Z) (served : nat)
    : Session.sent string string string * nat :=
  (Session.Response {| Session.status_code := 503; Session.body := ""%string |},
   S served).

Definition always_200 (url : string) (kwargs : Py.items Z) (served : nat)
    : Session.sent string string string * nat :=
  (Session.Response {| Session.status_code := 200;
                       Session.body := "<html>"%string |},
   S served).

Definition manager : Session.SessionManager Z := Session.init None 10.

(** *** File systems for the logger: one that grants every request,
    one on which no directory can be made, one on which directories can
    be made and no file opened. *)

Definition writable : LoggerIO.file_system :=
  {| LoggerIO.mkdir_ok := fun _ => true; LoggerIO.open_ok := fun _ => true |}.

Definition read_only : LoggerIO.file_system :=
  {| LoggerIO.mkdir_ok := fun _ => false; LoggerIO.open_ok := fun _ => false |}.

Definition no_files : LoggerIO.file_system :=
  {| LoggerIO.mkdir_ok := fun _ => true; LoggerIO.open_ok := fun _ => false |}.

(** *** [time.sleep] for the callables of [Scenario]: a negative delay
    is a [ValueError]. *)

Definition time_sleep (delay : Q) : option string :=
  if Qle_bool 0 delay then None else Some "ValueError"%string.

(** *** A table with coordinates: a cell holds a string or a number. *)

Inductive value :=
| Str (s : string)
| Num (q : Q).

#[export] Instance Q_eq_dec : EqDecision Q.
Proof. solve_decision. Defined.

#[export] Instance value_eq_dec : EqDecision value.
Proof. solve_decision. Defined.

Definition as_float (v : value) : option Q :=
  match v with
  | Num q => Some q
  | Str _ => None
  end.

(** One listing in Dallas, one far north, one without latitude. *)
Definition located : Frame.DataFrame value :=
  {| Frame.columns := ["address"; "lat"; "lon"]%string;
     Frame.rows := [[Some (Str "123 Main St"); Some (Num (164 # 5)); Some (Num (-97))];
                    [Some (Str "1 Far Rd"); Some (Num 40); Some (Num (-97))];
                    [Some (Str "9 Elm Ave"); None; Some (Num (-971 # 10))]] |}.

Definition in_dallas : Frame.DataFrame value :=
  {| Frame.columns := ["address"; "lat"; "lon"]%string;
     Frame.rows := [[Some (Str "123 Main St"); Some (Num (164 # 5)); Some (Num (-97))]] |}.

(** The bounds of [validate_coordinates]: 32.5 to 33.2 and -97.5 to -96.8. *)
Definition LAT_MIN : Q := 65 # 2.
Definition LAT_MAX : Q := 166 # 5.
Definition LON_MIN : Q := -195 # 2.
Definition LON_MAX : Q := -484 # 5.

(** *** A ZIP code document with a code listed under two counties. *)

Definition dfw_zips : Helpers.yaml_doc :=
  {[ "zip_codes"%string :=
       [("dallas"%string, ["75201"; "75001"]%string);
        ("tarrant"%string, ["76101"; "75001"]%string)] ]}.

Definition dfw_zips_regrouped : Helpers.yaml_doc :=
  {[ "zip_codes"%string :=
       [("all"%string, ["76101"; "75201"; "75001"; "75201"]%string)] ]}.

Definition config_files : gmap string Helpers.yaml_doc :=
  {[ "config/dfw_zips.yaml"%string := dfw_zips;
     "config/regrouped.yaml"%string := dfw_zips_regrouped ]}.

(** *** A scraper whose source is down: every fetch raises. *)


(** The cache after [RedfinScraper] has scraped [zip_75201] on 2026-11-01. *)
Definition warm_cache : Scraper.world (Frame.DataFrame string) nat :=
  (Scraper.scrape Clock.decimal Scenario.digest Scenario.to_csv Scenario.read_csv
     (Scenario.RedfinScraper true 7) true Scenario.zip_75201
     (Scenario.call_on Scenario.nov_1) Scenario.empty_cache).1.2.

End Scenario2.

(** * Properties *)

(** ** Retry decorator *)

Module RetryFacts.
Import Retry.

Section facts.
Context {A NetExn OtherExn St : Type}.
Implicit Types (func : callable A NetExn OtherExn St) (s : St).
Implicit Types (tr : list (event A NetExn OtherExn)).

Lemma calls_cons_call r tr : calls (Call r :: tr) = r :: calls tr.
Proof. reflexivity. Qed.

(** One pass of the loop whose call raises a network error. *)
Lemma attempt_loop_net func max_retries bf attempt rest last s e s1 :
  func s = (Raise (RequestException e), s1) ->
  exists res tr s2,
    attempt_loop func max_retries bf rest (Some e) s1 = (res, tr, s2) /\
    exists pre,
      attempt_loop func max_retries bf (attempt :: rest) last s
        = (res, Call (Raise (RequestException e)) :: pre ++ tr, s2) /\
      calls pre = [] /\
      sleeps pre = if attempt <? max_retries
                   then [Qpower bf attempt] else [].
Proof.
  intros Hf.
  destruct (attempt_loop func max_retries bf rest (Some e) s1)
    as [[res tr] s2] eqn:Hrest.
  exists res, tr, s2. split; [reflexivity|].
  cbn [attempt_loop]. rewrite Hf, Hrest.
  destruct (attempt <? max_retries).
  - exists [LogWarning attempt e (Qpower bf attempt); Sleep (Qpower bf attempt)].
    auto.
  - exists [LogError]. auto.
Qed.

(** A call that raises anything else ends the loop at once. *)
Lemma attempt_loop_other func max_retries bf attempt rest last s x s1 :
  func s = (Raise x, s1) ->
  is_request_exception x = false ->
  attempt_loop func max_retries bf (attempt :: rest) last s
    = (Raise x, [Call (Raise x)], s1).
Proof.
  intros Hf Hx. cbn [attempt_loop]. rewrite Hf.
  destruct x; [discriminate Hx | reflexivity | reflexivity].
Qed.

Lemma attempt_loop_return func max_retries bf attempt rest last s a s1 :
  func s = (Return a, s1) ->
  attempt_loop func max_retries bf (attempt :: rest) last s
    = (Return a, [Call (Return a)], s1).
Proof. intros Hf. cbn [attempt_loop]. now rewrite Hf. Qed.

(** The first call decides when it does not raise a network error. *)
Lemma attempt_loop_first_other func max_retries bf attempts last s res tr s' x :
  attempt_loop func max_retries bf attempts last s = (res, tr, s') ->
  head (calls tr) = Some (Raise x) ->
  is_request_exception x = false ->
  res = Raise x /\ tr = [Call (Raise x)].
Proof.
  intros Hrun Hhd Hx. destruct attempts as [|attempt rest].
  - cbn in Hrun. destruct last; inversion Hrun; subst; discriminate Hhd.
  - destruct (func s) as [[a|y] s1] eqn:Hf.
    + rewrite (attempt_loop_return _ _ _ _ _ _ _ _ _ Hf) in Hrun.
      inversion Hrun; subst. discriminate Hhd.
    + destruct (is_request_exception y) eqn:Hy.
      * destruct y as [e| |]; try discriminate Hy.
        destruct (attempt_loop_net func max_retries bf attempt rest last _ _ _ Hf)
          as (res1 & tr1 & s2 & _ & pre & Hrun' & _).
        rewrite Hrun' in Hrun. inversion Hrun; subst.
        rewrite calls_cons_call in Hhd. cbn in Hhd.
        inversion Hhd; subst. discriminate Hx.
      * rewrite (attempt_loop_other _ _ _ _ _ _ _ _ _ Hf Hy) in Hrun.
        inversion Hrun; subst. cbn in Hhd. inversion Hhd; subst. auto.
Qed.

(** A value returned by a call is what the loop returns. *)
Lemma attempt_loop_returned func max_retries bf attempts :
  forall last s res tr s' a,
    attempt_loop func max_retries bf attempts last s = (res, tr, s') ->
    In (Call (Return a)) tr ->
    res = Return a.
Proof.
  induction attempts as [|attempt rest IH]; intros last s res tr s' a Hrun Hin.
  - cbn in Hrun. destruct last; inversion Hrun; subst; destruct Hin.
  - destruct (func s) as [[b|y] s1] eqn:Hf.
    + rewrite (attempt_loop_return _ _ _ _ _ _ _ _ _ Hf) in Hrun.
      inversion Hrun; subst. destruct Hin as [Heq|[]]. congruence.
    + destruct (is_request_exception y) eqn:Hy.
      * destruct y as [e| |]; try discriminate Hy.
        destruct (attempt_loop_net func max_retries bf attempt rest last _ _ _ Hf)
          as (res1 & tr1 & s2 & Hrest & pre & Hrun' & Hpre & _).
        rewrite Hrun' in Hrun. inversion Hrun; subst.
        destruct Hin as [Heq|Hin]; [discriminate Heq|].
        apply in_app_or in Hin. destruct Hin as [Hin|Hin].
        -- exfalso. assert (Hc : In (Return a) (calls pre)).
           { unfold calls. apply list_elem_of_In, list_elem_of_omap.
             exists (Call (Return a)). split; [|reflexivity].
             now apply list_elem_of_In. }
           rewrite Hpre in Hc. destruct Hc.
        -- eapply IH; eauto.
      * rewrite (attempt_loop_other _ _ _ _ _ _ _ _ _ Hf Hy) in Hrun.
        inversion Hrun; subst. destruct Hin as [Heq|[]]. discriminate Heq.
Qed.

(** C2 (retry exhaustion). A callable that raises a network error at
    every invocation, wrapped with [max_retries = 3], is invoked
    exactly four times; the wrapper sleeps before each of the three
    retries and then raises the network error of the fourth, last
    invocation, the very exception that the callable raised. *)
Theorem retry_exhaustion_four_calls func bf s :
  (forall s0, exists e s1, func s0 = (Raise (RequestException e), s1)) ->
  exists e1 e2 e3 e4 s1 s2 s3 s4 tr,
    func s = (Raise (RequestException e1), s1) /\
    func s1 = (Raise (RequestException e2), s2) /\
    func s2 = (Raise (RequestException e3), s3) /\
    func s3 = (Raise (RequestException e4), s4) /\
    retry_on_failure 3 bf func s = (Raise (RequestException e4), tr, s4) /\
    calls tr = [Raise (RequestException e1); Raise (RequestException e2);
                Raise (RequestException e3); Raise (RequestException e4)] /\
    length (calls tr) = 4%nat /\
    sleeps tr = [Qpower bf 0; Qpower bf 1; Qpower bf 2].
Proof.
  intros Hnet.
  destruct (Hnet s) as (e1 & s1 & H1).
  destruct (Hnet s1) as (e2 & s2 & H2).
  destruct (Hnet s2) as (e3 & s3 & H3).
  destruct (Hnet s3) as (e4 & s4 & H4).
  exists e1, e2, e3, e4, s1, s2, s3, s4.
  eexists. repeat (split; [eassumption|]).
  unfold retry_on_failure.
  change (seqZ 0 (3 + 1)) with [0; 1; 2; 3].
  cbn [attempt_loop]. rewrite H1. cbn [Z.ltb Z.compare].
  cbn [attempt_loop]. rewrite H2. cbn [Z.ltb Z.compare Pos.compare Pos.compare_cont].
  cbn [attempt_loop]. rewrite H3. cbn [Z.ltb Z.compare Pos.compare Pos.compare_cont].
  cbn [attempt_loop]. rewrite H4. cbn [Z.ltb Z.compare Pos.compare Pos.compare_cont].
  split; [reflexivity|]. split; [reflexivity|]. split; reflexivity.
Qed.

(** In terms of the callable: as soon as one attempt is made, a first
    call that raises anything but a network error is the only call. *)
Lemma retry_first_call_other max_retries bf func s x s1 :
  0 <= max_retries ->
  func s = (Raise x, s1) ->
  is_request_exception x = false ->
  retry_on_failure max_retries bf func s = (Raise x, [Call (Raise x)], s1).
Proof.
  intros Hmax Hf Hx. unfold retry_on_failure.
  rewrite seqZ_cons by lia.
  now apply attempt_loop_other.
Qed.

(** C3 (transparency). Whatever [max_retries] and [backoff_factor]:
    when the first invocation of the callable raises an exception
    that is not a network error, the wrapper raises that exception,
    having invoked the callable once and slept never; and a value
    returned by any invocation is the value the wrapper returns. *)
Theorem retry_propagates_and_returns max_retries bf func s res tr s' :
  retry_on_failure max_retries bf func s = (res, tr, s') ->
  (forall x, head (calls tr) = Some (Raise x) ->
             is_request_exception x = false ->
             res = Raise x /\ calls tr = [Raise x] /\ sleeps tr = []) /\
  (forall a, In (Return a) (calls tr) -> res = Return a).
Proof.
  unfold retry_on_failure. intros Hrun. split.
  - intros x Hhd Hx.
    destruct (attempt_loop_first_other _ _ _ _ _ _ _ _ _ _ Hrun Hhd Hx)
      as [-> ->].
    auto.
  - intros a Hin. eapply attempt_loop_returned; [exact Hrun|].
    unfold calls in Hin. apply list_elem_of_In, list_elem_of_omap in Hin.
    destruct Hin as (ev & Hev & Hcall).
    destruct ev; try discriminate Hcall. inversion Hcall; subst.
    now apply list_elem_of_In.
Qed.
(** *** Runs of any length *)

Import RetryRuns.

Lemma calls_app tr1 tr2 : calls (tr1 ++ tr2) = calls tr1 ++ calls tr2.
Proof. unfold calls. apply omap_app. Qed.

Lemma sleeps_app tr1 tr2 : sleeps (tr1 ++ tr2) = sleeps tr1 ++ sleeps tr2.
Proof. unfold sleeps. apply omap_app. Qed.

Lemma attempt_loop_final func max_retries bf attempt rest prev s r s1 :
  func s = (r, s1) ->
  is_final r = true ->
  attempt_loop func max_retries bf (attempt :: rest) prev s = (r, [Call r], s1).
Proof.
  intros Hf Hr. destruct r as [a|x].
  - now apply attempt_loop_return.
  - apply attempt_loop_other; [exact Hf|].
    cbn in Hr. now apply negb_true_iff in Hr.
Qed.

(** The loop over a run of network failures: one attempt is spent on
    each, with a sleep after those attempts that are not the last. *)
Lemma attempt_loop_failures func max_retries bf s es s1 :
  net_failures func s es s1 ->
  forall attempts rest prev res tr s2,
    length attempts = length es ->
    attempt_loop func max_retries bf rest
      (match last es with Some e => Some e | None => prev end) s1
      = (res, tr, s2) ->
    exists pre,
      attempt_loop func max_retries bf (attempts ++ rest) prev s
        = (res, pre ++ tr, s2) /\
      calls pre = map (fun e => Raise (RequestException e)) es /\
      sleeps pre
        = map (Qpower bf) (List.filter (fun a => a <? max_retries) attempts).
Proof.
  induction 1 as [s|s e s1 es s' Hf Hrun IH];
    intros attempts rest prev res tr s2 Hlen Hrest.
  - destruct attempts; [|discriminate Hlen]. exists []. auto.
  - destruct attempts as [|attempt attempts]; [discriminate Hlen|].
    injection Hlen as Hlen.
    assert (Hlast : match last (e :: es) with Some e' => Some e' | None => prev end
                    = match last es with Some e' => Some e' | None => Some e end).
    { destruct es as [|e' es']; [reflexivity|].
      change (last (e :: e' :: es')) with (last (e' :: es')).
      destruct (last (e' :: es')) eqn:Hl; [reflexivity|].
      apply last_None in Hl. discriminate Hl. }
    rewrite Hlast in Hrest.
    destruct (IH attempts rest (Some e) res tr s2 Hlen Hrest)
      as (pre & Hloop & Hcalls & Hsleeps).
    destruct (attempt_loop_net func max_retries bf attempt (attempts ++ rest)
                prev s e s1 Hf)
      as (res' & tr' & s2' & Hloop' & pre0 & Hstep & Hc0 & Hs0).
    rewrite Hloop in Hloop'. inversion Hloop'; subst res' tr' s2'.
    exists (Call (Raise (RequestException e)) :: pre0 ++ pre).
    split; [|split].
    + cbn [app]. rewrite Hstep. now rewrite <- app_assoc.
    + rewrite calls_cons_call, calls_app, Hc0, Hcalls. reflexivity.
    + change (sleeps (Call (Raise (RequestException e)) :: pre0 ++ pre))
        with (sleeps (pre0 ++ pre)).
      rewrite sleeps_app, Hs0, Hsleeps. cbn [List.filter].
      destruct (attempt <? max_retries); reflexivity.
Qed.

Lemma filter_all_false {B} (p : B -> bool) (l : list B) :
  (forall a, In a l -> p a = false) -> List.filter p l = [].
Proof.
  induction l as [|b l IH]; intros Hall; [reflexivity|].
  cbn. rewrite (Hall b) by now left. apply IH. intros a Ha. apply Hall. now right.
Qed.

Lemma filter_below_seqZ (n len : Z) :
  0 <= n -> n <= len ->
  List.filter (fun a => a <? n) (seqZ 0 len) = seqZ 0 n.
Proof.
  intros Hn Hlen.
  replace len with (n + (len - n)) by lia.
  rewrite seqZ_app by lia. rewrite List.filter_app.
  assert (H1 : List.filter (fun a => a <? n) (seqZ 0 n) = seqZ 0 n).
  { apply forallb_filter_id, forallb_forall. intros a Ha.
    apply list_elem_of_In, elem_of_seqZ in Ha. apply Z.ltb_lt. lia. }
  assert (H2 : List.filter (fun a => a <? n) (seqZ (0 + n) (len - n)) = []).
  { apply filter_all_false. intros a Ha.
    apply list_elem_of_In, elem_of_seqZ in Ha. apply Z.ltb_ge. lia. }
  rewrite H1, H2. apply app_nil_r.
Qed.

(** A callable that raises a network error at every invocation fails
    as often as it is invoked. *)
Lemma always_failing_run func :
  (forall s0, exists e s1, func s0 = (Raise (RequestException e), s1)) ->
  forall n s, exists es s', net_failures func s es s' /\ length es = n.
Proof.
  intros Hnet. induction n as [|n IH]; intros s.
  - exists [], s. split; [constructor|reflexivity].
  - destruct (Hnet s) as (e & s1 & Hf).
    destruct (IH s1) as (es & s' & Hrun & Hlen).
    exists (e :: es), s'. split; [econstructor; eauto|cbn; congruence].
Qed.

(** The run of a callable that fails [k] times and then ends the loop. *)
Lemma retry_first_final_run max_retries bf func s es s1 r s2 :
  net_failures func s es s1 ->
  func s1 = (r, s2) ->
  is_final r = true ->
  Z.of_nat (length es) <= max_retries ->
  exists tr,
    retry_on_failure max_retries bf func s = (r, tr, s2) /\
    calls tr = map (fun e => Raise (RequestException e)) es ++ [r] /\
    sleeps tr = backoff_delays bf (Z.of_nat (length es)).
Proof.
  intros Hrun Hf Hr Hk. unfold retry_on_failure, backoff_delays.
  set (k := Z.of_nat (length es)) in *.
  replace (max_retries + 1) with (k + (max_retries + 1 - k)) by lia.
  rewrite seqZ_app by lia.
  rewrite (seqZ_cons (0 + k)) by lia.
  edestruct (attempt_loop_failures func max_retries bf s es s1 Hrun (seqZ 0 k))
    as (pre & Hloop & Hcalls & Hsleeps).
  - rewrite length_seqZ. unfold k. apply Nat2Z.id.
  - apply attempt_loop_final; eassumption.
  - rewrite Hloop. eexists. split; [reflexivity|]. split.
    + now rewrite calls_app, Hcalls.
    + rewrite sleeps_app, Hsleeps. cbn. rewrite app_nil_r.
      assert (Hfil : List.filter (fun a => a <? max_retries) (seqZ 0 k) = seqZ 0 k).
      { apply forallb_filter_id, forallb_forall. intros a Ha.
        apply list_elem_of_In, elem_of_seqZ in Ha. apply Z.ltb_lt. lia. }
      now rewrite Hfil.
Qed.

(** The run of a callable that always raises a network error. *)
Lemma retry_exhaustion_run max_retries bf func s :
  0 <= max_retries ->
  (forall s0, exists e s1, func s0 = (Raise (RequestException e), s1)) ->
  exists es e_last s' tr,
    net_failures func s (es ++ [e_last]) s' /\
    retry_on_failure max_retries bf func s
      = (Raise (RequestException e_last), tr, s') /\
    calls tr = map (fun e => Raise (RequestException e)) (es ++ [e_last]) /\
    length (calls tr) = Z.to_nat (max_retries + 1) /\
    sleeps tr = backoff_delays bf max_retries.
Proof.
  intros Hmax Hnet.
  destruct (always_failing_run func Hnet (S (Z.to_nat max_retries)) s)
    as (es0 & s' & Hrun & Hlen).
  destruct (exists_last (l := es0)) as (es & e_last & ->);
    [intros ->; discriminate Hlen|].
  exists es, e_last, s'.
  destruct (attempt_loop_failures func max_retries bf s _ s' Hrun
              (seqZ 0 (max_retries + 1)) [] None
              (Raise (RequestException e_last)) [] s')
    as (pre & Hloop & Hcalls & Hsleeps).
  - rewrite length_seqZ, Hlen. lia.
  - rewrite last_snoc. reflexivity.
  - exists pre. split; [exact Hrun|]. rewrite !app_nil_r in Hloop.
    split; [exact Hloop|]. split; [exact Hcalls|]. split.
    + rewrite Hcalls, length_map, Hlen. lia.
    + rewrite Hsleeps. unfold backoff_delays.
      now rewrite filter_below_seqZ by lia.
Qed.

(** With a negative [max_retries] the loop has no attempt: the callable
    is never invoked, and the wrapper raises the [TypeError] of
    [raise None] instead of an error of the callable. *)
Theorem retry_negative_never_calls max_retries bf func s :
  max_retries < 0 ->
  retry_on_failure max_retries bf func s = (Raise TypeError_raise_None, [], s).
Proof.
  intros Hneg. unfold retry_on_failure. now rewrite seqZ_nil by lia.
Qed.

(** Whatever the callable does, it is invoked at most [max_retries + 1]
    times and the wrapper sleeps at most [max_retries] times. *)
Lemma attempt_loop_bounds func max_retries bf attempts :
  forall prev s res tr s',
    attempt_loop func max_retries bf attempts prev s = (res, tr, s') ->
    (length (calls tr) <= length attempts)%nat /\
    (length (sleeps tr)
     <= length (List.filter (fun a => (a <? max_retries)%Z) attempts))%nat.
Proof.
  induction attempts as [|attempt rest IH]; intros prev s res tr s' Hrun.
  - cbn in Hrun. destruct prev; inversion Hrun; subst; cbn; lia.
  - destruct (func s) as [r s1] eqn:Hf. destruct (is_final r) eqn:Hr.
    + rewrite (attempt_loop_final _ _ _ _ _ _ _ _ _ Hf Hr) in Hrun.
      inversion Hrun; subst. cbn. lia.
    + destruct r as [a|[e| |]]; try discriminate Hr.
      destruct (attempt_loop_net func max_retries bf attempt rest prev _ _ _ Hf)
        as (res1 & tr1 & s2 & Hrest & pre & Hrun' & Hc & Hs).
      rewrite Hrun' in Hrun. inversion Hrun; subst.
      destruct (IH _ _ _ _ _ Hrest) as [IHc IHs].
      rewrite calls_cons_call, calls_app, Hc.
      change (sleeps (Call (Raise (RequestException e)) :: pre ++ tr1))
        with (sleeps (pre ++ tr1)).
      rewrite sleeps_app, Hs. cbn [List.filter length app].
      destruct (attempt <? max_retries); cbn [length app]; lia.
Qed.

Theorem retry_call_bound max_retries bf func s res tr s' :
  retry_on_failure max_retries bf func s = (res, tr, s') ->
  (Z.of_nat (length (calls tr)) <= Z.max 0 (max_retries + 1)) /\
  (Z.of_nat (length (sleeps tr)) <= Z.max 0 max_retries).
Proof.
  unfold retry_on_failure. intros Hrun.
  destruct (attempt_loop_bounds _ _ _ _ _ _ _ _ _ Hrun) as [Hc Hs].
  rewrite length_seqZ in Hc. split; [lia|].
  destruct (Z_lt_le_dec max_retries 0) as [Hneg|Hpos].
  - rewrite seqZ_nil in Hs by lia. cbn in Hs. lia.
  - rewrite filter_below_seqZ, length_seqZ in Hs by lia. lia.
Qed.

(** Every outcome in the trace is an outcome of the callable, and the
    wrapper's result is the last of them, unless there is none. *)
Lemma attempt_loop_result func max_retries bf attempts :
  forall prev s res tr s',
    attempt_loop func max_retries bf attempts prev s = (res, tr, s') ->
    Forall (fun r => exists s0 s1, func s0 = (r, s1)) (calls tr) /\
    match last (calls tr) with
    | Some r => res = r
    | None => res = match prev with
                    | Some e => Raise (RequestException e)
                    | None => Raise TypeError_raise_None
                    end
    end.
Proof.
  induction attempts as [|attempt rest IH]; intros prev s res tr s' Hrun.
  - cbn in Hrun. destruct prev; inversion Hrun; subst; cbn; auto.
  - destruct (func s) as [r s1] eqn:Hf. destruct (is_final r) eqn:Hr.
    + rewrite (attempt_loop_final _ _ _ _ _ _ _ _ _ Hf Hr) in Hrun.
      inversion Hrun; subst. cbn. split; [|reflexivity].
      constructor; [eauto|constructor].
    + destruct r as [a|[e| |]]; try discriminate Hr.
      destruct (attempt_loop_net func max_retries bf attempt rest prev _ _ _ Hf)
        as (res1 & tr1 & s2 & Hrest & pre & Hrun' & Hc & Hs).
      rewrite Hrun' in Hrun. inversion Hrun; subst.
      destruct (IH _ _ _ _ _ Hrest) as [IHf IHl].
      rewrite calls_cons_call, calls_app, Hc. cbn [app]. split.
      * constructor; [eauto|exact IHf].
      * destruct (calls tr1) as [|r1 rs] eqn:Hcs; [exact IHl|].
        rewrite last_cons_cons.
        destruct (last (r1 :: rs)) eqn:Hl; [exact IHl|].
        apply last_None in Hl. discriminate Hl.
Qed.

Lemma retry_result_last max_retries bf func s res tr s' :
  retry_on_failure max_retries bf func s = (res, tr, s') ->
  Forall (fun r => exists s0 s1, func s0 = (r, s1)) (calls tr) /\
  match last (calls tr) with
  | Some r => res = r
  | None => res = Raise TypeError_raise_None /\ max_retries < 0
  end.
Proof.
  unfold retry_on_failure. intros Hrun.
  destruct (attempt_loop_result _ _ _ _ _ _ _ _ _ Hrun) as [Hall Hlast].
  split; [exact Hall|].
  destruct (last (calls tr)) eqn:Hl; [exact Hlast|].
  split; [exact Hlast|].
  destruct (Z_lt_le_dec max_retries 0) as [Hneg|Hpos]; [exact Hneg|].
  exfalso. rewrite seqZ_cons in Hrun by lia.
  destruct (func s) as [r s1] eqn:Hf. destruct (is_final r) eqn:Hr.
  - rewrite (attempt_loop_final _ _ _ _ _ _ _ _ _ Hf Hr) in Hrun.
    inversion Hrun; subst. apply last_None in Hl. discriminate Hl.
  - destruct r as [a|[e| |]]; try discriminate Hr.
    destruct (attempt_loop_net func max_retries bf 0
                (seqZ (Z.succ 0) (Z.pred (max_retries + 1))) None _ _ _ Hf)
      as (res1 & tr1 & s2 & Hrest & pre & Hrun' & Hc & Hs).
    rewrite Hrun' in Hrun. inversion Hrun; subst.
    rewrite calls_cons_call in Hl. apply last_None in Hl. discriminate Hl.
Qed.

End facts.

(** C2 at [always_timeout]: four calls, and the error of the fourth. *)
Lemma retry_exhaustion_witness :
  (forall s0, exists e s1,
     Scenario.always_timeout s0 = (Raise (RequestException e), s1)) /\
  exists tr,
    retry_on_failure 3 2 Scenario.always_timeout 0%nat
      = (Raise (RequestException 3%nat), tr, 4%nat) /\
    length (calls tr) = 4%nat.
Proof.
  assert (Hnet : forall s0, exists e s1,
            Scenario.always_timeout s0 = (Raise (RequestException e), s1))
    by (intros s0; exists s0, (S s0); reflexivity).
  split; [exact Hnet|].
  destruct (retry_exhaustion_four_calls Scenario.always_timeout 2 0%nat Hnet)
    as (e1 & e2 & e3 & e4 & s1 & s2 & s3 & s4 & tr
        & H1 & H2 & H3 & H4 & Hrun & _ & Hlen & _).
  unfold Scenario.always_timeout in H1, H2, H3, H4.
  inversion H1; subst. inversion H2; subst.
  inversion H3; subst. inversion H4; subst.
  exists tr. split; [exact Hrun | exact Hlen].
Defined.

(** C3 at [raises_value_error]: one call, no sleep, the same exception. *)
Lemma retry_propagates_witness :
  retry_on_failure 3 2 Scenario.raises_value_error 0%nat
    = (Raise (OtherException "ValueError"%string),
       [Call (Raise (OtherException "ValueError"%string))], 1%nat) /\
  calls [Call (A := Z) (NetExn := nat) (Raise (OtherException "ValueError"%string))]
    = [Raise (OtherException "ValueError"%string)] /\
  sleeps [Call (A := Z) (NetExn := nat) (Raise (OtherException "ValueError"%string))]
    = [].
Proof.
  assert (Hrun : retry_on_failure 3 2 Scenario.raises_value_error 0%nat
                 = (Raise (OtherException "ValueError"%string),
                    [Call (Raise (OtherException "ValueError"%string))], 1%nat))
    by reflexivity.
  split; [exact Hrun|].
  destruct (retry_propagates_and_returns 3 2 Scenario.raises_value_error 0%nat
              _ _ _ Hrun) as [Hother _].
  destruct (Hother (OtherException "ValueError"%string) eq_refl eq_refl)
    as (_ & Hcalls & Hsleeps).
  split; [exact Hcalls | exact Hsleeps].
Defined.

(** [flaky] succeeds at its third call, and the wrapper returns its value. *)
Example retry_flaky_returns :
  (retry_on_failure 3 2 Scenario.flaky 0%nat).1.1 = Return 42 /\
  calls (retry_on_failure 3 2 Scenario.flaky 0%nat).1.2
    = [Raise (RequestException 0%nat); Raise (RequestException 1%nat); Return 42].
Proof. split; reflexivity. Qed.

(** With a negative [max_retries] the callable is never invoked. *)
Example retry_negative_max_retries :
  retry_on_failure (-1) 2 Scenario.raises_value_error 0%nat
    = (Raise TypeError_raise_None, [], 0%nat).
Proof. reflexivity. Qed.

End RetryFacts.

(** ** Retry decorator, with the errors of [time.sleep] *)

Module RetrySleepFacts.
Import Retry RetryRuns.

Section facts.
Context {A NetExn OtherExn St : Type}.
Context (time_sleep : Q -> option OtherExn).
Implicit Types (func : callable A NetExn OtherExn St) (s : St).
Implicit Types (tr : list (event A NetExn OtherExn)).

(** A run of [Retry.attempt_loop] whose delays [time.sleep] accepts is
    the run of the loop. *)
Lemma attempt_loop_accepted func max_retries bf attempts :
  forall prev s res tr s',
    Retry.attempt_loop func max_retries bf attempts prev s = (res, tr, s') ->
    Forall (fun d => time_sleep d = None) (sleeps tr) ->
    RetrySleep.attempt_loop time_sleep func max_retries bf attempts prev s
      = (res, tr, s').
Proof.
  induction attempts as [|attempt rest IH]; intros prev s res tr s' Hrun Hok.
  - exact Hrun.
  - cbn [Retry.attempt_loop] in Hrun. cbn [RetrySleep.attempt_loop].
    destruct (func s) as [[a|[e|x|]] s1]; try exact Hrun.
    destruct (Retry.attempt_loop func max_retries bf rest (Some e) s1)
      as [[res1 tr1] s2] eqn:Hrest.
    destruct (attempt <? max_retries).
    + inversion Hrun; subst res tr s'. clear Hrun.
      change (sleeps (Call (Raise (RequestException e))
                        :: LogWarning attempt e (Qpower bf attempt)
                        :: Sleep (Qpower bf attempt) :: tr1))
        with (Qpower bf attempt :: sleeps tr1) in Hok.
      apply Forall_cons in Hok as [Hd Hok].
      rewrite Hd, (IH _ _ _ _ _ Hrest Hok). reflexivity.
    + inversion Hrun; subst res tr s'. clear Hrun.
      change (sleeps (Call (Raise (RequestException e)) :: LogError :: tr1))
        with (sleeps tr1) in Hok.
      rewrite (IH _ _ _ _ _ Hrest Hok). reflexivity.
Qed.

Lemma retry_accepted max_retries bf func s res tr s' :
  Retry.retry_on_failure max_retries bf func s = (res, tr, s') ->
  Forall (fun d => time_sleep d = None) (sleeps tr) ->
  RetrySleep.retry_on_failure time_sleep max_retries bf func s = (res, tr, s').
Proof. apply attempt_loop_accepted. Qed.

(** Exhaustion for every [max_retries >= 0], when [time.sleep] accepts
    the delays [backoff_factor ** attempt] of the attempts
    [0 .. max_retries - 1]: a callable that always raises a network
    error is invoked [max_retries + 1] times, the wrapper sleeps
    [backoff_factor ** attempt] after each of the first [max_retries]
    failures, and it raises the error of the last invocation. *)
Theorem retry_exhaustion_any_max_retries max_retries bf func s :
  0 <= max_retries ->
  Forall (fun d => time_sleep d = None) (backoff_delays bf max_retries) ->
  (forall s0, exists e s1, func s0 = (Raise (RequestException e), s1)) ->
  exists es e_last s' tr,
    net_failures func s (es ++ [e_last]) s' /\
    RetrySleep.retry_on_failure time_sleep max_retries bf func s
      = (Raise (RequestException e_last), tr, s') /\
    calls tr = map (fun e => Raise (RequestException e)) (es ++ [e_last]) /\
    length (calls tr) = Z.to_nat (max_retries + 1) /\
    sleeps tr = backoff_delays bf max_retries.
Proof.
  intros Hmax Hok Hnet.
  destruct (RetryFacts.retry_exhaustion_run max_retries bf func s Hmax Hnet)
    as (es & e_last & s' & tr & Hrun & Hres & Hcalls & Hlen & Hsleeps).
  exists es, e_last, s', tr. split; [exact Hrun|].
  split; [|auto]. apply retry_accepted; [exact Hres|]. now rewrite Hsleeps.
Qed.

(** The wrapper's result is the outcome of the first invocation that
    does not raise a network error, when that invocation comes within
    the [max_retries + 1] attempts and [time.sleep] accepts the delays
    before it: [k] network errors followed by a value, or by another
    exception, make [k + 1] invocations and [k] sleeps of
    [backoff_factor ** 0 .. backoff_factor ** (k - 1)]. *)
Theorem retry_first_final_outcome max_retries bf func s es s1 r s2 :
  net_failures func s es s1 ->
  func s1 = (r, s2) ->
  is_final r = true ->
  Z.of_nat (length es) <= max_retries ->
  Forall (fun d => time_sleep d = None)
    (backoff_delays bf (Z.of_nat (length es))) ->
  exists tr,
    RetrySleep.retry_on_failure time_sleep max_retries bf func s = (r, tr, s2) /\
    calls tr = map (fun e => Raise (RequestException e)) es ++ [r] /\
    sleeps tr = backoff_delays bf (Z.of_nat (length es)).
Proof.
  intros Hrun Hf Hr Hk Hok.
  destruct (RetryFacts.retry_first_final_run max_retries bf func s es s1 r s2
              Hrun Hf Hr Hk) as (tr & Hres & Hcalls & Hsleeps).
  exists tr. split; [|auto]. apply retry_accepted; [exact Hres|].
  now rewrite Hsleeps.
Qed.

(** *** A refused sleep *)

Lemma refused_true d x : time_sleep d = Some x -> RetrySleep.refused time_sleep d = true.
Proof. unfold RetrySleep.refused. now intros ->. Qed.

Lemma refused_false d : time_sleep d = None -> RetrySleep.refused time_sleep d = false.
Proof. unfold RetrySleep.refused. now intros ->. Qed.

Lemma last_keeps {B} (x : B) (l : list B) (y : B) :
  last l = Some y -> last (x :: l) = Some y.
Proof. intros H. rewrite last_cons, H. reflexivity. Qed.

(** The loop over a run of network failures whose delays are accepted. *)
Lemma sleep_loop_failures func max_retries bf s es s1 :
  net_failures func s es s1 ->
  forall attempts rest prev res tr s2,
    length attempts = length es ->
    Forall (fun d => time_sleep d = None)
      (map (Qpower bf) (List.filter (fun a => a <? max_retries) attempts)) ->
    RetrySleep.attempt_loop time_sleep func max_retries bf rest
      (match last es with Some e => Some e | None => prev end) s1
      = (res, tr, s2) ->
    exists pre,
      RetrySleep.attempt_loop time_sleep func max_retries bf (attempts ++ rest)
        prev s = (res, pre ++ tr, s2) /\
      calls pre = map (fun e => Raise (RequestException e)) es /\
      sleeps pre
        = map (Qpower bf) (List.filter (fun a => a <? max_retries) attempts).
Proof.
  induction 1 as [s|s e s1 es s' Hf Hrun IH];
    intros attempts rest prev res tr s2 Hlen Hok Hrest.
  - destruct attempts; [|discriminate Hlen]. exists []. auto.
  - destruct attempts as [|attempt attempts]; [discriminate Hlen|].
    injection Hlen as Hlen.
    assert (Hlast : match last (e :: es) with Some e' => Some e' | None => prev end
                    = match last es with Some e' => Some e' | None => Some e end).
    { destruct es as [|e' es']; [reflexivity|].
      change (last (e :: e' :: es')) with (last (e' :: es')).
      destruct (last (e' :: es')) eqn:Hl; [reflexivity|].
      apply last_None in Hl. discriminate Hl. }
    rewrite Hlast in Hrest.
    cbn [List.filter] in Hok.
    assert (Hok' : Forall (fun d => time_sleep d = None)
                     (map (Qpower bf)
                        (List.filter (fun a => a <? max_retries) attempts))).
    { destruct (attempt <? max_retries); [|exact Hok].
      cbn [map] in Hok. now apply Forall_cons in Hok as [_ Hok]. }
    destruct (IH attempts rest (Some e) res tr s2 Hlen Hok' Hrest)
      as (pre & Hloop & Hcalls & Hsleeps).
    cbn [app RetrySleep.attempt_loop]. rewrite Hf, Hloop.
    cbn [List.filter]. destruct (attempt <? max_retries).
    + cbn [map] in Hok. apply Forall_cons in Hok as [Hd _]. rewrite Hd.
      exists (Call (Raise (RequestException e))
                :: LogWarning attempt e (Qpower bf attempt)
                :: Sleep (Qpower bf attempt) :: pre).
      split; [reflexivity|]. split.
      * rewrite RetryFacts.calls_cons_call. cbn [map]. f_equal. exact Hcalls.
      * cbn [map]. rewrite <- Hsleeps. reflexivity.
    + exists (Call (Raise (RequestException e)) :: LogError :: pre).
      split; [reflexivity|]. split.
      * rewrite RetryFacts.calls_cons_call. cbn [map]. f_equal. exact Hcalls.
      * rewrite <- Hsleeps. reflexivity.
Qed.

(** The wrapper ends at the first delay that [time.sleep] refuses, with
    the exception of [time.sleep] and not with an error of the callable:
    after [k] failures with accepted delays, a failure at attempt
    [k < max_retries] whose delay [backoff_factor ** k] is refused is
    the last invocation.  With a negative [backoff_factor] the delay of
    attempt 1 is negative, and the wrapper raises [ValueError] after two
    invocations. *)
Theorem retry_refused_sleep_ends max_retries bf func s es s1 e s2 x :
  net_failures func s es s1 ->
  func s1 = (Raise (RequestException e), s2) ->
  Z.of_nat (length es) < max_retries ->
  Forall (fun d => time_sleep d = None)
    (backoff_delays bf (Z.of_nat (length es))) ->
  time_sleep (Qpower bf (Z.of_nat (length es))) = Some x ->
  exists tr,
    RetrySleep.retry_on_failure time_sleep max_retries bf func s
      = (Raise (OtherException x), tr, s2) /\
    calls tr = map (fun e' => Raise (RequestException e')) (es ++ [e]) /\
    sleeps tr = backoff_delays bf (Z.of_nat (length es) + 1) /\
    last tr = Some (Sleep (Qpower bf (Z.of_nat (length es)))).
Proof.
  intros Hrun Hf Hk Hok Hx. unfold RetrySleep.retry_on_failure, backoff_delays in *.
  set (k := Z.of_nat (length es)) in *.
  assert (Hk0 : 0 <= k) by (unfold k; lia).
  replace (max_retries + 1) with (k + (max_retries + 1 - k)) by lia.
  rewrite seqZ_app by lia.
  rewrite (seqZ_cons (0 + k)) by lia.
  assert (Hfil : List.filter (fun a => a <? max_retries) (seqZ 0 k) = seqZ 0 k).
  { apply forallb_filter_id, forallb_forall. intros a Ha.
    apply list_elem_of_In, elem_of_seqZ in Ha. apply Z.ltb_lt. lia. }
  edestruct (sleep_loop_failures func max_retries bf s es s1 Hrun (seqZ 0 k)
               (0 + k :: seqZ (Z.succ (0 + k)) (Z.pred (max_retries + 1 - k)))
               None)
    as (pre & Hloop & Hcalls & Hsleeps).
  - rewrite length_seqZ. unfold k. apply Nat2Z.id.
  - rewrite Hfil. exact Hok.
  - cbn [RetrySleep.attempt_loop]. rewrite Hf.
    replace (0 + k <? max_retries) with true by (symmetry; apply Z.ltb_lt; lia).
    replace (0 + k) with k by lia. rewrite Hx. reflexivity.
  - rewrite Hloop. eexists. split; [reflexivity|]. split; [|split].
    + rewrite RetryFacts.calls_app, Hcalls, map_app. reflexivity.
    + rewrite RetryFacts.sleeps_app, Hsleeps, Hfil.
      rewrite (seqZ_app 0 k 1) by lia. rewrite map_app.
      f_equal; rewrite seqZ_cons by lia; reflexivity.
    + rewrite last_app. reflexivity.
Qed.

(** Every outcome in the trace is an outcome of the callable; a refused
    sleep is the last event, and its exception is the result; without
    one, the result is the last outcome of the callable. *)
Lemma sleep_loop_result func max_retries bf attempts :
  forall prev s res tr s',
    RetrySleep.attempt_loop time_sleep func max_retries bf attempts prev s
      = (res, tr, s') ->
    Forall (fun r => exists s0 s1, func s0 = (r, s1)) (calls tr) /\
    match List.find (RetrySleep.refused time_sleep) (sleeps tr) with
    | Some d =>
        last tr = Some (Sleep d) /\
        exists x, time_sleep d = Some x /\ res = Raise (OtherException x)
    | None =>
        match last (calls tr) with
        | Some r => res = r
        | None => res = match prev with
                        | Some e => Raise (RequestException e)
                        | None => Raise TypeError_raise_None
                        end
        end
    end.
Proof.
  induction attempts as [|attempt rest IH]; intros prev s res tr s' Hrun.
  - cbn in Hrun. destruct prev; inversion Hrun; subst; cbn; auto.
  - cbn [RetrySleep.attempt_loop] in Hrun.
    destruct (func s) as [[a|[e|x|]] s1] eqn:Hf.
    + inversion Hrun; subst. cbn. split; [|reflexivity].
      constructor; [eauto|constructor].
    + destruct (attempt <? max_retries).
      * destruct (time_sleep (Qpower bf attempt)) as [x|] eqn:Hd.
        -- inversion Hrun; subst. split.
           ++ cbn. constructor; [eauto|constructor].
           ++ change (sleeps [Call (Raise (RequestException e));
                              LogWarning attempt e (Qpower bf attempt);
                              Sleep (Qpower bf attempt)])
                with [Qpower bf attempt].
              cbn [List.find]. rewrite (refused_true _ _ Hd).
              split; [reflexivity|]. eauto.
        -- destruct (RetrySleep.attempt_loop time_sleep func max_retries bf rest
                       (Some e) s1) as [[res1 tr1] s2] eqn:Hrest.
           inversion Hrun; subst res tr s'. clear Hrun.
           destruct (IH _ _ _ _ _ Hrest) as [IHf IHl].
           rewrite RetryFacts.calls_cons_call.
           change (calls (LogWarning attempt e (Qpower bf attempt)
                            :: Sleep (Qpower bf attempt) :: tr1))
             with (calls tr1).
           change (sleeps (Call (Raise (RequestException e))
                             :: LogWarning attempt e (Qpower bf attempt)
                             :: Sleep (Qpower bf attempt) :: tr1))
             with (Qpower bf attempt :: sleeps tr1).
           split; [constructor; [eauto|exact IHf]|].
           cbn [List.find]. rewrite (refused_false _ Hd).
           destruct (List.find (RetrySleep.refused time_sleep) (sleeps tr1))
             as [d|].
           ++ destruct IHl as [Hl Hx]. split; [|exact Hx].
              now do 3 apply last_keeps.
           ++ destruct (calls tr1) as [|r1 rs] eqn:Hcs; [exact IHl|].
              rewrite last_cons_cons.
              destruct (last (r1 :: rs)) eqn:Hl; [exact IHl|].
              apply last_None in Hl. discriminate Hl.
      * destruct (RetrySleep.attempt_loop time_sleep func max_retries bf rest
                    (Some e) s1) as [[res1 tr1] s2] eqn:Hrest.
        inversion Hrun; subst res tr s'. clear Hrun.
        destruct (IH _ _ _ _ _ Hrest) as [IHf IHl].
        rewrite RetryFacts.calls_cons_call.
        change (calls (LogError :: tr1)) with (calls tr1).
        change (sleeps (Call (Raise (RequestException e)) :: LogError :: tr1))
          with (sleeps tr1).
        split; [constructor; [eauto|exact IHf]|].
        destruct (List.find (RetrySleep.refused time_sleep) (sleeps tr1))
          as [d|].
        -- destruct IHl as [Hl Hx]. split; [|exact Hx].
           now do 2 apply last_keeps.
        -- destruct (calls tr1) as [|r1 rs] eqn:Hcs; [exact IHl|].
           rewrite last_cons_cons.
           destruct (last (r1 :: rs)) eqn:Hl; [exact IHl|].
           apply last_None in Hl. discriminate Hl.
    + inversion Hrun; subst. cbn. split; [|reflexivity].
      constructor; [eauto|constructor].
    + inversion Hrun; subst. cbn. split; [|reflexivity].
      constructor; [eauto|constructor].
Qed.

(** With one attempt at least, the callable is invoked. *)
Lemma sleep_loop_calls func max_retries bf attempt rest prev s res tr s' :
  RetrySleep.attempt_loop time_sleep func max_retries bf (attempt :: rest) prev s
    = (res, tr, s') ->
  calls tr <> [].
Proof.
  cbn [RetrySleep.attempt_loop]. intros Hrun.
  destruct (func s) as [[a|[e|x|]] s1];
    try (inversion Hrun; subst; discriminate).
  destruct (RetrySleep.attempt_loop time_sleep func max_retries bf rest (Some e) s1)
    as [[res1 tr1] s2].
  destruct (attempt <? max_retries);
    [destruct (time_sleep (Qpower bf attempt))|];
    inversion Hrun; subst; discriminate.
Qed.

(** The wrapper makes up no result.  Every outcome in its trace is an
    outcome of an invocation of the callable.  When [time.sleep] refused
    a delay, that sleep is the last event of the run and the wrapper
    raises the exception of [time.sleep]; otherwise what the wrapper
    returns or raises is the outcome of the last invocation, and only a
    negative [max_retries] leaves it without an invocation, the result
    being the [TypeError] of [raise None]. *)
Theorem retry_result_is_last_outcome max_retries bf func s res tr s' :
  RetrySleep.retry_on_failure time_sleep max_retries bf func s = (res, tr, s') ->
  Forall (fun r => exists s0 s1, func s0 = (r, s1)) (calls tr) /\
  match List.find (RetrySleep.refused time_sleep) (sleeps tr) with
  | Some d =>
      last tr = Some (Sleep d) /\
      exists x, time_sleep d = Some x /\ res = Raise (OtherException x)
  | None =>
      match last (calls tr) with
      | Some r => res = r
      | None => res = Raise TypeError_raise_None /\ max_retries < 0
      end
  end.
Proof.
  unfold RetrySleep.retry_on_failure. intros Hrun.
  destruct (sleep_loop_result _ _ _ _ _ _ _ _ _ Hrun) as [Hall Hlast].
  split; [exact Hall|].
  destruct (List.find (RetrySleep.refused time_sleep) (sleeps tr)) as [d|];
    [exact Hlast|].
  destruct (last (calls tr)) eqn:Hl; [exact Hlast|].
  split; [exact Hlast|].
  destruct (Z_lt_le_dec max_retries 0) as [Hneg|Hpos]; [exact Hneg|].
  exfalso. rewrite seqZ_cons in Hrun by lia.
  apply sleep_loop_calls in Hrun. apply last_None in Hl. contradiction.
Qed.

End facts.

End RetrySleepFacts.

(** ** Rate limiter *)

Module RateLimiterFacts.
Import RateLimiter.

Lemma uniform_lower_bound (a b u : Q) :
  (a <= b)%Q -> (0 <= u)%Q -> (a <= uniform a b u)%Q.
Proof.
  intros Hab Hu. unfold uniform.
  assert (H : (0 <= (b - a) * u)%Q) by (apply Qmult_le_0_compat; lra).
  lra.
Qed.

(** [wait] keeps the configuration and leaves the clock at the instant
    it recorded. *)
Lemma wait_frame rl clock e rl' clock' slept :
  wait rl clock e = (rl', clock', slept) ->
  min_delay rl' = min_delay rl /\ max_delay rl' = max_delay rl /\
  last_request_time rl' = clock'.
Proof.
  unfold wait. destruct (Qlt_le_dec _ _); intros H; inversion H; subst; auto.
Qed.

(** One [wait] that starts no earlier than the previous request. *)
Lemma wait_lower_bound rl clock e rl' clock' slept :
  (min_delay rl <= max_delay rl)%Q ->
  env_ok e ->
  (last_request_time rl <= clock)%Q ->
  wait rl clock e = (rl', clock', slept) ->
  (last_request_time rl + min_delay rl <= last_request_time rl')%Q.
Proof.
  intros Hmm (Hb & Hu0 & Hu1 & Ho & Ha) Hlast. unfold wait.
  pose proof (uniform_lower_bound _ _ _ Hmm Hu0) as Hd.
  destruct (Qlt_le_dec _ _) as [Hlt|Hge]; intros H; inversion H; subst;
    cbn [last_request_time]; lra.
Qed.

(** One [wait]: the clock it hands back is the clock at entry advanced
    by the time the call took. *)
Lemma wait_clock rl clock e rl' clock' slept :
  wait rl clock e = (rl', clock', slept) ->
  (clock' == clock + time_taken e slept)%Q.
Proof.
  unfold wait, time_taken.
  destruct (Qlt_le_dec _ _); intros H; inversion H; subst; lra.
Qed.

(** C9 (rate limiter lower bound). With [min_delay <= max_delay], over
    a monotone clock on which a sleep lasts at least as long as asked:
    of any two consecutive [wait()] calls, the second completes at
    least [min_delay] later on the clock than the first, and the time
    between the two completions is the time the second call took, its
    sleep included. *)
Theorem wait_completions_lower_bound (es : list env) :
  forall (rl : t) (clock : Q) (i : nat) (c1 c2 : Q) (slept1 slept2 : option Q),
    (min_delay rl <= max_delay rl)%Q ->
    Forall env_ok es ->
    wait_run rl clock es !! i = Some (c1, slept1) ->
    wait_run rl clock es !! S i = Some (c2, slept2) ->
    (c1 + min_delay rl <= c2)%Q /\
    exists e, es !! S i = Some e /\ (c2 == c1 + time_taken e slept2)%Q.
Proof.
  induction es as [|e es IH];
    intros rl clock i c1 c2 slept1 slept2 Hmm Hok H1 H2.
  - discriminate H1.
  - cbn [wait_run] in H1, H2.
    destruct (wait rl clock e) as [[rl' clock'] slept] eqn:Hw.
    destruct (wait_frame _ _ _ _ _ _ Hw) as (Hmin & Hmax & Hclk).
    apply Forall_cons in Hok as [Hoke Hokes].
    destruct i as [|i].
    + cbn in H1, H2. inversion H1; subst c1 slept1.
      destruct es as [|e2 es]; [discriminate H2|].
      cbn [wait_run] in H2.
      destruct (wait rl' clock' e2) as [[rl'' clock''] slept'] eqn:Hw2.
      cbn in H2. inversion H2; subst c2 slept2.
      apply Forall_cons in Hokes as [Hoke2 _].
      destruct (wait_frame _ _ _ _ _ _ Hw2) as (_ & _ & Hclk2).
      split.
      * rewrite <- Hmin. rewrite <- Hclk, <- Hclk2.
        eapply wait_lower_bound; [| exact Hoke2 | | exact Hw2].
        -- rewrite Hmin, Hmax. exact Hmm.
        -- rewrite Hclk. lra.
      * exists e2. split; [reflexivity|]. eapply wait_clock. exact Hw2.
    + cbn in H1, H2. rewrite <- Hmin.
      eapply IH; [| exact Hokes | exact H1 | exact H2].
      rewrite Hmin, Hmax. exact Hmm.
Qed.

(** C9 at the default limiter: the first call completes at 100 without
    a sleep; the second starts a second later, sleeps 1.5 s and
    completes at 102.5. *)
Lemma wait_completions_lower_bound_witness :
  (min_delay Scenario.default_limiter <= max_delay Scenario.default_limiter)%Q /\
  Forall env_ok Scenario.two_waits /\
  wait_run Scenario.default_limiter 100 Scenario.two_waits
    = [(100%Q, None); (410 # 4, Some (6 # 4))] /\
  (100 + min_delay Scenario.default_limiter <= 410 # 4)%Q /\
  exists e, Scenario.two_waits !! 1%nat = Some e /\
            (410 # 4 == 100 + time_taken e (Some (6 # 4)))%Q.
Proof.
  assert (Hmm : (min_delay Scenario.default_limiter
                 <= max_delay Scenario.default_limiter)%Q)
    by (cbn; lra).
  assert (Hok : Forall env_ok Scenario.two_waits).
  { repeat constructor; cbn; lra. }
  split; [exact Hmm|]. split; [exact Hok|]. split; [reflexivity|].
  exact (wait_completions_lower_bound Scenario.two_waits
           Scenario.default_limiter 100 0%nat _ _ _ _ Hmm Hok eq_refl eq_refl).
Defined.

Lemma uniform_upper_bound (a b u : Q) :
  (a <= b)%Q -> (u <= 1)%Q -> (uniform a b u <= b)%Q.
Proof.
  intros Hab Hu. unfold uniform.
  assert (H : (0 <= (b - a) * (1 - u))%Q) by (apply Qmult_le_0_compat; lra).
  lra.
Qed.

(** [wait] sleeps only as long as needed: not at all once [max_delay]
    has passed since the previous request, and otherwise for a positive
    time that, added to the time already passed, does not exceed
    [max_delay]; when it does not sleep, it only reads the clock. *)
Theorem wait_sleep_bounds rl clock e rl' clock' slept :
  (min_delay rl <= max_delay rl)%Q ->
  env_ok e ->
  wait rl clock e = (rl', clock', slept) ->
  ((max_delay rl <= clock + elapsed_before e - last_request_time rl)%Q ->
   slept = None) /\
  (forall d, slept = Some d ->
     (0 < d)%Q /\
     (d + (clock + elapsed_before e - last_request_time rl) <= max_delay rl)%Q) /\
  (slept = None ->
   clock' = (clock + elapsed_before e + elapsed_after e)%Q).
Proof.
  intros Hmm (Hb & Hu0 & Hu1 & Ho & Ha). unfold wait.
  pose proof (uniform_upper_bound _ _ _ Hmm Hu1) as Hup.
  destruct (Qlt_le_dec _ _) as [Hlt|Hge]; intros Heq; inversion Heq; subst.
  - split; [intros Hmax; lra|]. split; [|discriminate].
    intros d Hd. inversion Hd; subst. split; lra.
  - split; [reflexivity|]. split; [discriminate|reflexivity].
Qed.

End RateLimiterFacts.

(** ** Logger factory *)

Module LoggerFacts.
Import Logger.

Lemma getLogger_registered name w l :
  loggers w !! logger_key name = Some l -> getLogger name w = (l, w).
Proof. intros H. unfold getLogger. now rewrite H. Qed.

(** C8, as the code has it.  When the logger of that name already has
    handlers, [setup_logger] adds no handler, creates no directory and
    touches no other logger; it does set the level of the logger to
    the level that the [level] argument names, and raises, changing
    nothing, when the argument names no level. *)
Theorem setup_logger_configured name log_file level max_bytes backup_count w l :
  loggers w !! logger_key name = Some l ->
  handlers l <> [] ->
  match logging_level (upper level) with
  | Some lv =>
      exists w',
        setup_logger name log_file level max_bytes backup_count w
          = (Returned (logger_key name), w') /\
        loggers w' !! logger_key name = Some (setLevel lv l) /\
        handlers (setLevel lv l) = handlers l /\
        propagate (setLevel lv l) = propagate l /\
        disabled (setLevel lv l) = disabled l /\
        Logger.level (setLevel lv l) = lv /\
        (forall k, k <> logger_key name -> loggers w' !! k = loggers w !! k) /\
        made_dirs w' = made_dirs w
  | None =>
      setup_logger name log_file level max_bytes backup_count w = (Raised, w)
  end.
Proof.
  intros Hreg Hh. unfold setup_logger.
  rewrite (getLogger_registered _ _ _ Hreg).
  destruct (logging_level (upper level)) as [lv|]; [|reflexivity].
  destruct l as [lv0 hs pr di]. cbn in Hh.
  destruct hs as [|h hs]; [congruence|].
  cbn [setLevel handlers].
  eexists. split; [reflexivity|]. cbn [loggers made_dirs].
  split; [apply lookup_insert_eq|].
  repeat (split; [reflexivity|]).
  split; [|reflexivity].
  intros k Hk. now apply lookup_insert_ne.
Qed.

(** C8 fails as stated: the logger [app] has a handler, and
    [setup_logger("app", level="DEBUG")] lowers its level from INFO to
    DEBUG. *)
Lemma setup_logger_changes_level :
  loggers Scenario.configured !! logger_key "app" = Some Scenario.app_logger /\
  handlers Scenario.app_logger <> [] /\
  Logger.level Scenario.app_logger = INFO /\
  (exists l, loggers (setup_logger "app" None "DEBUG" 10485760 5
                        Scenario.configured).2 !! "app"%string = Some l /\
             Logger.level l = DEBUG) /\
  setup_logger "app" None "DEBUG" 10485760 5 Scenario.configured
    <> (Returned "app", Scenario.configured).
Proof.
  split; [reflexivity|]. split; [discriminate|]. split; [reflexivity|].
  split.
  - exists (setLevel DEBUG Scenario.app_logger). split; reflexivity.
  - intros Heq.
    assert (Hl : loggers (setup_logger "app" None "DEBUG" 10485760 5
                            Scenario.configured).2 !! "app"%string
                 = loggers Scenario.configured !! "app"%string)
      by (rewrite Heq; reflexivity).
    vm_compute in Hl. discriminate Hl.
Qed.

(** C8, as the code has it, at the logger [app]. *)
Lemma setup_logger_configured_witness :
  loggers Scenario.configured !! logger_key "app" = Some Scenario.app_logger /\
  handlers Scenario.app_logger <> [] /\
  exists w',
    setup_logger "app" (Some "logs/avm.log"%string) "debug" 10485760 5
      Scenario.configured = (Returned "app", w') /\
    loggers w' !! "app"%string = Some (setLevel DEBUG Scenario.app_logger) /\
    made_dirs w' = [].
Proof.
  assert (Hreg : loggers Scenario.configured !! logger_key "app"
                 = Some Scenario.app_logger) by reflexivity.
  assert (Hh : handlers Scenario.app_logger <> []) by discriminate.
  split; [exact Hreg|]. split; [exact Hh|].
  pose proof (setup_logger_configured "app" (Some "logs/avm.log"%string)
                "debug" 10485760 5 Scenario.configured Scenario.app_logger
                Hreg Hh) as Hthm.
  cbn in Hthm. destruct Hthm as (w' & Hrun & Hl & _ & _ & _ & _ & _ & Hd).
  exists w'. split; [exact Hrun|]. split; [exact Hl | exact Hd].
Defined.

(** *** Repeated and first-time setup *)

Lemma world_eq (w1 w2 : world) :
  loggers w1 = loggers w2 -> made_dirs w1 = made_dirs w2 -> w1 = w2.
Proof. destruct w1, w2. cbn. now intros -> ->. Qed.

End LoggerFacts.

(** ** Logger factory, with the errors of the file system *)

Module LoggerIOFacts.
Import Logger LoggerIO.

(** What a call does to the logger itself: the outcome, the logger it
    leaves in the registry, and the directories it made. *)
Definition configure (key : string) (log_file : option string)
    (max_bytes backup_count : Z) (fs : file_system) (lv : Z) (l0 : logger)
    : result * logger * list string :=
  match handlers l0 with
  | _ :: _ => (Returned key, setLevel lv l0, [])
  | [] =>
      let l2 := addHandler StreamHandler_stdout (setLevel lv l0) in
      match log_file with
      | Some path =>
          if String.eqb path "" then (Returned key, l2, [])
          else if mkdir_ok fs (parent path) then
            if open_ok fs path then
              (Returned key,
               addHandler (RotatingFileHandler path max_bytes backup_count) l2,
               [parent path])
            else (Raised OSError, l2, [parent path])
          else (Raised OSError, l2, [])
      | None => (Returned key, l2, [])
      end
  end.

Lemma setup_logger_configure name log_file level max_bytes backup_count fs w :
  setup_logger name log_file level max_bytes backup_count fs w
  = let key := logger_key name in
    let l0 := default (fresh_logger key) (loggers w !! key) in
    match logging_level (upper level) with
    | None =>
        (Raised LevelError,
         {| loggers := <[key := l0]> (loggers w); made_dirs := made_dirs w |})
    | Some lv =>
        let '(r, l', dirs) :=
          configure key log_file max_bytes backup_count fs lv l0 in
        (r, {| loggers := <[key := l']> (loggers w);
               made_dirs := made_dirs w ++ dirs |})
    end.
Proof.
  cbn zeta. unfold setup_logger, getLogger, configure.
  destruct (loggers w !! logger_key name) as [l|] eqn:Hl; cbn [default id].
  - destruct (logging_level (upper level)) as [lv|].
    + destruct l as [lv0 [|h hs] pr di]; cbn [setLevel handlers].
      * destruct log_file as [path|];
          [destruct (String.eqb path "");
           [|destruct (mkdir_ok fs (parent path));
             [destruct (open_ok fs path)|]]|];
          cbn [loggers made_dirs];
          rewrite ?insert_insert_eq, ?app_nil_r; reflexivity.
      * now rewrite app_nil_r.
    + f_equal. apply LoggerFacts.world_eq; cbn; [|reflexivity].
      symmetry. now apply insert_id.
  - destruct (logging_level (upper level)) as [lv|]; [|reflexivity].
    cbn [setLevel fresh_logger handlers loggers made_dirs].
    destruct log_file as [path|];
      [destruct (String.eqb path "");
       [|destruct (mkdir_ok fs (parent path));
         [destruct (open_ok fs path)|]]|];
      cbn [loggers made_dirs];
      rewrite ?insert_insert_eq, ?app_nil_r; reflexivity.
Qed.

(** On a file system that grants both requests, [setup_logger] is
    [Logger.setup_logger]. *)
Definition without_OSError (r : Logger.result) : result :=
  match r with
  | Logger.Returned key => Returned key
  | Logger.Raised => Raised LevelError
  end.

Lemma setup_logger_granted name log_file level max_bytes backup_count fs w :
  (forall dir, mkdir_ok fs dir = true) ->
  (forall path, open_ok fs path = true) ->
  setup_logger name log_file level max_bytes backup_count fs w
  = (without_OSError
       (Logger.setup_logger name log_file level max_bytes backup_count w).1,
     (Logger.setup_logger name log_file level max_bytes backup_count w).2).
Proof.
  intros Hmkdir Hopen. unfold setup_logger, Logger.setup_logger.
  destruct (getLogger name w) as [logger0 w1].
  destruct (logging_level (upper level)) as [lv|]; [|reflexivity].
  destruct (handlers (setLevel lv logger0)); [|reflexivity].
  destruct log_file as [path|]; [|reflexivity].
  destruct (String.eqb path ""); [reflexivity|].
  rewrite Hmkdir, Hopen. cbn [fst snd without_OSError loggers made_dirs].
  now rewrite insert_insert_eq.
Qed.

Lemma setLevel_id lv l : Logger.level l = lv -> setLevel lv l = l.
Proof. intros <-. now destruct l. Qed.

Lemma configure_again key log_file max_bytes backup_count fs lv l :
  handlers l <> [] ->
  configure key log_file max_bytes backup_count fs lv l
    = (Returned key, setLevel lv l, []).
Proof. unfold configure. destruct (handlers l); [congruence|reflexivity]. Qed.

(** The logger that a call leaves, whether it returns or raises for the
    file system. *)
Lemma configure_spec key log_file max_bytes backup_count fs lv l0 r l' dirs :
  configure key log_file max_bytes backup_count fs lv l0 = (r, l', dirs) ->
  Logger.level l' = lv /\
  handlers l' <> [] /\
  propagate l' = propagate l0 /\
  disabled l' = disabled l0 /\
  (exists added, handlers l' = handlers l0 ++ added) /\
  (r = Returned key \/
   r = Raised OSError /\ handlers l' = [StreamHandler_stdout]).
Proof.
  unfold configure. destruct l0 as [lv0 [|h hs] pr di]; cbn [handlers setLevel].
  - destruct log_file as [path|];
      [destruct (String.eqb path "");
       [|destruct (mkdir_ok fs (parent path));
         [destruct (open_ok fs path)|]]|];
      intros Hc; inversion Hc; subst; cbn;
      (repeat split; try discriminate; eauto).
  - intros Hc; inversion Hc; subst; cbn.
    repeat split; try discriminate; eauto. exists []. now rewrite app_nil_r.
Qed.

(** When the file system is asked, and when it makes the call raise. *)
Lemma configure_OSError key path max_bytes backup_count fs lv l0 :
  (configure key (Some path) max_bytes backup_count fs lv l0).1.1
    = Raised OSError
  <-> handlers l0 = [] /\ path <> ""%string /\
      (mkdir_ok fs (parent path) = false \/ open_ok fs path = false).
Proof.
  unfold configure. destruct (handlers l0) as [|h hs].
  - destruct (String.eqb path "") eqn:Hp.
    + apply String.eqb_eq in Hp. cbn. split; [discriminate|].
      intros (_ & Hne & _). contradiction.
    + apply String.eqb_neq in Hp.
      destruct (mkdir_ok fs (parent path)); [destruct (open_ok fs path)|]; cbn.
      * split; [discriminate|]. intros (_ & _ & [H|H]); discriminate H.
      * split; auto.
      * split; auto.
  - cbn. split; [discriminate|]. intros (H & _). discriminate H.
Qed.

Lemma configure_not_LevelError key log_file max_bytes backup_count fs lv l0 :
  (configure key log_file max_bytes backup_count fs lv l0).1.1
    <> Raised LevelError.
Proof.
  unfold configure. destruct (handlers l0);
    [destruct log_file as [path|];
     [destruct (String.eqb path "");
      [|destruct (mkdir_ok fs (parent path));
        [destruct (open_ok fs path)|]]|]|]; discriminate.
Qed.

(** A second [setup_logger] call with the same arguments changes
    nothing, whatever the file system does by then: no handler is
    attached twice and no directory is made again.  It ends as the first
    call did, except after a first call that raised [OSError]: that call
    left the console handler attached, so the second call returns the
    logger, which has the console handler and no file handler. *)
Theorem setup_logger_idempotent
    name log_file level max_bytes backup_count fs fs' w :
  let first := setup_logger name log_file level max_bytes backup_count fs w in
  let second :=
    setup_logger name log_file level max_bytes backup_count fs' first.2 in
  second.2 = first.2 /\
  match first.1 with
  | Raised OSError =>
      second.1 = Returned (logger_key name) /\
      exists l, loggers first.2 !! logger_key name = Some l /\
                handlers l = [StreamHandler_stdout]
  | r => second.1 = r
  end.
Proof.
  cbn zeta.
  rewrite (setup_logger_configure name log_file level max_bytes backup_count fs w).
  cbn zeta.
  destruct (logging_level (upper level)) as [lv|] eqn:Hlv.
  - destruct (configure (logger_key name) log_file max_bytes backup_count fs lv
                (default (fresh_logger (logger_key name))
                   (loggers w !! logger_key name)))
      as [[r l'] dirs] eqn:Hc.
    destruct (configure_spec _ _ _ _ _ _ _ _ _ _ Hc)
      as (Hlevel & Hh & _ & _ & _ & Hr).
    rewrite setup_logger_configure. cbn zeta. rewrite Hlv.
    cbn [snd fst loggers made_dirs]. rewrite lookup_insert_eq. cbn [default id].
    rewrite (configure_again _ _ _ _ _ _ _ Hh), (setLevel_id _ _ Hlevel).
    rewrite insert_insert_eq, app_nil_r. cbn [fst snd].
    split; [reflexivity|].
    destruct Hr as [->|[-> Hconsole]]; [reflexivity|].
    split; [reflexivity|]. exists l'. split; [reflexivity|exact Hconsole].
  - rewrite setup_logger_configure. cbn zeta. rewrite Hlv.
    cbn [snd fst loggers made_dirs]. rewrite lookup_insert_eq. cbn [default id].
    rewrite insert_insert_eq. split; reflexivity.
Qed.

(** When [setup_logger] returns, the logger is registered under the
    name, has at least one handler and the level that was asked for; the
    handlers it had are all still there, in front; and the level, the
    handlers, [propagate] and [disabled] of every other registered
    logger are what they were. *)
Theorem setup_logger_returns_configured
    name log_file level max_bytes backup_count fs w key w' :
  setup_logger name log_file level max_bytes backup_count fs w
    = (Returned key, w') ->
  key = logger_key name /\
  (exists l',
     loggers w' !! key = Some l' /\
     handlers l' <> [] /\
     logging_level (upper level) = Some (Logger.level l') /\
     (forall l, loggers w !! key = Some l ->
                exists added, handlers l' = handlers l ++ added /\
                              propagate l' = propagate l /\
                              disabled l' = disabled l)) /\
  (forall k l, k <> key -> loggers w !! k = Some l ->
     exists l2, loggers w' !! k = Some l2 /\
                Logger.level l2 = Logger.level l /\
                handlers l2 = handlers l /\
                propagate l2 = propagate l /\
                disabled l2 = disabled l).
Proof.
  rewrite setup_logger_configure. cbn zeta. intros Hrun.
  destruct (logging_level (upper level)) as [lv|] eqn:Hlv;
    [|discriminate Hrun].
  destruct (configure (logger_key name) log_file max_bytes backup_count fs lv
              (default (fresh_logger (logger_key name))
                 (loggers w !! logger_key name)))
    as [[r l'] dirs] eqn:Hc.
  destruct (configure_spec _ _ _ _ _ _ _ _ _ _ Hc)
    as (Hlevel & Hh & Hp & Hd & (added & Hadd) & Hr).
  destruct Hr as [->|[-> _]]; [|discriminate Hrun].
  inversion Hrun; subst key w'. clear Hrun. cbn [loggers].
  split; [reflexivity|]. split.
  - exists l'. split; [apply lookup_insert_eq|]. split; [exact Hh|].
    split; [now rewrite Hlevel|].
    intros l Hl. rewrite Hl in Hadd, Hp, Hd. cbn [default id] in Hadd, Hp, Hd.
    eauto.
  - intros k l Hk Hl. exists l. rewrite lookup_insert_ne by congruence. auto.
Qed.

(** [get_logger] raises for the level exactly when the environment's
    [LOG_LEVEL], [INFO] when unset, names no level of [logging] once
    upper-cased, so never when it is unset.  It raises [OSError]
    exactly when the level is valid, the logger has no handler yet, the
    log file ([LOG_FILE], [logs/avm.log] when unset) is not the empty
    string, and the file system refuses the directory or the file.  In
    every other case it returns the logger of that name. *)
Theorem get_logger_raises_iff name environ fs w :
  let log_level := default "INFO"%string (environ !! "LOG_LEVEL"%string) in
  let log_file := default "logs/avm.log"%string (environ !! "LOG_FILE"%string) in
  let l0 := default (fresh_logger (logger_key name))
              (loggers w !! logger_key name) in
  ((get_logger name environ fs w).1 = Raised LevelError <->
   logging_level (upper log_level) = None) /\
  ((get_logger name environ fs w).1 = Raised OSError <->
   logging_level (upper log_level) <> None /\
   handlers l0 = [] /\ log_file <> ""%string /\
   (mkdir_ok fs (parent log_file) = false \/ open_ok fs log_file = false)) /\
  ((get_logger name environ fs w).1 = Returned (logger_key name) \/
   (get_logger name environ fs w).1 = Raised LevelError \/
   (get_logger name environ fs w).1 = Raised OSError) /\
  (environ !! "LOG_LEVEL"%string = None ->
   (get_logger name environ fs w).1 <> Raised LevelError).
Proof.
  cbn zeta. unfold get_logger. rewrite setup_logger_configure. cbn zeta.
  set (log_level := default "INFO"%string (environ !! "LOG_LEVEL"%string)).
  set (log_file := default "logs/avm.log"%string (environ !! "LOG_FILE"%string)).
  set (l0 := default (fresh_logger (logger_key name))
               (loggers w !! logger_key name)).
  assert (Hunset : environ !! "LOG_LEVEL"%string = None ->
                   logging_level (upper log_level) = Some INFO).
  { intros Hu. unfold log_level. rewrite Hu. reflexivity. }
  destruct (logging_level (upper log_level)) as [lv|] eqn:Hlv.
  - pose proof (configure_OSError (logger_key name) log_file 10485760 5 fs lv l0)
      as Hos.
    pose proof (configure_not_LevelError (logger_key name) (Some log_file)
                  10485760 5 fs lv l0) as Hnl.
    destruct (configure (logger_key name) (Some log_file) 10485760 5 fs lv l0)
      as [[r l'] dirs] eqn:Hc.
    destruct (configure_spec _ _ _ _ _ _ _ _ _ _ Hc) as (_ & _ & _ & _ & _ & Hr).
    cbn [fst snd] in *. split; [|split; [|split]].
    + split; [intros Hr'; now contradiction Hnl | discriminate].
    + rewrite Hos. split; [intros H; split; [discriminate|exact H]|].
      intros [_ H]. exact H.
    + destruct Hr as [->|[-> _]]; auto.
    + intros _. exact Hnl.
  - cbn [fst]. split; [|split; [|split]].
    + split; reflexivity.
    + split; [discriminate|]. intros [H _]. now contradiction H.
    + auto.
    + intros Hu. specialize (Hunset Hu). discriminate Hunset.
Qed.

End LoggerIOFacts.

(** ** Calendar *)

Module ClockFacts.

(** The year-month stamp at a few known dates: the epoch, the last day
    of 1970, the leap day of 2000 and the day after, and 2026-11-01. *)
Example strftime_Ym_values :
  Clock.strftime_Ym 0 = "197001"%string /\
  Clock.strftime_Ym (364 * Clock.usec_per_day) = "197012"%string /\
  Clock.strftime_Ym (11016 * Clock.usec_per_day + 86399999999) = "200002"%string /\
  Clock.strftime_Ym (11017 * Clock.usec_per_day) = "200003"%string /\
  Clock.strftime_Ym (Scenario.midnight Scenario.nov_1) = "202611"%string.
Proof. repeat split; reflexivity. Qed.

(** [timedelta.days] rounds towards minus infinity. *)
Example timedelta_days_values :
  Clock.timedelta_days (7 * Clock.usec_per_day + 86399999999) 0 = 7 /\
  Clock.timedelta_days (8 * Clock.usec_per_day) 0 = 8 /\
  Clock.timedelta_days 0 1 = -1.
Proof. repeat split; reflexivity. Qed.

End ClockFacts.

(** ** Cache keys *)

Module CacheKeyFacts.

Section facts.
Context {V : Type}.
Implicit Types (kwargs : Py.items V) (x y : string * V).

#[local] Instance item_le_trans : Transitive (@Py.item_le V).
Proof. intros x y z. unfold Py.item_le. apply transitivity. Qed.

#[local] Instance item_le_total : Total (@Py.item_le V).
Proof. intros x y. unfold Py.item_le. apply total, _. Qed.

(** In a dict, the key determines the item. *)
Lemma item_of_key kwargs x y :
  NoDup (map fst kwargs) -> x ∈ kwargs -> y ∈ kwargs -> x.1 = y.1 -> x = y.
Proof.
  induction kwargs as [|z kwargs IH]; intros Hnd Hx Hy Hk.
  - inversion Hx.
  - cbn in Hnd. apply NoDup_cons in Hnd as [Hz Hnd].
    apply elem_of_cons in Hx as [->|Hx];
      apply elem_of_cons in Hy as [->|Hy]; auto.
    + exfalso. apply Hz. rewrite Hk. now apply list_elem_of_fmap_2.
    + exfalso. apply Hz. rewrite <- Hk. now apply list_elem_of_fmap_2.
Qed.

(** Sorting forgets the order in which the items were supplied. *)
Lemma sorted_items_permutation kwargs kwargs' :
  NoDup (map fst kwargs) -> kwargs ≡ₚ kwargs' ->
  Py.sorted_items kwargs = Py.sorted_items kwargs'.
Proof.
  intros Hnd Hperm. unfold Py.sorted_items.
  apply (Sorted_unique_strong (@Py.item_le V)).
  - intros x y Hx Hy Hxy Hyx.
    rewrite merge_sort_Permutation in Hx, Hy. rewrite <- Hperm in Hy.
    apply (item_of_key kwargs); auto.
    unfold Py.item_le in *. now apply (anti_symm String.le).
  - apply Sorted_merge_sort, _.
  - apply Sorted_merge_sort, _.
  - now rewrite !merge_sort_Permutation.
Qed.

Context {T Raw Csv Exn Ext : Type}.
Context (py_str py_repr : V -> string) (repr_str md5_hexdigest : string -> string).

(** C7 (cache-key order independence). Supplying the same keyword
    arguments in another order yields the same key, from the helper
    [generate_cache_key] and from the method of [BaseScraper] alike. *)
Theorem generate_cache_key_order_independent
    (sc : Scraper.BaseScraper V T Raw Exn Ext) (now : Z) (args : list V)
    kwargs kwargs' :
  NoDup (map fst kwargs) ->
  kwargs ≡ₚ kwargs' ->
  Helpers.generate_cache_key py_repr repr_str md5_hexdigest args kwargs
    = Helpers.generate_cache_key py_repr repr_str md5_hexdigest args kwargs' /\
  Scraper.generate_cache_key py_str md5_hexdigest sc now kwargs
    = Scraper.generate_cache_key py_str md5_hexdigest sc now kwargs'.
Proof.
  intros Hnd Hperm.
  unfold Helpers.generate_cache_key, Scraper.generate_cache_key.
  now rewrite (sorted_items_permutation _ _ Hnd Hperm).
Qed.
End facts.

(** C7 at [a=1, b=2] and [b=2, a=1]. *)
Lemma generate_cache_key_order_witness :
  NoDup (map fst Scenario.a1_b2) /\
  Scenario.a1_b2 ≡ₚ Scenario.b2_a1 /\
  Helpers.generate_cache_key Clock.decimal Scenario.repr_key Scenario.digest
      [] Scenario.a1_b2
    = Helpers.generate_cache_key Clock.decimal Scenario.repr_key Scenario.digest
        [] Scenario.b2_a1 /\
  Scraper.generate_cache_key Clock.decimal Scenario.digest
      (Scenario.RedfinScraper true 7) (Scenario.midnight Scenario.nov_1)
      Scenario.a1_b2
    = Scraper.generate_cache_key Clock.decimal Scenario.digest
        (Scenario.RedfinScraper true 7) (Scenario.midnight Scenario.nov_1)
        Scenario.b2_a1.
Proof.
  assert (Hnd : NoDup (map fst Scenario.a1_b2)).
  { cbn. apply NoDup_cons. split.
    - intros Hin. apply list_elem_of_singleton in Hin. discriminate Hin.
    - apply NoDup_singleton. }
  assert (Hperm : Scenario.a1_b2 ≡ₚ Scenario.b2_a1) by apply perm_swap.
  split; [exact Hnd|]. split; [exact Hperm|].
  exact (generate_cache_key_order_independent Clock.decimal Clock.decimal
           Scenario.repr_key Scenario.digest
           (Scenario.RedfinScraper true 7) (Scenario.midnight Scenario.nov_1)
           [] Scenario.a1_b2 Scenario.b2_a1 Hnd Hperm).
Defined.

(** The keys themselves, for the digest of the examples. *)
Example generate_cache_key_values :
  Helpers.generate_cache_key Clock.decimal Scenario.repr_key Scenario.digest
      [5; 6] Scenario.b2_a1 = "(5, 6)_[('a', 1), ('b', 2)]"%string /\
  Scraper.generate_cache_key Clock.decimal Scenario.digest
      (Scenario.RedfinScraper true 7) (Scenario.midnight Scenario.nov_1)
      Scenario.b2_a1 = "redfinscraper_202611_a=1_b=2"%string.
Proof. split; reflexivity. Qed.

End CacheKeyFacts.

(** ** Validation of tables *)

Module FrameFacts.
Import Frame.

Section facts.
Context {V : Type} `{EqDecision V}.
Implicit Types (df : DataFrame V) (r : row V) (rs : list (row V)).
Implicit Types (key : row V -> cell V) (seen : list (cell V)).
Implicit Types (required subset : list string) (c : string).

(** *** Keeping the first row of every key *)

Lemma keep_first_first key rs : forall seen r,
  r ∈ keep_first key seen rs ->
  (key r ∉ seen) /\
  (exists l1 l2, rs = l1 ++ r :: l2 /\ forall r', r' ∈ l1 -> key r' <> key r).
Proof.
  induction rs as [|r0 rs IH]; intros seen r Hin; cbn in Hin.
  - inversion Hin.
  - destruct (decide (key r0 ∈ seen)) as [Hseen|Hnew].
    + destruct (IH _ _ Hin) as (Hr & l1 & l2 & -> & Hl1).
      split; [exact Hr|]. exists (r0 :: l1), l2. split; [reflexivity|].
      intros r' [->|Hr']%elem_of_cons; [congruence|auto].
    + apply elem_of_cons in Hin as [->|Hin].
      * split; [exact Hnew|]. exists [], rs. split; [reflexivity|].
        intros r' Hr'. inversion Hr'.
      * destruct (IH _ _ Hin) as (Hr & l1 & l2 & -> & Hl1).
        split; [intros Hs; apply Hr; now right|].
        exists (r0 :: l1), l2. split; [reflexivity|].
        intros r' [->|Hr']%elem_of_cons; [|auto].
        intros Heq. apply Hr. rewrite Heq. now left.
Qed.

Lemma keep_first_NoDup key rs : forall seen,
  NoDup (map key (keep_first key seen rs)).
Proof.
  induction rs as [|r0 rs IH]; intros seen; cbn.
  - constructor.
  - destruct (decide (key r0 ∈ seen)); [apply IH|].
    cbn. apply NoDup_cons. split; [|apply IH].
    intros (r & Hk & Hr)%list_elem_of_fmap.
    apply keep_first_first in Hr as [Hr _]. apply Hr. rewrite Hk. now left.
Qed.

Lemma keep_first_complete key l1 : forall rs seen r l2,
  rs = l1 ++ r :: l2 -> key r ∉ seen ->
  (forall r', r' ∈ l1 -> key r' <> key r) ->
  r ∈ keep_first key seen rs.
Proof.
  induction l1 as [|r0 l1 IH]; intros rs seen r l2 -> Hnew Hl1; cbn.
  - destruct (decide (key r ∈ seen)); [contradiction|now left].
  - assert (Hr0 : key r0 <> key r) by (apply Hl1; now left).
    assert (Hrest : forall r', r' ∈ l1 -> key r' <> key r)
      by (intros r' Hr'; apply Hl1; now right).
    destruct (decide (key r0 ∈ seen)).
    + eapply IH; eauto.
    + right. eapply IH; eauto.
      intros [Heq|Hs]%elem_of_cons; [congruence|contradiction].
Qed.

Lemma NoDup_map_filter {A B} (f : A -> B) (p : A -> bool) (l : list A) :
  NoDup (map f l) -> NoDup (map f (List.filter p l)).
Proof.
  induction l as [|a l IH]; cbn; [auto|].
  intros [Ha Hl]%NoDup_cons. destruct (p a); cbn; [|auto].
  apply NoDup_cons. split; [|auto].
  intros (b & Hb & Hin)%list_elem_of_fmap. apply Ha. rewrite Hb.
  apply list_elem_of_fmap_2.
  apply list_elem_of_In, filter_In in Hin as [Hin _].
  now apply list_elem_of_In.
Qed.

(** *** The steps of [validate_data] *)

Lemma missing_nil df required :
  filter (fun c => c ∉ columns df) (remove_dups required) = [] <->
  forall c, c ∈ required -> c ∈ columns df.
Proof.
  split.
  - intros Hnil c Hc. destruct (decide (c ∈ columns df)) as [Hy|Hn]; [exact Hy|].
    exfalso. apply (not_elem_of_nil c). rewrite <- Hnil.
    apply list_elem_of_filter. split; [exact Hn|].
    now apply elem_of_remove_dups.
  - intros Hall. apply elem_of_nil_inv. intros c Hc.
    apply list_elem_of_filter in Hc as [Hn Hc].
    rewrite elem_of_remove_dups in Hc. auto.
Qed.

Lemma missing_elem df required c :
  c ∈ filter (fun c => c ∉ columns df) (remove_dups required) <->
  c ∈ required /\ c ∉ columns df.
Proof. rewrite list_elem_of_filter, elem_of_remove_dups. tauto. Qed.

Lemma drop_duplicates_address_ok df :
  empty df = true \/ "address"%string ∈ columns df ->
  exists df1, drop_duplicates_address df = inr df1 /\
              columns df1 = columns df.
Proof.
  intros Hok. unfold drop_duplicates_address.
  destruct (empty df) eqn:He; [eauto|].
  destruct Hok as [Hf|Ha]; [discriminate Hf|].
  destruct (decide (_ ∈ _)); [eauto|contradiction].
Qed.

Lemma drop_duplicates_address_rows df :
  "address"%string ∈ columns df ->
  drop_duplicates_address df
    = inr {| columns := columns df;
             rows := keep_first (at_column df "address") [] (rows df) |}.
Proof.
  intros Ha. unfold drop_duplicates_address.
  destruct (decide (_ ∈ _)); [|contradiction].
  destruct (empty df) eqn:He; [|reflexivity].
  destruct df as [cols rs]. unfold empty in He. cbn in *.
  destruct rs; [reflexivity|]. destruct cols; [inversion Ha|discriminate He].
Qed.

Lemma dropna_ok df subset :
  (forall c, c ∈ subset -> c ∈ columns df) ->
  dropna df subset
    = inr {| columns := columns df;
             rows := List.filter (fun r => negb (has_null df subset r))
                       (rows df) |}.
Proof.
  intros Hall. unfold dropna.
  assert (Hnil : filter (fun c => c ∉ columns df) subset = []).
  { apply elem_of_nil_inv. intros c [Hn Hc]%list_elem_of_filter. auto. }
  now rewrite Hnil.
Qed.

Lemma has_null_false df subset r :
  has_null df subset r = false <->
  forall c, c ∈ subset -> at_column df c r <> None.
Proof.
  unfold has_null. split.
  - intros Hn c Hc Hnone.
    assert (Ht : existsb (fun c => match at_column df c r with
                                    | None => true | Some _ => false end)
                   subset = true).
    { apply existsb_exists. exists c. split; [now apply list_elem_of_In|].
      now rewrite Hnone. }
    congruence.
  - intros Hall. apply not_true_is_false.
    intros (c & Hc & Hm)%existsb_exists.
    apply list_elem_of_In in Hc. specialize (Hall c Hc).
    destruct (at_column df c r); [discriminate Hm|congruence].
Qed.

(** What [validate_data] returns for a table with all the required
    columns and an [address] column. *)
Lemma validate_data_rows df required :
  "address"%string ∈ columns df ->
  (forall c, c ∈ required -> c ∈ columns df) ->
  (validate_data df required).1
    = inr {| columns := columns df;
             rows := List.filter (fun r => negb (has_null df required r))
                       (keep_first (at_column df "address") [] (rows df)) |}.
Proof.
  intros Ha Hall. unfold validate_data.
  apply missing_nil in Hall as Hnil. rewrite Hnil.
  rewrite (drop_duplicates_address_rows df Ha).
  destruct (_ <? _); (rewrite dropna_ok; [reflexivity | exact Hall]).
Qed.

(** C5, as the code has it.  For a table that is empty or has an
    [address] column: [validate_data] fails with the schema error
    that names the missing columns exactly when a required column is
    absent, and returns a table when no required column is absent. *)
Theorem validate_data_schema_error df required :
  empty df = true \/ "address"%string ∈ columns df ->
  ((exists missing,
      (validate_data df required).1 = inl (ValueError_missing missing) /\
      missing <> [] /\
      (forall c, c ∈ missing <-> c ∈ required /\ c ∉ columns df))
   <-> (exists c, c ∈ required /\ c ∉ columns df)) /\
  ((forall c, c ∈ required -> c ∈ columns df) ->
   exists df', (validate_data df required).1 = inr df').
Proof.
  intros Hok. unfold validate_data.
  destruct (filter (fun c => c ∉ columns df) (remove_dups required))
    as [|m ms] eqn:Hmiss.
  - pose proof (proj1 (missing_nil df required) Hmiss) as Hall.
    destruct (drop_duplicates_address_ok df Hok) as (df1 & -> & Hcols).
    assert (Hall1 : forall c, c ∈ required -> c ∈ columns df1)
      by (rewrite Hcols; exact Hall).
    rewrite (dropna_ok df1 required Hall1).
    split; [split|].
    + intros (missing & Hres & _). destruct (_ <? _); discriminate Hres.
    + intros (c & Hc & Hn). exfalso. auto.
    + intros _. destruct (_ <? _); eauto.
  - split; [split|].
    + intros _. exists m. apply (missing_elem df required m).
      rewrite Hmiss. now left.
    + intros _. exists (m :: ms). split; [reflexivity|].
      split; [discriminate|].
      intros c. rewrite <- Hmiss. apply missing_elem.
    + intros Hall. apply missing_nil in Hall. congruence.
Qed.

(** C6, as the code has it.  For a table with an [address] column
    and all the required columns, [validate_data] returns a table
    with the same columns in which no two rows share an address and
    no row has a null in a required column; every row it retains is
    the first of the input with its address, and the first row of an
    address is retained exactly when it has no null in a required
    column. *)
Theorem validate_data_clean df required :
  "address"%string ∈ columns df ->
  (forall c, c ∈ required -> c ∈ columns df) ->
  exists df',
    (validate_data df required).1 = inr df' /\
    columns df' = columns df /\
    NoDup (map (at_column df "address") (rows df')) /\
    (forall r c, r ∈ rows df' -> c ∈ required -> at_column df c r <> None) /\
    (forall r, r ∈ rows df' ->
       exists l1 l2, rows df = l1 ++ r :: l2 /\
         forall r', r' ∈ l1 ->
           at_column df "address" r' <> at_column df "address" r) /\
    (forall l1 r l2,
       rows df = l1 ++ r :: l2 ->
       (forall r', r' ∈ l1 ->
          at_column df "address" r' <> at_column df "address" r) ->
       (r ∈ rows df' <->
        forall c, c ∈ required -> at_column df c r <> None)).
Proof.
  intros Ha Hall. eexists. split; [apply validate_data_rows; assumption|].
  cbn [columns rows]. split; [reflexivity|].
  split; [apply NoDup_map_filter, keep_first_NoDup|].
  split; [|split].
  - intros r c Hr Hc.
    apply list_elem_of_In, filter_In in Hr as [_ Hr].
    apply negb_true_iff in Hr.
      pose proof (proj1 (has_null_false df required r) Hr). auto.
  - intros r Hr.
    apply list_elem_of_In, filter_In in Hr as [Hr _].
    apply list_elem_of_In, keep_first_first in Hr as [_ Hr]. exact Hr.
  - intros l1 r l2 Hrows Hfirst. split.
    + intros Hr c Hc.
      apply list_elem_of_In, filter_In in Hr as [_ Hr].
      apply negb_true_iff in Hr.
      pose proof (proj1 (has_null_false df required r) Hr). auto.
    + intros Hnn. apply list_elem_of_In, filter_In. split.
      * apply list_elem_of_In.
        eapply keep_first_complete; [exact Hrows | apply not_elem_of_nil | exact Hfirst].
      * apply negb_true_iff, has_null_false. exact Hnn.
Qed.
(** *** Validation again, and the geographic filter *)

Lemma keep_first_id key rs : forall seen,
  NoDup (map key rs) ->
  (forall r, r ∈ rs -> key r ∉ seen) ->
  keep_first key seen rs = rs.
Proof.
  induction rs as [|r0 rs IH]; intros seen Hnd Hseen; [reflexivity|]. cbn.
  cbn in Hnd. apply NoDup_cons in Hnd as [Hr0 Hnd].
  destruct (decide (key r0 ∈ seen)) as [Hin|_].
  - exfalso. apply (Hseen r0); [now left|exact Hin].
  - f_equal. apply IH; [exact Hnd|]. intros r Hr [Heq|Hin]%elem_of_cons.
    + apply Hr0. rewrite <- Heq. now apply list_elem_of_fmap_2.
    + apply (Hseen r); [now right|exact Hin].
Qed.

Lemma keep_first_sublist key rs : forall seen,
  keep_first key seen rs `sublist_of` rs.
Proof.
  induction rs as [|r0 rs IH]; intros seen; cbn; [constructor|].
  destruct (decide (key r0 ∈ seen)); [apply sublist_cons|apply sublist_skip];
    apply IH.
Qed.

Lemma filter_bool_sublist {A} (p : A -> bool) (l : list A) :
  List.filter p l `sublist_of` l.
Proof.
  induction l as [|a l IH]; cbn; [constructor|].
  destruct (p a); [now apply sublist_skip|now apply sublist_cons].
Qed.

Lemma filter_bool_twice {A} (p : A -> bool) (l : list A) :
  List.filter p (List.filter p l) = List.filter p l.
Proof.
  induction l as [|a l IH]; cbn; [reflexivity|].
  destruct (p a) eqn:Hp; cbn; [rewrite Hp; now f_equal|exact IH].
Qed.

Lemma sublist_elem {A} (l1 l2 : list A) (x : A) :
  l1 `sublist_of` l2 -> x ∈ l1 -> x ∈ l2.
Proof.
  induction 1 as [|y l1 l2 _ IH|y l1 l2 _ IH]; intros Hx; [exact Hx| |].
  - apply elem_of_cons in Hx as [->|Hx]; [now left|right; auto].
  - right. auto.
Qed.

Lemma sublist_map_NoDup {A B} (f : A -> B) (l1 l2 : list A) :
  l1 `sublist_of` l2 -> NoDup (map f l2) -> NoDup (map f l1).
Proof.
  induction 1 as [|y l1 l2 Hsub IH|y l1 l2 Hsub IH]; cbn; intros Hnd.
  - exact Hnd.
  - apply NoDup_cons in Hnd as [Hy Hnd]. apply NoDup_cons. split; [|auto].
    intros (x & Hfx & Hx)%list_elem_of_fmap. apply Hy. rewrite Hfx.
    apply list_elem_of_fmap_2. eapply sublist_elem; eauto.
  - apply NoDup_cons in Hnd as [_ Hnd]. auto.
Qed.

(** Validating a validated table returns it as it is. *)
Lemma validate_data_fixpoint df required df' :
  "address"%string ∈ columns df ->
  (forall c, c ∈ required -> c ∈ columns df) ->
  (validate_data df required).1 = inr df' ->
  (validate_data df' required).1 = inr df'.
Proof.
  intros Ha Hall Hres.
  rewrite (validate_data_rows df required Ha Hall) in Hres.
  inversion Hres as [Hdf']. clear Hres.
  rewrite validate_data_rows; cbn [columns]; [|exact Ha|exact Hall].
  f_equal. f_equal. cbn [rows].
  change (at_column {| columns := columns df; rows := _ |})
    with (at_column df).
  change (has_null {| columns := columns df; rows := _ |})
    with (has_null df).
  rewrite keep_first_id.
  - apply filter_bool_twice.
  - apply NoDup_map_filter, keep_first_NoDup.
  - intros r _. apply not_elem_of_nil.
Qed.

(** [validate_data] is idempotent: on a table with an [address] column
    and all required columns, a second validation returns the table of
    the first unchanged. *)
Theorem validate_data_idempotent df required df' :
  "address"%string ∈ columns df ->
  (forall c, c ∈ required -> c ∈ columns df) ->
  (validate_data df required).1 = inr df' ->
  (validate_data df' required).1 = inr df'.
Proof. apply validate_data_fixpoint. Qed.

(** [validate_data] only removes rows: whenever it returns, the rows of
    the result are rows of the input, in the order of the input, and the
    columns are those of the input. *)
Theorem validate_data_only_removes_rows df required df' :
  (validate_data df required).1 = inr df' ->
  columns df' = columns df /\ rows df' `sublist_of` rows df.
Proof.
  unfold validate_data.
  destruct (filter _ (remove_dups required)) as [|m ms]; [|discriminate].
  unfold drop_duplicates_address.
  assert (Hdrop : forall df1,
            dropna df1 required = inr df' ->
            columns df' = columns df1 /\ rows df' `sublist_of` rows df1).
  { intros df1. unfold dropna.
    destruct (filter _ required); [|discriminate].
    intros Heq. inversion Heq; subst. cbn. split; [reflexivity|].
    apply filter_bool_sublist. }
  destruct (empty df).
  - destruct (_ <? _); cbn; destruct (dropna df required) eqn:Hd;
      try discriminate; intros Heq; inversion Heq; subst; now apply Hdrop.
  - destruct (decide (_ ∈ _)); [|discriminate].
    set (df1 := {| columns := columns df; rows := _ |}).
    destruct (_ <? _); cbn; destruct (dropna df1 required) eqn:Hd;
      try discriminate; intros Heq; inversion Heq; subst;
      destruct (Hdrop _ Hd) as [Hc Hr]; (split; [exact Hc|]);
      (etransitivity; [exact Hr|apply keep_first_sublist]).
Qed.

Section geography.
Context (as_float : V -> option Q).
Implicit Types (lat_min lat_max lon_min lon_max lo hi : Q).

Lemma between_spec df c lo hi r :
  between as_float df c lo hi r = true <->
  exists v q, at_column df c r = Some v /\ as_float v = Some q /\
              (lo <= q)%Q /\ (q <= hi)%Q.
Proof.
  unfold between. destruct (at_column df c r) as [v|].
  - destruct (as_float v) as [q|] eqn:Hq.
    + rewrite andb_true_iff, !Qle_bool_iff. split.
      * intros [H1 H2]. now exists v, q.
      * intros (v' & q' & Hv & Hq' & H1 & H2). inversion Hv; subst v'.
        assert (Heq : Some q = Some q') by congruence.
        inversion Heq; subst. auto.
    + split; [discriminate|]. intros (v' & q' & Hv & Hq' & _).
      inversion Hv; subst. congruence.
  - split; [discriminate|]. intros (v' & q' & Hv & _). discriminate Hv.
Qed.

Lemma numeric_column_sublist df c rs :
  rs `sublist_of` rows df ->
  numeric_column as_float df c = true ->
  numeric_column as_float {| columns := columns df; rows := rs |} c = true.
Proof.
  intros Hsub. unfold numeric_column. rewrite !forallb_forall. cbn [rows].
  intros Hall r Hr. apply (Hall r).
  apply list_elem_of_In. eapply sublist_elem; [exact Hsub|].
  now apply list_elem_of_In.
Qed.

(** What [filter_geography] returns for a table with both coordinate
    columns, when no comparison raises. *)
Lemma filter_geography_box df lat_min lat_max lon_min lon_max df' :
  "lat"%string ∈ columns df -> "lon"%string ∈ columns df ->
  (filter_geography as_float df lat_min lat_max lon_min lon_max).1 = inr df' ->
  numeric_column as_float df "lat" = true /\
  numeric_column as_float df "lon" = true /\
  df' = {| columns := columns df;
           rows := List.filter
                     (fun r => between as_float df "lat" lat_min lat_max r
                               && between as_float df "lon" lon_min lon_max r)
                     (rows df) |}.
Proof.
  intros Hlat Hlon. unfold filter_geography.
  destruct (decide (_ \/ _)) as [[Hn|Hn]|_]; [contradiction..|].
  destruct (numeric_column as_float df "lat"); [|discriminate].
  destruct (numeric_column as_float df "lon"); [|discriminate].
  cbn. intros Heq. inversion Heq. auto.
Qed.

Lemma filter_geography_sublist df lat_min lat_max lon_min lon_max df' :
  (filter_geography as_float df lat_min lat_max lon_min lon_max).1 = inr df' ->
  columns df' = columns df /\ rows df' `sublist_of` rows df.
Proof.
  unfold filter_geography.
  destruct (decide (_ \/ _)) as [_|_].
  - cbn. intros Heq. inversion Heq; subst. auto.
  - destruct (numeric_column as_float df "lat"); [|discriminate].
    destruct (numeric_column as_float df "lon"); [|discriminate].
    cbn. intros Heq. inversion Heq; subst. cbn. split; [reflexivity|].
    apply filter_bool_sublist.
Qed.

(** On a table with [lat] and [lon] columns, [filter_geography] retains
    exactly the rows whose latitude and longitude are numbers inside the
    box, bounds included, in their order; a row with a null coordinate is
    never retained. *)
Theorem filter_geography_retains_box df lat_min lat_max lon_min lon_max df' :
  "lat"%string ∈ columns df -> "lon"%string ∈ columns df ->
  (filter_geography as_float df lat_min lat_max lon_min lon_max).1 = inr df' ->
  columns df' = columns df /\
  rows df' `sublist_of` rows df /\
  (forall r,
     r ∈ rows df' <->
     r ∈ rows df /\
     (exists v q, at_column df "lat" r = Some v /\ as_float v = Some q /\
                  (lat_min <= q)%Q /\ (q <= lat_max)%Q) /\
     (exists v q, at_column df "lon" r = Some v /\ as_float v = Some q /\
                  (lon_min <= q)%Q /\ (q <= lon_max)%Q)).
Proof.
  intros Hlat Hlon Hres.
  destruct (filter_geography_sublist _ _ _ _ _ _ Hres) as [Hcols Hsub].
  split; [exact Hcols|]. split; [exact Hsub|].
  destruct (filter_geography_box _ _ _ _ _ _ Hlat Hlon Hres) as (_ & _ & ->).
  intros r. cbn [rows].
  rewrite list_elem_of_In, filter_In, andb_true_iff, !between_spec,
    <- list_elem_of_In.
  reflexivity.
Qed.

(** Filtering a filtered table with the same box returns it unchanged. *)
Theorem filter_geography_idempotent df lat_min lat_max lon_min lon_max df' :
  (filter_geography as_float df lat_min lat_max lon_min lon_max).1 = inr df' ->
  (filter_geography as_float df' lat_min lat_max lon_min lon_max).1 = inr df'.
Proof.
  intros Hres. pose proof Hres as Hres0. revert Hres. unfold filter_geography.
  destruct (decide ("lat"%string ∉ columns df \/ "lon"%string ∉ columns df))
    as [Hno|Hyes].
  - cbn. intros Heq. inversion Heq; subst.
    destruct (decide (_ \/ _)); [reflexivity|contradiction].
  - destruct (numeric_column as_float df "lat") eqn:Hnlat; [|discriminate].
    destruct (numeric_column as_float df "lon") eqn:Hnlon; [|discriminate].
    cbn. intros Heq. inversion Heq as [Hdf']. clear Heq.
    cbn [columns].
    destruct (decide (_ \/ _)) as [Hno|_]; [contradiction|].
    rewrite !numeric_column_sublist
      by (try assumption; apply filter_bool_sublist).
    cbn. f_equal. f_equal.
    change (between as_float {| columns := columns df; rows := _ |})
      with (between as_float df).
    apply filter_bool_twice.
Qed.

(** The geographic filter keeps a validated table validated: after
    [validate_data] and then [filter_geography], no two rows share an
    address and no row has a null in a required column. *)
Theorem filter_geography_keeps_validated
    df required df1 lat_min lat_max lon_min lon_max df2 :
  "address"%string ∈ columns df ->
  (forall c, c ∈ required -> c ∈ columns df) ->
  (validate_data df required).1 = inr df1 ->
  (filter_geography as_float df1 lat_min lat_max lon_min lon_max).1 = inr df2 ->
  columns df2 = columns df /\
  NoDup (map (at_column df "address") (rows df2)) /\
  (forall r c, r ∈ rows df2 -> c ∈ required -> at_column df c r <> None).
Proof.
  intros Ha Hall Hval Hgeo.
  rewrite (validate_data_rows df required Ha Hall) in Hval.
  inversion Hval as [Hdf1]. clear Hval.
  destruct (filter_geography_sublist _ _ _ _ _ _ Hgeo) as [Hcols Hsub].
  rewrite <- Hdf1 in Hcols, Hsub. cbn [columns rows] in Hcols, Hsub.
  split; [exact Hcols|]. split.
  - eapply sublist_map_NoDup; [exact Hsub|].
    apply NoDup_map_filter, keep_first_NoDup.
  - intros r c Hr Hc. eapply sublist_elem in Hr; [|exact Hsub].
    apply list_elem_of_In, filter_In in Hr as [_ Hr].
    apply negb_true_iff in Hr.
    pose proof (proj1 (has_null_false df required r) Hr). auto.
Qed.
End geography.

End facts.

(** C5 fails as stated: [prices_only] has its one required column,
    and [validate_data] raises the [KeyError] of [drop_duplicates]. *)
Lemma validate_data_without_address_raises :
  (forall c, c ∈ ["price"%string] -> c ∈ columns Scenario.prices_only) /\
  (validate_data Scenario.prices_only ["price"%string]).1
    = inl (KeyError ["address"%string]) /\
  ~ (exists df', (validate_data Scenario.prices_only ["price"%string]).1 = inr df').
Proof.
  split; [|split].
  - intros c Hc. exact Hc.
  - reflexivity.
  - intros (df' & Hdf'). vm_compute in Hdf'. discriminate Hdf'.
Qed.

(** C5, as the code has it, at [listings]. *)
Lemma validate_data_schema_error_witness :
  (empty Scenario.listings = true \/
   "address"%string ∈ columns Scenario.listings) /\
  (forall c, c ∈ ["address"; "price"]%string -> c ∈ columns Scenario.listings) /\
  exists df',
    (validate_data Scenario.listings ["address"; "price"]%string).1 = inr df'.
Proof.
  assert (Hok : empty Scenario.listings = true \/
                "address"%string ∈ columns Scenario.listings)
    by (right; left).
  assert (Hall : forall c, c ∈ ["address"; "price"]%string ->
                           c ∈ columns Scenario.listings)
    by (intros c Hc; exact Hc).
  split; [exact Hok|]. split; [exact Hall|].
  exact (proj2 (validate_data_schema_error Scenario.listings
                  ["address"; "price"]%string Hok) Hall).
Defined.

(** A missing required column is named by the error. *)
Example validate_data_names_missing :
  (validate_data Scenario.prices_only ["price"; "zip"; "zip"]%string).1
    = inl (ValueError_missing ["zip"%string]).
Proof. reflexivity. Qed.

(** C6 fails as stated: the two rows of [first_lacks_price] share the
    address 123 Main St; the first is kept by the deduplication and then
    dropped for its null price, so that no row of that address is
    retained. *)
Lemma validate_data_drops_first_occurrence :
  rows Scenario.first_lacks_price
    = [[Some "123 Main St"; None];
       [Some "123 Main St"; Some "455000"]]%string /\
  (forall c, c ∈ ["address"; "price"]%string ->
             c ∈ columns Scenario.first_lacks_price) /\
  (validate_data Scenario.first_lacks_price ["address"; "price"]%string).1
    = inr {| columns := ["address"; "price"]%string; rows := [] |}.
Proof.
  split; [reflexivity|]. split; [|reflexivity].
  intros c Hc. exact Hc.
Qed.

(** C6, as the code has it, at [listings]: of the two rows at 123 Main
    St the first is retained. *)
Lemma validate_data_clean_witness :
  "address"%string ∈ columns Scenario.listings /\
  (forall c, c ∈ ["address"; "price"]%string -> c ∈ columns Scenario.listings) /\
  exists df',
    (validate_data Scenario.listings ["address"; "price"]%string).1 = inr df' /\
    rows df' = [[Some "123 Main St"; Some "450000"];
                [Some "9 Elm Ave"; Some "310000"]]%string /\
    NoDup (map (at_column Scenario.listings "address") (rows df')).
Proof.
  assert (Ha : "address"%string ∈ columns Scenario.listings) by left.
  assert (Hall : forall c, c ∈ ["address"; "price"]%string ->
                           c ∈ columns Scenario.listings)
    by (intros c Hc; exact Hc).
  split; [exact Ha|]. split; [exact Hall|].
  destruct (validate_data_clean Scenario.listings ["address"; "price"]%string
              Ha Hall) as (df' & Hres & _ & Hnd & _).
  exists df'. split; [exact Hres|]. split; [|exact Hnd].
  vm_compute in Hres. inversion Hres. reflexivity.
Defined.

End FrameFacts.

(** ** The scraper's cache *)

Module ScraperFacts.
Import Scraper.

Section facts.
Context {V T Raw Csv Exn Ext : Type}.
Context (py_str : V -> string) (md5_hexdigest : string -> string)
        (to_csv : T -> Csv) (read_csv : Csv -> Exn + T).
Implicit Types (sc : BaseScraper V T Raw Exn Ext) (fs : gmap string (file Csv)).
Implicit Types (w : world Csv Ext) (kwargs : Py.items V) (clk : clock).

Local Abbreviation get_cached_data := (Scraper.get_cached_data read_csv).
Local Abbreviation save_to_cache := (Scraper.save_to_cache to_csv).
Local Abbreviation generate_cache_key := (Scraper.generate_cache_key py_str md5_hexdigest).
Local Abbreviation scrape := (Scraper.scrape py_str md5_hexdigest to_csv read_csv).

Lemma timedelta_days_exact (now mtime days : Z) :
  now - mtime = days * Clock.usec_per_day ->
  Clock.timedelta_days now mtime = days.
Proof.
  intros Hd. unfold Clock.timedelta_days. rewrite Hd.
  apply Z.div_mul. discriminate.
Qed.

Lemma cached_not_absent (r : Exn + T) : cached r <> inr None.
Proof. destruct r; discriminate. Qed.

(** The three ways out of [get_cached_data] when caching is enabled. *)
Lemma get_cached_data_miss sc cache_key now fs :
  cache_enabled sc = true ->
  fs !! cache_file sc cache_key = None ->
  get_cached_data sc cache_key now fs
    = (inr None, [Exists (cache_file sc cache_key); Log_cache_miss cache_key]).
Proof. intros He Hf. unfold Scraper.get_cached_data. now rewrite He, Hf. Qed.

Lemma get_cached_data_stale sc cache_key now fs f :
  cache_enabled sc = true ->
  fs !! cache_file sc cache_key = Some f ->
  cache_ttl_days sc < Clock.timedelta_days now (st_mtime f) ->
  get_cached_data sc cache_key now fs
    = (inr None,
       [Exists (cache_file sc cache_key); Stat (cache_file sc cache_key);
        Log_cache_stale (Clock.timedelta_days now (st_mtime f)) cache_key]).
Proof.
  intros He Hf Hage. unfold Scraper.get_cached_data. rewrite He, Hf. cbn.
  destruct (Z.gtb_spec (Clock.timedelta_days now (st_mtime f)) (cache_ttl_days sc));
    [reflexivity|lia].
Qed.

Lemma get_cached_data_hit sc cache_key now fs f :
  cache_enabled sc = true ->
  fs !! cache_file sc cache_key = Some f ->
  Clock.timedelta_days now (st_mtime f) <= cache_ttl_days sc ->
  get_cached_data sc cache_key now fs
    = (cached (read_csv (content f)),
       [Exists (cache_file sc cache_key); Stat (cache_file sc cache_key);
        Log_cache_hit (Clock.timedelta_days now (st_mtime f)) cache_key;
        Read (cache_file sc cache_key)]).
Proof.
  intros He Hf Hage. unfold Scraper.get_cached_data. rewrite He, Hf. cbn.
  destruct (Z.gtb_spec (Clock.timedelta_days now (st_mtime f)) (cache_ttl_days sc));
    [lia|reflexivity].
Qed.

Lemma get_cached_data_absent_iff sc cache_key now fs :
  cache_enabled sc = true ->
  (get_cached_data sc cache_key now fs).1 = inr None <->
  ~ fresh sc cache_key now fs.
Proof.
  intros He. unfold fresh.
  destruct (fs !! cache_file sc cache_key) as [f|] eqn:Hf.
  - destruct (Z_le_gt_dec (Clock.timedelta_days now (st_mtime f)) (cache_ttl_days sc))
      as [Hle|Hgt].
    + rewrite (get_cached_data_hit _ _ _ _ _ He Hf Hle). cbn. split.
      * intros Habs. now apply cached_not_absent in Habs.
      * intros Hn. exfalso. apply Hn. eauto.
    + rewrite (get_cached_data_stale _ _ _ _ _ He Hf); [|lia]. cbn. split; [|auto].
      intros _ (f' & Hf' & Hle). inversion Hf'; subst. lia.
  - rewrite (get_cached_data_miss _ _ _ _ He Hf). cbn. split; [|auto].
    intros _ (f' & Hf' & _). discriminate Hf'.
Qed.

Lemma get_cached_data_no_fetch sc cache_key now fs :
  fetch_count (get_cached_data sc cache_key now fs).2 = 0%nat.
Proof.
  unfold Scraper.get_cached_data.
  destruct (cache_enabled sc); [|reflexivity]. cbn.
  destruct (fs !! _); [|reflexivity].
  destruct (_ >? _); reflexivity.
Qed.

Lemma fetch_count_app (tr1 tr2 : list (event V)) :
  fetch_count (tr1 ++ tr2) = (fetch_count tr1 + fetch_count tr2)%nat.
Proof. unfold fetch_count. now rewrite List.filter_app, length_app. Qed.

(** C4, as the code has it.  For a scraper with caching enabled, every
    cache key and every time-to-live: [get_cached_data] returns what
    [pd.read_csv] makes of the cache file when the file exists and its
    age in whole days is at most the time-to-live, and the absent result
    in every other case; a file aged the time-to-live to the microsecond
    is fresh, and one a day older is stale. *)
Theorem get_cached_data_ttl_boundary sc cache_key now fs :
  cache_enabled sc = true ->
  (forall f, fs !! cache_file sc cache_key = Some f ->
     Clock.timedelta_days now (st_mtime f) <= cache_ttl_days sc ->
     (get_cached_data sc cache_key now fs).1 = cached (read_csv (content f))) /\
  ((get_cached_data sc cache_key now fs).1 = inr None <->
     ~ fresh sc cache_key now fs) /\
  (forall f, fs !! cache_file sc cache_key = Some f ->
     now - st_mtime f = cache_ttl_days sc * Clock.usec_per_day ->
     (get_cached_data sc cache_key now fs).1 = cached (read_csv (content f))) /\
  (forall f, fs !! cache_file sc cache_key = Some f ->
     now - st_mtime f = (cache_ttl_days sc + 1) * Clock.usec_per_day ->
     (get_cached_data sc cache_key now fs).1 = inr None).
Proof.
  intros He. split; [|split; [|split]].
  - intros f Hf Hage. now rewrite (get_cached_data_hit _ _ _ _ _ He Hf Hage).
  - now apply get_cached_data_absent_iff.
  - intros f Hf Hage. apply timedelta_days_exact in Hage.
    rewrite (get_cached_data_hit _ _ _ _ _ He Hf); [reflexivity|lia].
  - intros f Hf Hage. apply timedelta_days_exact in Hage.
    rewrite (get_cached_data_stale _ _ _ _ _ He Hf); [reflexivity|lia].
Qed.


(** C1, as the code has it.  For a scraper with caching enabled, two
    [scrape()] calls with the same keyword parameters and
    [use_cache=True], when the first finds no fresh entry and its fetch
    and parse succeed, when both fall in the same calendar month and the
    second checks the cache no more than the time-to-live after the
    first wrote it, and when the table reads back from its CSV form as
    it was written: [fetch_data] is invoked exactly once over the two
    calls, and the second call returns the table of the first. *)
Theorem scrape_twice_fetches_once sc kwargs clk1 clk2 w raw ext1 df ext2 :
  cache_enabled sc = true ->
  ~ fresh sc (generate_cache_key sc (at_key clk1) kwargs) (at_check clk1) (files w) ->
  fetch_data sc kwargs (ext w) = (inr raw, ext1) ->
  parse_response sc raw ext1 = (inr df, ext2) ->
  Clock.strftime_Ym (at_key clk1) = Clock.strftime_Ym (at_key clk2) ->
  Clock.timedelta_days (at_check clk2) (at_write clk1) <= cache_ttl_days sc ->
  read_csv (to_csv df) = inr df ->
  exists w1 tr1 tr2,
    scrape sc true kwargs clk1 w = (inr df, w1, tr1) /\
    scrape sc true kwargs clk2 w1 = (inr df, w1, tr2) /\
    fetch_count (tr1 ++ tr2) = 1%nat /\
    fetch_count tr1 = 1%nat /\ fetch_count tr2 = 0%nat.
Proof.
  intros He Hmiss Hfetch Hparse Hmonth Hage Hcsv.
  set (key := generate_cache_key sc (at_key clk1) kwargs) in *.
  assert (Hkey : generate_cache_key sc (at_key clk2) kwargs = key).
  { unfold key, Scraper.generate_cache_key. now rewrite Hmonth. }
  apply get_cached_data_absent_iff in Hmiss; [|exact He].
  destruct (get_cached_data sc key (at_check clk1) (files w)) as [c0 tr0] eqn:Hget.
  cbn in Hmiss. subst c0.
  assert (Htr0 : fetch_count tr0 = 0%nat).
  { pose proof (get_cached_data_no_fetch sc key (at_check clk1) (files w)) as H0.
    now rewrite Hget in H0. }
  set (f1 := {| st_mtime := at_write clk1; content := to_csv df |}).
  set (w1 := {| files := <[cache_file sc key := f1]> (files w); ext := ext2 |}).
  assert (Hrun1 : scrape sc true kwargs clk1 w
                  = (inr df, w1,
                     (tr0 ++ [Log_fetching kwargs; Fetch kwargs]) ++ [Parse]
                       ++ [Write (cache_file sc key); Log_saved key])).
  { unfold Scraper.scrape. fold key. rewrite Hget, Hfetch, Hparse.
    unfold Scraper.save_to_cache. rewrite He. reflexivity. }
  assert (Hlook : files w1 !! cache_file sc key = Some f1)
    by apply lookup_insert_eq.
  assert (Hrun2 : scrape sc true kwargs clk2 w1
                  = (inr df, w1,
                     [Exists (cache_file sc key); Stat (cache_file sc key);
                      Log_cache_hit
                        (Clock.timedelta_days (at_check clk2) (at_write clk1)) key;
                      Read (cache_file sc key)])).
  { unfold Scraper.scrape. rewrite Hkey.
    rewrite (get_cached_data_hit sc key (at_check clk2) (files w1) f1 He Hlook Hage).
    cbn [content f1]. rewrite Hcsv. reflexivity. }
  exists w1. eexists. eexists. split; [exact Hrun1|]. split; [exact Hrun2|].
  rewrite !fetch_count_app, Htr0. repeat split; reflexivity.
Qed.

(** *** More on the cache *)

Definition is_write (ev : event V) : bool :=
  match ev with Write _ => true | _ => false end.





(** With a fresh entry in the cache, [scrape()] is [pd.read_csv] on the
    cache file and nothing more: it returns the table read, or raises
    the reader's error when the file does not parse, without a fetch
    and without touching the cache or the remote source.  A fresh file
    that is corrupt is therefore not repaired by a fetch. *)
Theorem scrape_fresh_entry_is_read sc kwargs clk w f :
  cache_enabled sc = true ->
  files w !! cache_file sc (generate_cache_key sc (at_key clk) kwargs) = Some f ->
  Clock.timedelta_days (at_check clk) (st_mtime f) <= cache_ttl_days sc ->
  exists tr,
    scrape sc true kwargs clk w = (read_csv (content f), w, tr) /\
    fetch_count tr = 0%nat /\
    Forall (fun ev => is_write ev = false) tr.
Proof.
  intros He Hf Hage. unfold Scraper.scrape.
  rewrite (get_cached_data_hit sc _ _ _ f He Hf Hage).
  eexists. split.
  - destruct (read_csv (content f)) as [e|t]; reflexivity.
  - split; [reflexivity|repeat constructor].
Qed.


(** A [scrape()] call changes no cache file but the one of its own
    parameters. *)
Theorem scrape_touches_own_file_only sc use_cache kwargs clk w path :
  path <> cache_file sc (generate_cache_key sc (at_key clk) kwargs) ->
  files (scrape sc use_cache kwargs clk w).1.2 !! path = files w !! path.
Proof.
  intros Hpath. unfold Scraper.scrape.
  destruct (if use_cache then _ else _) as [[e0|[t|]] tr0]; try reflexivity.
  destruct (fetch_data sc kwargs (ext w)) as [[e1|raw] ext1]; [reflexivity|].
  destruct (parse_response sc raw ext1) as [[e2|df] ext2]; [reflexivity|].
  unfold Scraper.save_to_cache. destruct (cache_enabled sc); cbn; [|reflexivity].
  now apply lookup_insert_ne.
Qed.

(** Saving and reading back: with caching enabled, what
    [get_cached_data] returns for a key within the time-to-live of a
    [save_to_cache] under that key is what [pd.read_csv] makes of the
    CSV form of the saved table, whatever the cache held before; the
    files of the other keys are as they were. *)
Theorem save_then_get_cached sc data cache_key now now' fs :
  cache_enabled sc = true ->
  Clock.timedelta_days now' now <= cache_ttl_days sc ->
  (get_cached_data sc cache_key now'
     (save_to_cache sc data cache_key now fs).1).1
    = cached (read_csv (to_csv data)) /\
  (forall path, path <> cache_file sc cache_key ->
     (save_to_cache sc data cache_key now fs).1 !! path = fs !! path).
Proof.
  intros He Hage. unfold Scraper.save_to_cache. rewrite He. cbn [negb fst].
  split.
  - rewrite (get_cached_data_hit sc cache_key now' _
               {| st_mtime := now; content := to_csv data |} He);
      [reflexivity | apply lookup_insert_eq | exact Hage].
  - intros path Hpath. now apply lookup_insert_ne.
Qed.
End facts.

Section examples.
Import Scenario.

Local Abbreviation scrape := (Scraper.scrape Clock.decimal digest to_csv read_csv).
Local Abbreviation get_cached_data := (Scraper.get_cached_data read_csv).

(** C1 fails as stated: with a time-to-live of 7 days, the second of two
    identical calls made 8 days apart in November 2026 finds the entry of
    the first stale and fetches again. *)
Lemma scrape_after_ttl_fetches_again :
  cache_enabled (RedfinScraper true 7) = true /\
  Clock.strftime_Ym (midnight nov_1) = Clock.strftime_Ym (midnight (nov_1 + 8)) /\
  exists r1 w1 tr1 r2 w2 tr2,
    scrape (RedfinScraper true 7) true zip_75201 (call_on nov_1) empty_cache
      = (r1, w1, tr1) /\
    scrape (RedfinScraper true 7) true zip_75201 (call_on (nov_1 + 8)) w1
      = (r2, w2, tr2) /\
    fetch_count tr1 = 1%nat /\ fetch_count tr2 = 1%nat /\
    fetch_count (tr1 ++ tr2) = 2%nat /\ fetch_count (tr1 ++ tr2) <> 1%nat.
Proof.
  split; [reflexivity|]. split; [reflexivity|].
  destruct (scrape (RedfinScraper true 7) true zip_75201 (call_on nov_1) empty_cache)
    as [[r1 w1] tr1] eqn:H1.
  destruct (scrape (RedfinScraper true 7) true zip_75201 (call_on (nov_1 + 8)) w1)
    as [[r2 w2] tr2] eqn:H2.
  exists r1, w1, tr1, r2, w2, tr2.
  split; [reflexivity|]. split; [exact H2|].
  vm_compute in H1. inversion H1; subst. clear H1.
  vm_compute in H2. inversion H2; subst. clear H2.
  repeat split; try reflexivity. discriminate.
Qed.

(** C1, as the code has it: the second call comes 3 days after the first. *)
Lemma scrape_twice_fetches_once_witness :
  exists w1 tr1 tr2,
    scrape (RedfinScraper true 7) true zip_75201 (call_on nov_1) empty_cache
      = (inr listings, w1, tr1) /\
    scrape (RedfinScraper true 7) true zip_75201 (call_on (nov_1 + 3)) w1
      = (inr listings, w1, tr2) /\
    fetch_count (tr1 ++ tr2) = 1%nat.
Proof.
  destruct (scrape_twice_fetches_once Clock.decimal digest to_csv read_csv
              (RedfinScraper true 7) zip_75201 (call_on nov_1)
              (call_on (nov_1 + 3)) empty_cache "<html>"%string 1%nat listings 1%nat)
    as (w1 & tr1 & tr2 & Hrun1 & Hrun2 & Hcount & _).
  - reflexivity.
  - intros (f & Hf & _). cbn in Hf. rewrite lookup_empty in Hf. discriminate Hf.
  - reflexivity.
  - reflexivity.
  - reflexivity.
  - vm_compute. discriminate.
  - reflexivity.
  - exists w1, tr1, tr2. split; [exact Hrun1|]. split; [exact Hrun2 | exact Hcount].
Defined.

(** C4 fails as stated: with caching disabled, a file written this very
    instant is not returned. *)
Lemma get_cached_data_disabled_ignores_fresh_file :
  fresh (RedfinScraper false 7) "k" (midnight nov_1)
    (one_file (RedfinScraper false 7)) /\
  (get_cached_data (RedfinScraper false 7) "k" (midnight nov_1)
     (one_file (RedfinScraper false 7))).1 = inr None.
Proof.
  split; [|reflexivity].
  exists {| st_mtime := midnight nov_1; content := listings |}.
  split; [apply lookup_singleton_eq|]. vm_compute. discriminate.
Qed.

(** C4, as the code has it: a file aged exactly the time-to-live, 7
    days, is read. *)
Lemma get_cached_data_ttl_boundary_witness :
  cache_enabled (RedfinScraper true 7) = true /\
  (get_cached_data (RedfinScraper true 7) "k" (midnight (nov_1 + 7))
     (one_file (RedfinScraper true 7))).1 = inr (Some listings) /\
  (get_cached_data (RedfinScraper true 7) "k" (midnight (nov_1 + 8))
     (one_file (RedfinScraper true 7))).1 = inr None.
Proof.
  split; [reflexivity|]. split.
  - exact (proj1 (proj2 (proj2
      (get_cached_data_ttl_boundary read_csv (RedfinScraper true 7) "k"
         (midnight (nov_1 + 7)) (one_file (RedfinScraper true 7)) eq_refl)))
      {| st_mtime := midnight nov_1; content := listings |}
      (lookup_singleton_eq _ _) eq_refl).
  - exact (proj2 (proj2 (proj2
      (get_cached_data_ttl_boundary read_csv (RedfinScraper true 7) "k"
         (midnight (nov_1 + 8)) (one_file (RedfinScraper true 7)) eq_refl)))
      {| st_mtime := midnight nov_1; content := listings |}
      (lookup_singleton_eq _ _) eq_refl).
Defined.

End examples.

End ScraperFacts.

(** ** HTTP session manager *)

Module SessionFacts.
Import Retry RetryRuns Session.

Section facts.
Context {V Body TransportExn OtherExn Net : Type}.
Context (session_get : string -> Py.items V -> Net
                       -> sent Body TransportExn OtherExn * Net).
Implicit Types (self : SessionManager V) (url : string) (kwargs : Py.items V).
Implicit Types (resp : response Body) (net : Net).

Local Abbreviation get_once := (Session.get_once session_get).
Local Abbreviation get := (Session.get session_get).

Lemma raise_for_status_error resp :
  400 <= status_code resp < 600 ->
  raise_for_status (TransportExn := TransportExn) resp = Some (HTTPError resp).
Proof.
  intros Hs. unfold raise_for_status.
  destruct (Z_lt_le_dec (status_code resp) 500) as [Hlt|Hge].
  - assert (H1 : (400 <=? status_code resp) = true) by (apply Z.leb_le; lia).
    assert (H2 : (status_code resp <? 500) = true) by (apply Z.ltb_lt; lia).
    now rewrite H1, H2.
  - assert (H2 : (status_code resp <? 500) = false) by (apply Z.ltb_ge; lia).
    assert (H3 : (500 <=? status_code resp) = true) by (apply Z.leb_le; lia).
    assert (H4 : (status_code resp <? 600) = true) by (apply Z.ltb_lt; lia).
    rewrite H2, H3, H4, andb_false_r. reflexivity.
Qed.

Lemma raise_for_status_ok resp :
  raise_for_status (TransportExn := TransportExn) resp = None ->
  status_code resp < 400 \/ 600 <= status_code resp.
Proof.
  intros Hr.
  destruct (Z_lt_le_dec (status_code resp) 400) as [|H400]; [now left|].
  destruct (Z_lt_le_dec (status_code resp) 600) as [H600|]; [|now right].
  exfalso. rewrite raise_for_status_error in Hr by lia. discriminate Hr.
Qed.

(** One request that returns: the response came from the network and
    carries no error status. *)
Lemma get_once_returns self url kwargs net resp net1 :
  get_once self url kwargs net = (Return resp, net1) ->
  session_get url (setdefault "timeout" (timeout self) kwargs) net
    = (Response resp, net1) /\
  (status_code resp < 400 \/ 600 <= status_code resp).
Proof.
  unfold Session.get_once.
  destruct (session_get url _ net) as [[resp0|e|x] net0]; try discriminate.
  destruct (raise_for_status resp0) eqn:Hr; [discriminate|].
  intros Heq. inversion Heq; subst.
  split; [reflexivity|]. now apply raise_for_status_ok.
Qed.

Lemma net_failures_elem {A NetExn OExn St} (func : callable A NetExn OExn St)
    s es s' :
  net_failures func s es s' ->
  forall e, e ∈ es -> exists s0 s1, func s0 = (Raise (RequestException e), s1).
Proof.
  induction 1 as [|s e0 s1 es s' Hf _ IH]; intros e He.
  - inversion He.
  - apply elem_of_cons in He as [->|He]; eauto.
Qed.

(** [get] never hands an error response to its caller: a response that
    it returns was received from the network with a status below 400 or
    from 600 on. *)
Theorem get_returns_no_error_status self url kwargs net resp tr net' :
  get self url kwargs net = (Return resp, tr, net') ->
  (status_code resp < 400 \/ 600 <= status_code resp) /\
  exists net0 net1,
    session_get url (setdefault "timeout" (timeout self) kwargs) net0
      = (Response resp, net1).
Proof.
  unfold Session.get. intros Hrun.
  destruct (RetryFacts.retry_result_last _ _ _ _ _ _ _ Hrun) as [Hall Hlast].
  destruct (last (calls tr)) as [r|] eqn:Hl; [|destruct Hlast; discriminate].
  subst r. apply last_Some in Hl as [pre Hpre].
  rewrite Hpre in Hall. apply Forall_app in Hall as [_ Hall].
  apply Forall_cons in Hall as [(net0 & net1 & Hcall) _].
  apply get_once_returns in Hcall as [Hsent Hstatus].
  split; [exact Hstatus|]. eauto.
Qed.

(** A URL that answers every request with an error status (400 to 599)
    is requested four times, with sleeps of 1, 2 and 4 seconds between
    the requests, before [get] raises the [HTTPError] of the fourth
    response. *)
Theorem get_error_status_four_requests self url kwargs net :
  (forall net0, exists resp net1,
     session_get url (setdefault "timeout" (timeout self) kwargs) net0
       = (Response resp, net1) /\
     400 <= status_code resp < 600) ->
  exists resp tr net',
    get self url kwargs net
      = (Raise (RequestException (HTTPError resp)), tr, net') /\
    400 <= status_code resp < 600 /\
    length (calls tr) = 4%nat /\
    sleeps tr = [1; 2; 4]%Q.
Proof.
  intros Herr.
  assert (Honce : forall net0, exists resp net1,
            get_once self url kwargs net0
              = (Raise (RequestException (HTTPError resp)), net1) /\
            400 <= status_code resp < 600).
  { intros net0. destruct (Herr net0) as (resp & net1 & Hsent & Hs).
    exists resp, net1. split; [|exact Hs].
    unfold Session.get_once. rewrite Hsent.
    now rewrite (raise_for_status_error resp Hs). }
  assert (Hnet : forall net0, exists e net1,
            get_once self url kwargs net0 = (Raise (RequestException e), net1)).
  { intros net0. destruct (Honce net0) as (resp & net1 & H1 & _). eauto. }
  destruct (RetryFacts.retry_exhaustion_run 3 2 _ net ltac:(lia) Hnet)
    as (es & e_last & net' & tr & Hrun & Hres & _ & Hlen & Hsleeps).
  destruct (net_failures_elem _ _ _ _ Hrun e_last) as (net0 & net1 & Hcall).
  { apply elem_of_app. right. now left. }
  destruct (Honce net0) as (resp & net1' & Hcall' & Hs).
  rewrite Hcall' in Hcall. inversion Hcall; subst.
  exists resp, tr, net'. split; [exact Hres|]. split; [exact Hs|].
  split; [exact Hlen | exact Hsleeps].
Qed.
End facts.

End SessionFacts.

(** ** Text helpers *)

Module TextFacts.
Import Text.

Lemma startswith_app (prefix s : string) :
  startswith prefix s = true <-> exists rest, s = (prefix ++ rest)%string.
Proof.
  revert s. induction prefix as [|a prefix IH]; intros s; cbn.
  - split; [intros _; now exists s | reflexivity].
  - destruct s as [|b s]; cbn.
    + split; [discriminate | intros (rest & Hr); discriminate Hr].
    + rewrite andb_true_iff, Ascii.eqb_eq, IH. split.
      * intros (-> & rest & ->). now exists rest.
      * intros (rest & Hr). inversion Hr; subst. split; [reflexivity|now exists rest].
Qed.

(** [validate_url] accepts exactly the strings that begin with
    [http://] or [https://], in lower case; nothing is asked of what
    follows the scheme. *)
Theorem validate_url_iff_scheme (url : string) :
  validate_url url = true <->
  exists rest, url = ("http://" ++ rest)%string \/ url = ("https://" ++ rest)%string.
Proof.
  unfold validate_url. destruct (String.eqb_spec url "") as [->|Hne].
  - split; [discriminate|]. intros (rest & [H|H]); discriminate H.
  - destruct (startswith "http://" url) eqn:H1.
    + cbn. split; [intros _|reflexivity].
      apply startswith_app in H1 as (rest & ->). exists rest. now left.
    + destruct (startswith "https://" url) eqn:H2; cbn.
      * split; [intros _|reflexivity].
        apply startswith_app in H2 as (rest & ->). exists rest. now right.
      * split; [discriminate|]. intros (rest & [H|H]).
        -- assert (Ht : startswith "http://" url = true)
             by (apply startswith_app; eauto).
           congruence.
        -- assert (Ht : startswith "https://" url = true)
             by (apply startswith_app; eauto).
           congruence.
Qed.

(** *** [sanitize_text] *)

Lemma split_starts_word (s : string) :
  starts_word s = true -> split s <> [].
Proof.
  destruct s as [|c s]; [discriminate|]. cbn. intros Hc.
  apply negb_true_iff in Hc. rewrite Hc.
  destruct (starts_word s); [destruct (split s)|]; discriminate.
Qed.

Lemma split_words (s : string) : Forall (fun w => is_word w = true) (split s).
Proof.
  induction s as [|c s IH]; cbn; [constructor|].
  destruct (isspace c) eqn:Hc; [exact IH|].
  destruct (starts_word s) eqn:Hs.
  - destruct (split s) as [|w ws] eqn:Hsp.
    + constructor; [cbn; now rewrite Hc|constructor].
    + apply Forall_cons in IH as [Hw Hws]. constructor; [|exact Hws].
      cbn. rewrite Hc. cbn. destruct w; [discriminate Hw|exact Hw].
  - constructor; [cbn; now rewrite Hc|exact IH].
Qed.

Lemma append_cons (c : ascii) (s rest : string) :
  (String c s ++ rest)%string = String c (s ++ rest).
Proof. reflexivity. Qed.

Lemma append_nil (rest : string) : (EmptyString ++ rest)%string = rest.
Proof. reflexivity. Qed.

(** A word in front of whitespace, or of nothing, is split off whole. *)
Lemma split_word_then (w rest : string) :
  is_word w = true -> starts_word rest = false ->
  split (w ++ rest) = w :: split rest.
Proof.
  induction w as [|c w IH]; [discriminate|]. intros Hw Hrest.
  cbn in Hw. apply andb_true_iff in Hw as [Hc Hw].
  apply negb_true_iff in Hc. rewrite append_cons. cbn [split]. rewrite Hc.
  destruct w as [|c' w].
  - rewrite append_nil. now rewrite Hrest.
  - assert (Hstart : starts_word (String c' w ++ rest) = true).
    { rewrite append_cons. cbn in Hw. apply andb_true_iff in Hw as [Hc' _].
      exact Hc'. }
    rewrite Hstart, IH by assumption. reflexivity.
Qed.

Lemma append_empty_r (s : string) : (s ++ "")%string = s.
Proof.
  induction s as [|c s IH]; [reflexivity|]. now rewrite append_cons, IH.
Qed.

Lemma concat_cons_cons (w w' : string) (ws : list string) :
  String.concat " " (w :: w' :: ws)
  = (w ++ String " " (String.concat " " (w' :: ws)))%string.
Proof. reflexivity. Qed.

Lemma split_concat (ws : list string) :
  Forall (fun w => is_word w = true) ws ->
  split (String.concat " " ws) = ws.
Proof.
  induction ws as [|w ws IH]; intros Hws; [reflexivity|].
  apply Forall_cons in Hws as [Hw Hws].
  destruct ws as [|w' ws].
  - cbn [String.concat]. rewrite <- (append_empty_r w) at 1.
    now rewrite split_word_then.
  - rewrite concat_cons_cons, split_word_then by (auto; reflexivity).
    f_equal. change (split (String " " ?x)) with (split x). now apply IH.
Qed.

Lemma starts_word_append (w rest : string) :
  is_word w = true -> starts_word (w ++ rest) = true.
Proof.
  destruct w as [|c w]; [discriminate|]. rewrite append_cons. cbn.
  intros [Hc _]%andb_true_iff. exact Hc.
Qed.

Lemma lstrip_starts_word (s : string) :
  starts_word s = true -> lstrip s = s.
Proof.
  destruct s as [|c s]; [discriminate|]. cbn. intros Hc.
  apply negb_true_iff in Hc. now rewrite Hc.
Qed.

Lemma rstrip_ends_word (s : string) :
  ends_word s = true -> rstrip s = s.
Proof.
  induction s as [|c s IH]; [discriminate|]. cbn [ends_word rstrip].
  destruct s as [|c' s].
  - intros Hc. apply negb_true_iff in Hc. cbn. now rewrite Hc.
  - intros He. rewrite (IH He). reflexivity.
Qed.

Lemma ends_word_append (a b : string) :
  b <> EmptyString -> ends_word (a ++ b) = ends_word b.
Proof.
  intros Hb. induction a as [|c a IH]; [reflexivity|].
  rewrite append_cons. cbn [ends_word].
  destruct (a ++ b)%string eqn:Hab; [|exact IH].
  destruct a; [rewrite append_nil in Hab; contradiction|discriminate Hab].
Qed.

Lemma ends_word_word (w : string) : is_word w = true -> ends_word w = true.
Proof.
  induction w as [|c w IH]; [discriminate|]. cbn.
  intros [Hc Hw]%andb_true_iff. destruct w as [|c' w]; [exact Hc|].
  apply IH. exact Hw.
Qed.

Lemma ends_word_concat (w : string) (ws : list string) :
  Forall (fun w => is_word w = true) (w :: ws) ->
  ends_word (String.concat " " (w :: ws)) = true.
Proof.
  revert w. induction ws as [|w' ws IH]; intros w Hws;
    apply Forall_cons in Hws as [Hw Hws].
  - now apply ends_word_word.
  - rewrite concat_cons_cons, ends_word_append by discriminate.
    cbn [ends_word]. destruct (String.concat " " (w' :: ws)) eqn:Hc.
    + apply IH in Hws. rewrite Hc in Hws. discriminate Hws.
    + rewrite <- Hc. now apply IH.
Qed.

Lemma strip_concat_words (ws : list string) :
  Forall (fun w => is_word w = true) ws ->
  strip (String.concat " " ws) = String.concat " " ws.
Proof.
  intros Hws. destruct ws as [|w ws]; [reflexivity|]. unfold strip.
  assert (Hstart : starts_word (String.concat " " (w :: ws)) = true).
  { apply Forall_cons in Hws as Hws'. destruct Hws' as [Hw _].
    destruct ws; [cbn; destruct w; [discriminate|]; cbn in *;
                  now apply andb_true_iff in Hw as [? _]|].
    rewrite concat_cons_cons. now apply starts_word_append. }
  rewrite lstrip_starts_word by exact Hstart.
  now apply rstrip_ends_word, ends_word_concat.
Qed.

Lemma sanitize_text_concat (text : string) :
  sanitize_text text = String.concat " " (split text).
Proof.
  unfold sanitize_text. destruct (String.eqb_spec text "") as [->|_].
  - reflexivity.
  - apply strip_concat_words, split_words.
Qed.

Lemma tidy_after_word (w rest : string) (b : bool) :
  is_word w = true -> tidy_after b (w ++ rest) = tidy_after true rest.
Proof.
  revert b. induction w as [|c w IH]; intros b; [discriminate|].
  rewrite append_cons. cbn.
  intros [Hc Hw]%andb_true_iff. apply negb_true_iff in Hc. rewrite Hc.
  destruct w as [|c' w]; [reflexivity|]. now apply IH.
Qed.

Lemma tidy_after_concat (w : string) (ws : list string) :
  Forall (fun w => is_word w = true) (w :: ws) ->
  tidy_after false (String.concat " " (w :: ws)) = true.
Proof.
  revert w. induction ws as [|w' ws IH]; intros w Hws;
    apply Forall_cons in Hws as [Hw Hws].
  - cbn [String.concat]. rewrite <- (append_empty_r w).
    now rewrite tidy_after_word.
  - rewrite concat_cons_cons, tidy_after_word by exact Hw.
    cbn [tidy_after]. change (isspace " ") with true. cbn. now apply IH.
Qed.

(** [sanitize_text] returns the words of the text joined by single
    spaces: the result is tidy (no whitespace but the space, none at
    either end, no two in a row), and the final [strip()] never has
    anything left to remove. *)
Theorem sanitize_text_tidy (text : string) :
  sanitize_text text = String.concat " " (split text) /\
  tidy (sanitize_text text) = true /\
  Forall (fun w => is_word w = true) (split text).
Proof.
  split; [apply sanitize_text_concat|]. split; [|apply split_words].
  rewrite sanitize_text_concat. pose proof (split_words text) as Hws.
  destruct (split text) as [|w ws]; [reflexivity|].
  unfold tidy. destruct (String.concat " " (w :: ws)) eqn:Hc.
  - reflexivity.
  - rewrite <- Hc. now apply tidy_after_concat.
Qed.

(** [sanitize_text] keeps the words of the text, in their order, and
    cleaning a cleaned text changes nothing. *)
Theorem sanitize_text_idempotent (text : string) :
  split (sanitize_text text) = split text /\
  sanitize_text (sanitize_text text) = sanitize_text text.
Proof.
  assert (Hsplit : split (sanitize_text text) = split text).
  { rewrite sanitize_text_concat. apply split_concat, split_words. }
  split; [exact Hsplit|].
  rewrite (sanitize_text_concat (sanitize_text text)), Hsplit.
  symmetry. apply sanitize_text_concat.
Qed.

End TextFacts.

(** ** Configuration helpers *)

Module HelpersFacts.
Import Helpers.

Lemma all_zips_elem (counties : list (string * list string)) (acc : list string)
    (z : string) :
  z ∈ fold_left (fun all_zips county_zips => all_zips ++ county_zips.2)
        counties acc
  <-> z ∈ acc \/ exists county zips, (county, zips) ∈ counties /\ z ∈ zips.
Proof.
  revert acc. induction counties as [|[county zips] counties IH]; intros acc; cbn.
  - split; [now left|]. intros [H|(c & zs & H & _)]; [exact H|inversion H].
  - rewrite IH, elem_of_app. split.
    + intros [[H|H]|(c & zs & Hc & Hz)].
      * now left.
      * right. exists county, zips. split; [now left|exact H].
      * right. exists c, zs. split; [now right|exact Hz].
    + intros [H|(c & zs & Hc & Hz)].
      * left. now left.
      * apply elem_of_cons in Hc as [Heq|Hc].
        -- inversion Heq; subst. left. now right.
        -- right. eauto.
Qed.

(** The list of ZIP codes of a document. *)
Lemma get_dfw_zip_codes_spec config_path fs zip_data counties :
  fs !! config_path = Some zip_data ->
  zip_data !! "zip_codes"%string = Some counties ->
  exists zips,
    get_dfw_zip_codes config_path fs = inr zips /\
    Sorted String.le zips /\
    NoDup zips /\
    (forall z, z ∈ zips <->
               exists county czips, (county, czips) ∈ counties /\ z ∈ czips).
Proof.
  intros Hfile Hkey. unfold get_dfw_zip_codes, load_yaml.
  rewrite Hfile, Hkey. eexists. split; [reflexivity|].
  split; [apply Sorted_merge_sort, _|]. split.
  - rewrite merge_sort_Permutation. apply NoDup_remove_dups.
  - intros z. rewrite merge_sort_Permutation, elem_of_remove_dups, all_zips_elem.
    split; [intros [H|H]; [inversion H|exact H] | now right].
Qed.

(** [get_dfw_zip_codes] returns the ZIP codes of all counties of the
    document in ascending order, each exactly once: a code is in the
    list if and only if some county lists it. *)
Theorem get_dfw_zip_codes_sorted_unique config_path fs zip_data counties :
  fs !! config_path = Some zip_data ->
  zip_data !! "zip_codes"%string = Some counties ->
  exists zips,
    get_dfw_zip_codes config_path fs = inr zips /\
    Sorted String.le zips /\
    NoDup zips /\
    (forall z, z ∈ zips <->
               exists county czips, (county, czips) ∈ counties /\ z ∈ czips).
Proof. apply get_dfw_zip_codes_spec. Qed.

(** The result depends on the set of ZIP codes alone: two documents
    that list the same codes, under whatever counties, in whatever order
    and however often, give the same list. *)
Theorem get_dfw_zip_codes_same_codes path1 path2 fs doc1 doc2 counties1 counties2 :
  fs !! path1 = Some doc1 -> doc1 !! "zip_codes"%string = Some counties1 ->
  fs !! path2 = Some doc2 -> doc2 !! "zip_codes"%string = Some counties2 ->
  (forall z, (exists county zips, (county, zips) ∈ counties1 /\ z ∈ zips) <->
             (exists county zips, (county, zips) ∈ counties2 /\ z ∈ zips)) ->
  get_dfw_zip_codes path1 fs = get_dfw_zip_codes path2 fs.
Proof.
  intros Hf1 Hk1 Hf2 Hk2 Hsame.
  destruct (get_dfw_zip_codes_spec _ _ _ _ Hf1 Hk1) as (z1 & -> & Hs1 & Hn1 & He1).
  destruct (get_dfw_zip_codes_spec _ _ _ _ Hf2 Hk2) as (z2 & -> & Hs2 & Hn2 & He2).
  f_equal. apply (Sorted_unique String.le); [exact Hs1|exact Hs2|].
  apply NoDup_Permutation; [exact Hn1|exact Hn2|].
  intros z. rewrite He1, He2. apply Hsame.
Qed.

(** A missing file and a document without the key [zip_codes] are the
    two ways in which [get_dfw_zip_codes] fails. *)
Theorem get_dfw_zip_codes_errors config_path fs :
  (get_dfw_zip_codes config_path fs = inl (FileNotFoundError config_path)
   <-> fs !! config_path = None) /\
  (get_dfw_zip_codes config_path fs = inl KeyError_zip_codes
   <-> exists zip_data, fs !! config_path = Some zip_data /\
                        zip_data !! "zip_codes"%string = None).
Proof.
  unfold get_dfw_zip_codes, load_yaml.
  destruct (fs !! config_path) as [zip_data|] eqn:Hf.
  - destruct (zip_data !! "zip_codes"%string) as [counties|] eqn:Hk.
    + split; split; try discriminate.
      intros (d & Hd & Hn). inversion Hd; subst. congruence.
    + split; split; try discriminate; eauto.
  - split; split; try reflexivity; try discriminate.
    intros (d & Hd & _). discriminate Hd.
Qed.

End HelpersFacts.

(** ** The further properties at concrete inputs *)

Module RetryExamples.
Import Retry RetryRuns Scenario.

Lemma retry_negative_witness :
  retry_on_failure (-2) 2 always_timeout 7%nat
    = (Raise TypeError_raise_None, [], 7%nat).
Proof. apply RetryFacts.retry_negative_never_calls. lia. Defined.

Lemma retry_call_bound_witness :
  Z.of_nat (length (calls (retry_on_failure 3 2 flaky 0%nat).1.2))
    <= Z.max 0 (3 + 1) /\
  Z.of_nat (length (sleeps (retry_on_failure 3 2 flaky 0%nat).1.2))
    <= Z.max 0 3.
Proof.
  apply (RetryFacts.retry_call_bound 3 2 flaky 0%nat
           (retry_on_failure 3 2 flaky 0%nat).1.1 _
           (retry_on_failure 3 2 flaky 0%nat).2).
  reflexivity.
Defined.

End RetryExamples.

Module RetrySleepExamples.
Import Retry RetryRuns Scenario.

(** Five retries of [always_timeout], doubling the delay: six calls. *)
Lemma retry_exhaustion_any_witness :
  Forall (fun d => Scenario2.time_sleep d = None) (backoff_delays 2 5) /\
  exists es e_last s' tr,
    net_failures always_timeout 0%nat (es ++ [e_last]) s' /\
    RetrySleep.retry_on_failure Scenario2.time_sleep 5 2 always_timeout 0%nat
      = (Raise (RequestException e_last), tr, s') /\
    calls tr = map (fun e => Raise (RequestException e)) (es ++ [e_last]) /\
    length (calls tr) = Z.to_nat (5 + 1) /\
    sleeps tr = backoff_delays 2 5.
Proof.
  assert (Hok : Forall (fun d => Scenario2.time_sleep d = None)
                  (backoff_delays 2 5)) by (repeat constructor).
  split; [exact Hok|].
  apply RetrySleepFacts.retry_exhaustion_any_max_retries; [lia|exact Hok|].
  intros s0. exists s0, (S s0). reflexivity.
Defined.

(** [flaky] fails twice and then returns 42. *)
Lemma retry_first_final_witness :
  exists tr,
    RetrySleep.retry_on_failure Scenario2.time_sleep 3 2 flaky 0%nat
      = (Return 42, tr, 3%nat) /\
    calls tr = map (fun e => Raise (RequestException e)) [0%nat; 1%nat]
               ++ [Return 42] /\
    sleeps tr = backoff_delays 2 (Z.of_nat (length [0%nat; 1%nat])).
Proof.
  apply (RetrySleepFacts.retry_first_final_outcome Scenario2.time_sleep 3 2
           flaky 0%nat [0%nat; 1%nat] 2%nat (Return 42) 3%nat).
  - apply (net_failures_cons flaky 0%nat 0%nat 1%nat); [reflexivity|].
    apply (net_failures_cons flaky 1%nat 1%nat 2%nat); [reflexivity|].
    apply net_failures_nil.
  - reflexivity.
  - reflexivity.
  - cbn. lia.
  - repeat constructor.
Defined.

(** With the factor -2 the second delay is -2: [time.sleep] raises
    [ValueError] after the second call, and [always_timeout] is not
    invoked again. *)
Lemma retry_refused_sleep_witness :
  exists tr,
    RetrySleep.retry_on_failure Scenario2.time_sleep 3 (-2) always_timeout 0%nat
      = (Raise (OtherException "ValueError"%string), tr, 2%nat) /\
    calls tr = [Raise (RequestException 0%nat); Raise (RequestException 1%nat)] /\
    sleeps tr = [1%Q; (-2)%Q] /\
    last tr = Some (Sleep (-2)%Q).
Proof.
  apply (RetrySleepFacts.retry_refused_sleep_ends Scenario2.time_sleep 3 (-2)
           always_timeout 0%nat [0%nat] 1%nat 1%nat 2%nat "ValueError"%string).
  - apply (net_failures_cons always_timeout 0%nat 0%nat 1%nat); [reflexivity|].
    apply net_failures_nil.
  - reflexivity.
  - cbn. lia.
  - repeat constructor.
  - reflexivity.
Defined.

(** The same run: its result is the [ValueError] of the refused sleep,
    which is the last event, and not the timeout of the last call. *)
Lemma retry_result_is_last_witness :
  (RetrySleep.retry_on_failure Scenario2.time_sleep 3 (-2)
     always_timeout 0%nat).1.1 = Raise (OtherException "ValueError"%string) /\
  last (calls (RetrySleep.retry_on_failure Scenario2.time_sleep 3 (-2)
                 always_timeout 0%nat).1.2)
    = Some (Raise (RequestException 1%nat)) /\
  List.find (RetrySleep.refused Scenario2.time_sleep)
    (sleeps (RetrySleep.retry_on_failure Scenario2.time_sleep 3 (-2)
               always_timeout 0%nat).1.2) = Some (-2)%Q /\
  last (RetrySleep.retry_on_failure Scenario2.time_sleep 3 (-2)
          always_timeout 0%nat).1.2 = Some (Sleep (-2)%Q).
Proof.
  pose proof (RetrySleepFacts.retry_result_is_last_outcome Scenario2.time_sleep
                3 (-2) always_timeout 0%nat _ _ _ eq_refl) as [_ Hlast].
  change (List.find (RetrySleep.refused Scenario2.time_sleep) _)
    with (Some (-2)%Q) in Hlast.
  destruct Hlast as [Hl _].
  split; [reflexivity|]. split; [reflexivity|]. split; [reflexivity|exact Hl].
Defined.

(** [flaky] under the same wrapper with the factor 2: no sleep is
    refused and the result is the value of the last call. *)
Example retry_flaky_result :
  (RetrySleep.retry_on_failure Scenario2.time_sleep 3 2 flaky 0%nat).1.1
    = Return 42 /\
  Retry.retry_on_failure 3 2 flaky 0%nat
    = RetrySleep.retry_on_failure Scenario2.time_sleep 3 2 flaky 0%nat.
Proof. split; reflexivity. Qed.

End RetrySleepExamples.

Module SessionExamples.
Import Retry Session Scenario2.

(** A host that answers 200 at once. *)
Lemma get_returns_witness :
  (status_code {| status_code := 200; body := "<html>"%string |} < 400 \/
   600 <= status_code {| status_code := 200; body := "<html>"%string |}) /\
  exists net0 net1,
    always_200 "http://example.org"
      (setdefault "timeout" (timeout manager) []) net0
    = (Response {| status_code := 200; body := "<html>"%string |}, net1).
Proof.
  apply (SessionFacts.get_returns_no_error_status always_200 manager
           "http://example.org" [] 0%nat
           {| status_code := 200; body := "<html>"%string |}
           [Call (Return {| status_code := 200; body := "<html>"%string |})]
           1%nat).
  reflexivity.
Defined.

(** A host that answers 503 for ever. *)
Lemma get_error_status_witness :
  exists resp tr net',
    get always_503 manager "http://example.org" [] 0%nat
      = (Raise (RequestException (HTTPError resp)), tr, net') /\
    400 <= status_code resp < 600 /\
    length (calls tr) = 4%nat /\
    sleeps tr = [1; 2; 4]%Q.
Proof.
  apply SessionFacts.get_error_status_four_requests.
  intros net0. eexists _, _. split; [reflexivity|]. cbn. lia.
Defined.

End SessionExamples.

Module LoggerExamples.
Import Logger LoggerIO Scenario Scenario2.

(** A first setup of the logger [scraper], with a log file, next to the
    configured logger [app]. *)
Lemma setup_logger_returns_witness :
  exists w',
    setup_logger "scraper" (Some "logs/avm.log"%string) "info" 10485760 5
      writable configured = (Returned "scraper", w') /\
    (exists l',
       loggers w' !! "scraper"%string = Some l' /\
       handlers l' <> [] /\
       logging_level (upper "info") = Some (Logger.level l')) /\
    (exists l2,
       loggers w' !! "app"%string = Some l2 /\
       Logger.level l2 = Logger.level app_logger /\
       handlers l2 = handlers app_logger).
Proof.
  destruct (setup_logger "scraper" (Some "logs/avm.log"%string) "info"
              10485760 5 writable configured) as [r w'] eqn:Hrun.
  assert (Hr : r = Returned "scraper").
  { apply (f_equal fst) in Hrun. cbn in Hrun. rewrite <- Hrun. reflexivity. }
  subst r. exists w'. split; [reflexivity|].
  destruct (LoggerIOFacts.setup_logger_returns_configured _ _ _ _ _ _ _ _ _ Hrun)
    as (_ & (l' & Hl & Hh & Hlv & _) & Hothers).
  split; [eauto|].
  destruct (Hothers "app"%string app_logger) as (l2 & H2 & Hlev & Hhs & _);
    [discriminate|reflexivity|].
  eauto.
Defined.

(** On a read-only disk the first setup of [scraper] raises [OSError];
    the second returns the logger, which has the console handler only,
    and changes nothing, although the disk is writable by then. *)
Lemma setup_logger_idempotent_witness :
  (setup_logger "scraper" (Some "logs/avm.log"%string) "info" 10485760 5
     read_only configured).1 = Raised OSError /\
  setup_logger "scraper" (Some "logs/avm.log"%string) "info" 10485760 5
    writable
    (setup_logger "scraper" (Some "logs/avm.log"%string) "info" 10485760 5
       read_only configured).2
  = (Returned "scraper",
     (setup_logger "scraper" (Some "logs/avm.log"%string) "info" 10485760 5
        read_only configured).2) /\
  exists l,
    loggers (setup_logger "scraper" (Some "logs/avm.log"%string) "info"
               10485760 5 read_only configured).2 !! "scraper"%string = Some l /\
    handlers l = [StreamHandler_stdout].
Proof.
  pose proof (LoggerIOFacts.setup_logger_idempotent "scraper"
                (Some "logs/avm.log"%string) "info" 10485760 5
                read_only writable configured) as [Hw Hr].
  assert (H1 : (setup_logger "scraper" (Some "logs/avm.log"%string) "info"
                  10485760 5 read_only configured).1 = Raised OSError)
    by reflexivity.
  rewrite H1 in Hr. destruct Hr as [Hret Hl].
  split; [exact H1|]. split; [|exact Hl].
  apply injective_projections; [exact Hret | exact Hw].
Defined.

(** [get_logger] on a read-only disk raises [OSError] although
    [LOG_LEVEL] is unset, and raises for the level [verbose]. *)
Lemma get_logger_raises_witness :
  (get_logger "scraper" ∅ read_only configured).1 = Raised OSError /\
  (get_logger "scraper" {[ "LOG_LEVEL"%string := "verbose"%string ]}
     writable configured).1 = Raised LevelError /\
  (get_logger "scraper" ∅ no_files configured).1 = Raised OSError /\
  (get_logger "app" ∅ read_only configured).1 = Returned "app".
Proof.
  split; [|split; [|split]].
  - apply (LoggerIOFacts.get_logger_raises_iff "scraper" ∅ read_only configured).
    repeat split; try discriminate. left. reflexivity.
  - apply (LoggerIOFacts.get_logger_raises_iff "scraper"
             {[ "LOG_LEVEL"%string := "verbose"%string ]} writable configured).
    reflexivity.
  - apply (LoggerIOFacts.get_logger_raises_iff "scraper" ∅ no_files configured).
    repeat split; try discriminate. right. reflexivity.
  - reflexivity.
Defined.

(** On a file system that grants every request, the two functions
    agree. *)
Example setup_logger_writable :
  (setup_logger "scraper" (Some "logs/avm.log"%string) "info" 10485760 5
     writable configured).2
  = (Logger.setup_logger "scraper" (Some "logs/avm.log"%string) "info"
       10485760 5 configured).2.
Proof. reflexivity. Qed.

End LoggerExamples.

Module HelpersExamples.
Import Helpers Scenario2.

Ltac split_elem H :=
  repeat (apply elem_of_cons in H as [H|H]);
  try (apply elem_of_nil in H; contradiction).

Ltac find_elem := first [left | right; find_elem].

Lemma get_dfw_zip_codes_witness :
  exists zips,
    get_dfw_zip_codes "config/dfw_zips.yaml" config_files = inr zips /\
    zips = ["75001"; "75201"; "76101"]%string /\
    Sorted String.le zips /\ NoDup zips.
Proof.
  destruct (HelpersFacts.get_dfw_zip_codes_sorted_unique
              "config/dfw_zips.yaml" config_files dfw_zips
              [("dallas"%string, ["75201"; "75001"]%string);
               ("tarrant"%string, ["76101"; "75001"]%string)]
              eq_refl eq_refl)
    as (zips & Hres & Hsorted & Hnd & _).
  exists zips. split; [exact Hres|]. split; [|auto].
  vm_compute in Hres. now inversion Hres.
Defined.

Lemma get_dfw_zip_codes_same_codes_witness :
  get_dfw_zip_codes "config/dfw_zips.yaml" config_files
  = get_dfw_zip_codes "config/regrouped.yaml" config_files.
Proof.
  apply (HelpersFacts.get_dfw_zip_codes_same_codes
           "config/dfw_zips.yaml" "config/regrouped.yaml" config_files
           dfw_zips dfw_zips_regrouped
           [("dallas"%string, ["75201"; "75001"]%string);
            ("tarrant"%string, ["76101"; "75001"]%string)]
           [("all"%string, ["76101"; "75201"; "75001"; "75201"]%string)]);
    try reflexivity.
  intros z. split.
  - intros (county & zips & Hc & Hz).
    exists "all"%string, ["76101"; "75201"; "75001"; "75201"]%string.
    split; [left|].
    split_elem Hc; inversion Hc; subst; split_elem Hz; subst; find_elem.
  - intros (county & zips & Hc & Hz).
    split_elem Hc. inversion Hc; subst. split_elem Hz; subst.
    + exists "tarrant"%string, ["76101"; "75001"]%string. split; find_elem.
    + exists "dallas"%string, ["75201"; "75001"]%string. split; find_elem.
    + exists "dallas"%string, ["75201"; "75001"]%string. split; find_elem.
    + exists "dallas"%string, ["75201"; "75001"]%string. split; find_elem.
Defined.

End HelpersExamples.

Module FrameExamples.
Import Frame Scenario Scenario2.

Ltac in_list H :=
  repeat (apply elem_of_cons in H as [H|H]);
  try (apply elem_of_nil in H; contradiction).

Ltac this_one := first [left | right; this_one].

Lemma listings_columns :
  "address"%string ∈ columns listings /\
  (forall c, c ∈ ["address"; "price"]%string -> c ∈ columns listings).
Proof. split; [left|]. intros c Hc. exact Hc. Qed.

(** The validated [listings] are a fixed point of the validation. *)
Lemma validate_data_idempotent_witness :
  exists df',
    (validate_data listings ["address"; "price"]%string).1 = inr df' /\
    (validate_data df' ["address"; "price"]%string).1 = inr df'.
Proof.
  exists {| columns := ["address"; "price"]%string;
            rows := [[Some "123 Main St"; Some "450000"];
                     [Some "9 Elm Ave"; Some "310000"]]%string |}.
  split; [reflexivity|].
  apply (FrameFacts.validate_data_idempotent listings
           ["address"; "price"]%string).
  - exact (proj1 listings_columns).
  - exact (proj2 listings_columns).
  - reflexivity.
Defined.

Lemma validate_data_only_removes_witness :
  columns {| columns := ["address"; "price"]%string;
             rows := [[Some "123 Main St"; Some "450000"];
                      [Some "9 Elm Ave"; Some "310000"]]%string |}
    = columns listings /\
  rows {| columns := ["address"; "price"]%string;
          rows := [[Some "123 Main St"; Some "450000"];
                   [Some "9 Elm Ave"; Some "310000"]]%string |}
    `sublist_of` rows listings.
Proof.
  apply (FrameFacts.validate_data_only_removes_rows listings
           ["address"; "price"]%string).
  reflexivity.
Defined.

(** Of the three [located] listings only the one in Dallas is inside the
    box: one lies too far north, one has no latitude. *)
Lemma filter_geography_retains_witness :
  (filter_geography as_float located LAT_MIN LAT_MAX LON_MIN LON_MAX).1
    = inr in_dallas /\
  columns in_dallas = columns located /\
  rows in_dallas `sublist_of` rows located.
Proof.
  assert (Hres : (filter_geography as_float located
                    LAT_MIN LAT_MAX LON_MIN LON_MAX).1 = inr in_dallas)
    by reflexivity.
  split; [exact Hres|].
  destruct (FrameFacts.filter_geography_retains_box as_float located
              LAT_MIN LAT_MAX LON_MIN LON_MAX in_dallas) as (Hc & Hs & _).
  - this_one.
  - this_one.
  - exact Hres.
  - split; [exact Hc | exact Hs].
Defined.

Lemma filter_geography_idempotent_witness :
  (filter_geography as_float located LAT_MIN LAT_MAX LON_MIN LON_MAX).1
    = inr in_dallas /\
  (filter_geography as_float in_dallas LAT_MIN LAT_MAX LON_MIN LON_MAX).1
    = inr in_dallas.
Proof.
  assert (Hres : (filter_geography as_float located
                    LAT_MIN LAT_MAX LON_MIN LON_MAX).1 = inr in_dallas)
    by reflexivity.
  split; [exact Hres|].
  exact (FrameFacts.filter_geography_idempotent as_float located
           LAT_MIN LAT_MAX LON_MIN LON_MAX in_dallas Hres).
Defined.

(** [located], validated on its address and then filtered. *)
Lemma filter_geography_keeps_validated_witness :
  (validate_data located ["address"%string]).1 = inr located /\
  columns in_dallas = columns located /\
  NoDup (map (at_column located "address") (rows in_dallas)).
Proof.
  assert (Hval : (validate_data located ["address"%string]).1 = inr located)
    by reflexivity.
  split; [exact Hval|].
  destruct (FrameFacts.filter_geography_keeps_validated as_float located
              ["address"%string] located LAT_MIN LAT_MAX LON_MIN LON_MAX
              in_dallas) as (Hc & Hnd & _).
  - this_one.
  - intros c Hc. in_list Hc. subst. this_one.
  - exact Hval.
  - reflexivity.
  - split; [exact Hc | exact Hnd].
Defined.

End FrameExamples.

Module ScraperExamples.
Import Scraper Scenario Scenario2.

Local Abbreviation scrape :=
  (Scraper.scrape Clock.decimal digest Scenario.to_csv Scenario.read_csv).


(** Two days after the entry was written, it is read and returned. *)
Lemma scrape_fresh_entry_witness :
  exists tr,
    scrape (RedfinScraper true 7) true zip_75201 (call_on (nov_1 + 2)) warm_cache
      = (inr listings, warm_cache, tr) /\
    fetch_count tr = 0%nat.
Proof.
  destruct (ScraperFacts.scrape_fresh_entry_is_read Clock.decimal digest
              Scenario.to_csv Scenario.read_csv (RedfinScraper true 7)
              zip_75201 (call_on (nov_1 + 2)) warm_cache
              {| st_mtime := midnight nov_1; content := listings |})
    as (tr & Hrun & Hcount & _).
  - reflexivity.
  - reflexivity.
  - vm_compute. discriminate.
  - exists tr. split; [exact Hrun | exact Hcount].
Defined.


Lemma scrape_touches_own_file_witness :
  files (scrape (RedfinScraper true 7) false b2_a1 (call_on (nov_1 + 2))
           warm_cache).1.2
    !! "data/raw/redfinscraper_202611_zip_code=752.csv"%string
  = files warm_cache !! "data/raw/redfinscraper_202611_zip_code=752.csv"%string.
Proof.
  apply (ScraperFacts.scrape_touches_own_file_only Clock.decimal digest
           Scenario.to_csv Scenario.read_csv).
  vm_compute. discriminate.
Defined.

Lemma save_then_get_cached_witness :
  (get_cached_data Scenario.read_csv (RedfinScraper true 7) "k"
     (midnight (nov_1 + 7))
     (save_to_cache Scenario.to_csv (RedfinScraper true 7) listings "k"
        (midnight nov_1) ∅).1).1
  = cached (Scenario.read_csv (Scenario.to_csv listings)).
Proof.
  apply (ScraperFacts.save_then_get_cached Scenario.to_csv Scenario.read_csv
           (RedfinScraper true 7) listings "k" (midnight nov_1)
           (midnight (nov_1 + 7)) ∅).
  - reflexivity.
  - vm_compute. discriminate.
Defined.

End ScraperExamples.

Module RateLimiterExamples.
Import RateLimiter Scenario.

(** One second after a request, with a sampled delay of 2.5 s, [wait]
    sleeps 1.5 s. *)
Lemma wait_sleep_bounds_witness :
  wait {| min_delay := 2; max_delay := 4; last_request_time := 100 |} 100
       {| elapsed_before := 1; sample := 1 # 4; oversleep := 0;
          elapsed_after := 0 |}
    = ({| min_delay := 2; max_delay := 4; last_request_time := 410 # 4 |},
       410 # 4, Some (6 # 4)) /\
  (0 < 6 # 4)%Q /\
  ((6 # 4) + (100 + 1 - 100) <= 4)%Q.
Proof.
  assert (Hrun : wait {| min_delay := 2; max_delay := 4;
                         last_request_time := 100 |} 100
                   {| elapsed_before := 1; sample := 1 # 4; oversleep := 0;
                      elapsed_after := 0 |}
                 = ({| min_delay := 2; max_delay := 4;
                       last_request_time := 410 # 4 |}, 410 # 4, Some (6 # 4)))
    by reflexivity.
  split; [exact Hrun|].
  assert (Hmm : (min_delay {| min_delay := 2; max_delay := 4;
                              last_request_time := 100 |}
                 <= max_delay {| min_delay := 2; max_delay := 4;
                                 last_request_time := 100 |})%Q)
    by (cbn; lra).
  assert (Hok : env_ok {| elapsed_before := 1; sample := 1 # 4;
                          oversleep := 0; elapsed_after := 0 |})
    by (repeat split; cbn; lra).
  destruct (RateLimiterFacts.wait_sleep_bounds _ _ _ _ _ _ Hmm Hok Hrun)
    as (_ & Hsleep & _).
  exact (Hsleep (6 # 4) eq_refl).
Defined.

End RateLimiterExamples.
